(** * Socrates: the database access pipeline

    A shallow embedding of the TypeScript sources under [src/database]:
    [DatabaseCircuitBreaker], [DatabaseConnectionManager],
    [SessionQueryEngine], [SessionDataParser], [WorkspaceResolver] and the
    [DatabaseReader] facade, followed by the properties that the
    specification states about them and by further properties of the
    code.

    Conventions of the embedding.
    - JavaScript numbers that hold counters, thresholds and epoch
      milliseconds are integers ([Z]); the retry delay, which the code
      multiplies by a random fraction, is a rational ([Q]).
    - [Date.now()] is an input.  The task is suspended only at an [await],
      so all the readings of one synchronous block ([onSuccess],
      [onFailure] with the helpers they call) see the same instant.
    - A promise that rejects, or a call that throws, is a value of a sum
      type; [try]/[catch] is a [match] on it.
    - Each class is a module; an instance is a record of its fields and a
      method takes the instance and returns the updated one. *)

From Stdlib Require Import ZArith QArith Qminmax Lqa Lia Bool List Ascii String
  DecimalString.
Import ListNotations.

Set Implicit Arguments.
Local Open Scope string_scope.
Local Open Scope list_scope.
Local Open Scope Z_scope.

(** Template literals print integers in decimal. *)
Definition String_of_Z (z : Z) : string := NilZero.string_of_int (Z.to_int z).

(* ================================================================== *)
(** * DatabaseCircuitBreaker.ts *)

Module DatabaseCircuitBreaker.

Inductive CircuitState : Set :=
| CLOSED      (* Normal operation *)
| OPEN        (* Circuit is open, blocking calls *)
| HALF_OPEN.  (* Testing if service has recovered *)

Definition CircuitState_eqb (a b : CircuitState) : bool :=
  match a, b with
  | CLOSED, CLOSED | OPEN, OPEN | HALF_OPEN, HALF_OPEN => true
  | _, _ => false
  end.

Record CircuitBreakerConfig : Set := {
  failureThreshold : Z;   (* Number of failures before opening circuit *)
  resetTimeout     : Z;   (* Time in ms before attempting to close circuit *)
  monitoringWindow : Z;   (* Time window for failure counting *)
  successThreshold : Z;   (* Successes needed to close circuit from half-open *)
  maxRetries       : Z;   (* Maximum retry attempts *)
  retryDelay       : Q    (* Base delay between retries in ms *)
}.

Definition DEFAULT_CONFIG : CircuitBreakerConfig := {|
  failureThreshold := 5;
  resetTimeout     := 60000;
  monitoringWindow := 300000;
  successThreshold := 3;
  maxRetries       := 3;
  retryDelay       := 1000%Q
|}.

(** The private fields of a breaker instance. *)
Record Breaker : Set := {
  state                : CircuitState;
  failureCount         : Z;
  successCount         : Z;
  lastFailureTime      : option Z;
  lastSuccessTime      : option Z;
  totalCalls           : Z;
  totalFailures        : Z;
  totalSuccesses       : Z;
  startTime            : Z;
  lastStateChange      : Z;
  consecutiveSuccesses : Z
}.

(** The field initialisers, [now] being the clock at construction. *)
Definition newBreaker (now : Z) : Breaker := {|
  state := CLOSED; failureCount := 0; successCount := 0;
  lastFailureTime := None; lastSuccessTime := None;
  totalCalls := 0; totalFailures := 0; totalSuccesses := 0;
  startTime := now; lastStateChange := now; consecutiveSuccesses := 0
|}.

(** Assignments to single fields. *)
Definition set_state (v : CircuitState) (b : Breaker) : Breaker :=
  {| state := v; failureCount := failureCount b; successCount := successCount b;
     lastFailureTime := lastFailureTime b; lastSuccessTime := lastSuccessTime b;
     totalCalls := totalCalls b; totalFailures := totalFailures b;
     totalSuccesses := totalSuccesses b; startTime := startTime b;
     lastStateChange := lastStateChange b;
     consecutiveSuccesses := consecutiveSuccesses b |}.

Definition set_failureCount (v : Z) (b : Breaker) : Breaker :=
  {| state := state b; failureCount := v; successCount := successCount b;
     lastFailureTime := lastFailureTime b; lastSuccessTime := lastSuccessTime b;
     totalCalls := totalCalls b; totalFailures := totalFailures b;
     totalSuccesses := totalSuccesses b; startTime := startTime b;
     lastStateChange := lastStateChange b;
     consecutiveSuccesses := consecutiveSuccesses b |}.

Definition set_successCount (v : Z) (b : Breaker) : Breaker :=
  {| state := state b; failureCount := failureCount b; successCount := v;
     lastFailureTime := lastFailureTime b; lastSuccessTime := lastSuccessTime b;
     totalCalls := totalCalls b; totalFailures := totalFailures b;
     totalSuccesses := totalSuccesses b; startTime := startTime b;
     lastStateChange := lastStateChange b;
     consecutiveSuccesses := consecutiveSuccesses b |}.

Definition set_lastFailureTime (v : option Z) (b : Breaker) : Breaker :=
  {| state := state b; failureCount := failureCount b;
     successCount := successCount b;
     lastFailureTime := v; lastSuccessTime := lastSuccessTime b;
     totalCalls := totalCalls b; totalFailures := totalFailures b;
     totalSuccesses := totalSuccesses b; startTime := startTime b;
     lastStateChange := lastStateChange b;
     consecutiveSuccesses := consecutiveSuccesses b |}.

Definition set_lastSuccessTime (v : option Z) (b : Breaker) : Breaker :=
  {| state := state b; failureCount := failureCount b;
     successCount := successCount b;
     lastFailureTime := lastFailureTime b; lastSuccessTime := v;
     totalCalls := totalCalls b; totalFailures := totalFailures b;
     totalSuccesses := totalSuccesses b; startTime := startTime b;
     lastStateChange := lastStateChange b;
     consecutiveSuccesses := consecutiveSuccesses b |}.

Definition set_totalCalls (v : Z) (b : Breaker) : Breaker :=
  {| state := state b; failureCount := failureCount b;
     successCount := successCount b;
     lastFailureTime := lastFailureTime b; lastSuccessTime := lastSuccessTime b;
     totalCalls := v; totalFailures := totalFailures b;
     totalSuccesses := totalSuccesses b; startTime := startTime b;
     lastStateChange := lastStateChange b;
     consecutiveSuccesses := consecutiveSuccesses b |}.

Definition set_totalFailures (v : Z) (b : Breaker) : Breaker :=
  {| state := state b; failureCount := failureCount b;
     successCount := successCount b;
     lastFailureTime := lastFailureTime b; lastSuccessTime := lastSuccessTime b;
     totalCalls := totalCalls b; totalFailures := v;
     totalSuccesses := totalSuccesses b; startTime := startTime b;
     lastStateChange := lastStateChange b;
     consecutiveSuccesses := consecutiveSuccesses b |}.

Definition set_totalSuccesses (v : Z) (b : Breaker) : Breaker :=
  {| state := state b; failureCount := failureCount b;
     successCount := successCount b;
     lastFailureTime := lastFailureTime b; lastSuccessTime := lastSuccessTime b;
     totalCalls := totalCalls b; totalFailures := totalFailures b;
     totalSuccesses := v; startTime := startTime b;
     lastStateChange := lastStateChange b;
     consecutiveSuccesses := consecutiveSuccesses b |}.

Definition set_lastStateChange (v : Z) (b : Breaker) : Breaker :=
  {| state := state b; failureCount := failureCount b;
     successCount := successCount b;
     lastFailureTime := lastFailureTime b; lastSuccessTime := lastSuccessTime b;
     totalCalls := totalCalls b; totalFailures := totalFailures b;
     totalSuccesses := totalSuccesses b; startTime := startTime b;
     lastStateChange := v;
     consecutiveSuccesses := consecutiveSuccesses b |}.

Definition set_consecutiveSuccesses (v : Z) (b : Breaker) : Breaker :=
  {| state := state b; failureCount := failureCount b;
     successCount := successCount b;
     lastFailureTime := lastFailureTime b; lastSuccessTime := lastSuccessTime b;
     totalCalls := totalCalls b; totalFailures := totalFailures b;
     totalSuccesses := totalSuccesses b; startTime := startTime b;
     lastStateChange := lastStateChange b;
     consecutiveSuccesses := v |}.

(** [!this.lastFailureTime]: [undefined] and [0] are falsy. *)
Definition falsy_time (t : option Z) : bool :=
  match t with
  | None => true
  | Some v => v =? 0
  end.

(** [setState]: set circuit state and update timestamp. *)
Definition setState (now : Z) (newState : CircuitState) (b : Breaker) : Breaker :=
  if CircuitState_eqb (state b) newState then b
  else set_lastStateChange now (set_state newState b).

(** [cleanupOldFailures]: the whole counter is dropped once the last failure
    is older than the monitoring window. *)
Definition cleanupOldFailures (cfg : CircuitBreakerConfig) (now : Z)
    (b : Breaker) : Breaker :=
  if falsy_time (lastFailureTime b) then b
  else
    let cutoffTime := now - monitoringWindow cfg in
    match lastFailureTime b with
    | Some t => if t <? cutoffTime then set_failureCount 0 b else b
    | None => b
    end.

(** [shouldAttemptReset]. *)
Definition shouldAttemptReset (cfg : CircuitBreakerConfig) (now : Z)
    (b : Breaker) : bool :=
  if falsy_time (lastFailureTime b) then true
  else
    match lastFailureTime b with
    | Some t => resetTimeout cfg <=? now - t
    | None => true
    end.

(** [onSuccess]: handle successful operation. *)
Definition onSuccess (cfg : CircuitBreakerConfig) (now : Z) (b : Breaker)
    : Breaker :=
  let b := set_successCount (successCount b + 1) b in
  let b := set_totalSuccesses (totalSuccesses b + 1) b in
  let b := set_consecutiveSuccesses (consecutiveSuccesses b + 1) b in
  let b := set_lastSuccessTime (Some now) b in
  let b := cleanupOldFailures cfg now b in
  match state b with
  | HALF_OPEN =>
      if successThreshold cfg <=? consecutiveSuccesses b then
        let b := setState now CLOSED b in
        let b := set_failureCount 0 b in
        set_consecutiveSuccesses 0 b
      else b
  | CLOSED => set_failureCount 0 b
  | OPEN => b
  end.

(** [onFailure]: handle failed operation. *)
Definition onFailure (cfg : CircuitBreakerConfig) (now : Z) (b : Breaker)
    : Breaker :=
  let b := set_failureCount (failureCount b + 1) b in
  let b := set_totalFailures (totalFailures b + 1) b in
  let b := set_consecutiveSuccesses 0 b in
  let b := set_lastFailureTime (Some now) b in
  let b := cleanupOldFailures cfg now b in
  match state b with
  | CLOSED | HALF_OPEN =>
      if failureThreshold cfg <=? failureCount b then setState now OPEN b
      else b
  | OPEN => b
  end.

(** [Math.pow(2, attempt)] for a loop counter. *)
Definition pow2 (attempt : nat) : Q := inject_Z (2 ^ Z.of_nat attempt).

(** [calculateRetryDelay]; [rnd] is the value of [Math.random()]. *)
Definition calculateRetryDelay (cfg : CircuitBreakerConfig) (attempt : nat)
    (rnd : Q) : Q :=
  let exponentialDelay := (retryDelay cfg * pow2 attempt)%Q in
  let jitter := (rnd * (1 # 10) * exponentialDelay)%Q in
  Qmin (exponentialDelay + jitter) 30000%Q.

(** [reset] and [open], the manual controls. *)
Definition reset (now : Z) (b : Breaker) : Breaker :=
  let b := setState now CLOSED b in
  let b := set_failureCount 0 b in
  let b := set_successCount 0 b in
  let b := set_consecutiveSuccesses 0 b in
  let b := set_lastFailureTime None b in
  set_lastSuccessTime None b.

Definition open (now : Z) (b : Breaker) : Breaker :=
  set_lastFailureTime (Some now) (setState now OPEN b).

Definition isHealthy (b : Breaker) : bool :=
  match state b with
  | CLOSED | HALF_OPEN => true
  | OPEN => false
  end.

(** ** The wrapped operation and one call of [execute] *)

(** How the promise returned by [operation()] settles. *)
Inductive Settled (T : Type) : Type :=
| Resolved (value : T)
| Rejected (message : string).
Arguments Rejected {T} message.

(** What one call of [execute] meets: the clock when it is entered and, for
    the attempt with a given loop index, the way the operation settles, the
    clock at that moment and the random number drawn for the back-off. *)
Record Call (T : Type) : Type := {
  calledAt  : Z;
  settles   : nat -> Settled T;
  settledAt : nat -> Z;
  random    : nat -> Q
}.

(** What the call does to the outside, in order. *)
Inductive Effect : Set :=
| Invoke (attempt : nat)   (* [await operation()] *)
| Sleep (ms : Q).          (* [await this.sleep(delay)] *)

Definition is_Invoke (e : Effect) : bool :=
  match e with
  | Invoke _ => true
  | Sleep _ => false
  end.

Definition invocations (tr : list Effect) : nat :=
  List.length (filter is_Invoke tr).
Arguments invocations : simpl never.

Record CircuitBreakerResult (T : Type) : Type := {
  success      : bool;
  data         : option T;
  error        : option string;
  circuitState : CircuitState;
  retryAttempt : option Z
}.

Section Execute.
Variable T : Type.
Variable cfg : CircuitBreakerConfig.
Variable operationName : string.
Variable call : Call T.

Definition message_of (lastError : option string) : string :=
  match lastError with
  | Some m => m
  | None => "undefined"
  end.

(** The [for] loop of [executeWithRetries], [attempt] running from its
    current value to [maxRetries]; [remaining] counts the iterations left,
    [now] is the latest clock reading and [lastError] the message of the
    latest rejection. *)
Fixpoint retryLoop (remaining : nat) (attempt : nat) (now : Z)
    (lastError : option string) (b : Breaker)
    : CircuitBreakerResult T * Breaker * list Effect :=
  match remaining with
  | O =>
      (* All retries failed *)
      let b := onFailure cfg now b in
      ({| success := false;
          data := None;
          error := Some (operationName ++ " failed after "
                         ++ String_of_Z (maxRetries cfg + 1) ++ " attempts: "
                         ++ message_of lastError)%string;
          circuitState := state b;
          retryAttempt := Some (maxRetries cfg) |}, b, [])
  | S remaining' =>
      match settles call attempt with
      | Resolved result =>
          let b := onSuccess cfg (settledAt call attempt) b in
          ({| success := true;
              data := Some result;
              error := None;
              circuitState := state b;
              retryAttempt := Some (Z.of_nat attempt) |}, b, [Invoke attempt])
      | Rejected m =>
          (* Don't retry on the last attempt *)
          let pause :=
            if Z.of_nat attempt <? maxRetries cfg
            then [Sleep (calculateRetryDelay cfg attempt (random call attempt))]
            else [] in
          let '(r, b', tr) :=
            retryLoop remaining' (S attempt) (settledAt call attempt) (Some m) b in
          (r, b', Invoke attempt :: pause ++ tr)
      end
  end.

(** [attempt = 0; attempt <= maxRetries; attempt++] runs
    [maxRetries + 1] times, and not at all below zero. *)
Definition executeWithRetries (now : Z) (b : Breaker)
    : CircuitBreakerResult T * Breaker * list Effect :=
  retryLoop (Z.to_nat (maxRetries cfg + 1)) 0 now None b.

(** The block "Check if circuit is open" of [execute]: [None] when the call
    is blocked, otherwise the breaker with which the operation is run. *)
Definition checkOpen (now : Z) (b : Breaker) : option Breaker :=
  match state b with
  | OPEN =>
      if shouldAttemptReset cfg now b then Some (setState now HALF_OPEN b)
      else None
  | _ => Some b
  end.

Definition execute (b : Breaker)
    : CircuitBreakerResult T * Breaker * list Effect :=
  let b := set_totalCalls (totalCalls b + 1) b in
  match checkOpen (calledAt call) b with
  | None =>
      ({| success := false;
          data := None;
          error := Some ("Circuit breaker is OPEN for " ++ operationName
                         ++ ". Blocking operation.")%string;
          circuitState := state b;
          retryAttempt := None |}, b, [])
  | Some b => executeWithRetries (calledAt call) b
  end.

End Execute.

End DatabaseCircuitBreaker.

(* ================================================================== *)
(** * JavaScript values *)

(** The untyped data ([any]) that the query layer and the parser handle:
    what [JSON.parse] produces, with [undefined] for a missing property.
    Numbers are the integral ones. *)
Module JS.

#[local] Set Warnings "-register-all".

Inductive Value : Type :=
| Undefined
| Null
| Bool (b : bool)
| Number (n : Z)
| Str (s : string)
| Array (items : list Value)
| Object (fields : list (string * Value)).

(** [typeof v]. *)
Definition typeof (v : Value) : string :=
  match v with
  | Undefined => "undefined"
  | Null | Array _ | Object _ => "object"
  | Bool _ => "boolean"
  | Number _ => "number"
  | Str _ => "string"
  end.

(** The value counts as true in a condition. *)
Definition truthy (v : Value) : bool :=
  match v with
  | Undefined | Null => false
  | Bool b => b
  | Number n => negb (n =? 0)
  | Str s => negb (String.eqb s "")
  | Array _ | Object _ => true
  end.


Definition is_string (v : Value) : bool :=
  match v with
  | Str _ => true
  | _ => false
  end.

Fixpoint lookup (key : string) (fields : list (string * Value)) : Value :=
  match fields with
  | [] => Undefined
  | (k, v) :: rest => if String.eqb k key then v else lookup key rest
  end.

(** [v.key] for one of the property names the sources read ([id],
    [messages], [role], ...): none of them is an own property of an array.
    The sources only read properties of values they have checked to be
    objects. *)
Definition get (v : Value) (key : string) : Value :=
  match v with
  | Object fields => lookup key fields
  | _ => Undefined
  end.

(** [v === 'text']. *)
Definition strict_equal (v : Value) (text : string) : bool :=
  match v with
  | Str s => String.eqb s text
  | _ => false
  end.

(** [a || b]. *)
Definition or_else (a b : Value) : Value := if truthy a then a else b.

(** [Array.prototype.slice(start, end)] for integer arguments: a negative
    index counts from the end, and both are clamped to the array. *)
Definition relative_index (len k : Z) : Z :=
  if k <? 0 then Z.max (len + k) 0 else Z.min k len.

Definition slice {A} (l : list A) (start finish : Z) : list A :=
  let len := Z.of_nat (List.length l) in
  let from := relative_index len start in
  let to := relative_index len finish in
  firstn (Z.to_nat (Z.max (to - from) 0)) (skipn (Z.to_nat from) l).

(** What the platform provides and the sources call. *)
Class Runtime : Type := {
  (** [JSON.parse(text)]; [inr message] for a [SyntaxError]. *)
  JSON_parse : string -> Value + string;
  (** [JSON.stringify(v).length]. *)
  JSON_stringify_length : Value -> Z;
  (** [String(v)], as a template literal prints a value. *)
  String_ : Value -> string;
  (** [Date.parse(text)]; [None] for [NaN]. *)
  Date_parse : string -> option Z;
  (** The text [toISOString] gives for a time value in range. *)
  ISO_format : Z -> string;
  (** The time value of [new Date(v)]; [None] for an invalid date. *)
  Date_time : Value -> option Z;
  (** [dates.sort((a, b) => a.getTime() - b.getTime())] on time values. *)
  sort_dates : list (option Z) -> list (option Z)
}.

(** [new Date(n).toISOString()]: a [RangeError] outside the range of time
    values, 8.64e15 ms on either side of the epoch. *)
Definition toISOString `{Runtime} (n : Z) : string + string :=
  if Z.abs n <=? 8640000000000000 then inl (ISO_format n)
  else inr "Invalid time value"%string.

End JS.

(* ================================================================== *)
(** * SessionDataParser.ts *)

Module SessionDataParser.
Import JS.

Inductive Role : Set := user | assistant.

Record ChatMessage : Set := {
  role      : Role;
  content   : string;
  timestamp : option Z
}.

Record SessionMetadata : Set := {
  messageCount          : Z;
  totalCharacters       : Z;
  userMessageCount      : Z;
  assistantMessageCount : Z;
  firstMessageTimestamp : option Z;
  lastMessageTimestamp  : option Z
}.

Record ParsedSession : Set := {
  id           : string;
  messages     : list ChatMessage;
  customTitle  : option string;
  createdAt    : option string;
  lastModified : option string;
  metadata     : option SessionMetadata
}.

Record ParsingStats : Set := {
  totalSessions   : Z;
  validSessions   : Z;
  invalidSessions : Z;
  totalMessages   : Z;
  processingTime  : Z
}.

Record ParseResult : Set := {
  success  : bool;
  data     : option (list ParsedSession);
  error    : option string;
  warnings : option (list string);
  stats    : option ParsingStats
}.

(** The result objects of the private methods:
    [{ success; data?; error?; warnings? }]. *)
Record Partial (A : Type) : Type := {
  ok       : bool;
  value    : option A;
  problem  : option string;
  notes    : option (list string)
}.
Arguments Build_Partial {A}.

Record ValidationOptions : Set := {
  strictMode         : bool;
  allowEmptySessions : bool;
  validateTimestamps : bool;
  requireSessionId   : bool
}.

Definition DEFAULT_VALIDATION_OPTIONS : ValidationOptions := {|
  strictMode := true;
  allowEmptySessions := false;
  validateTimestamps := true;
  requireSessionId := true
|}.

(** [warnings.length > 0 ? warnings : undefined]. *)
Definition some_if_any (warnings : list string) : option (list string) :=
  match warnings with
  | [] => None
  | _ => Some warnings
  end.

(** [warnings || []]. *)
Definition or_empty (warnings : option (list string)) : list string :=
  match warnings with
  | Some w => w
  | None => []
  end.

(** [`${error}`] and [error || fallback] for an optional message. *)
Definition print_optional (m : option string) : string :=
  match m with
  | Some s => s
  | None => "undefined"
  end.

Definition message_or (m : option string) (fallback : string) : string :=
  match m with
  | Some s => if String.eqb s "" then fallback else s
  | None => fallback
  end.

Section Parser.
Context `{Runtime}.
Variable validationOptions : ValidationOptions.
(** The reading of [Date.now()] during the (synchronous) parse. *)
Variable now : Z.

(** The block "Parse timestamp" of [parseIndividualMessage]: the
    timestamp, if any, and the warnings. *)
Definition parseMessageTimestamp (raw : Value) : option Z * list string :=
  match raw with
  | Undefined => (None, [])
  | Number n => (Some n, [])
  | Str text =>
      match Date_parse text with
      | Some parsed => (Some parsed, [])
      | None => (None, [("Invalid timestamp format: " ++ String_ raw)%string])
      end
  | _ => (None, [("Timestamp is not a number or string: " ++ typeof raw)%string])
  end.

(** The block "Validate timestamp if required": plausibility only adds
    warnings. *)
Definition validateMessageTimestamp (timestamp : option Z)
    (warnings : list string) : list string :=
  match timestamp with
  | Some t =>
      if validateTimestamps validationOptions then
        let oneYearAgo := now - (365 * 24 * 60 * 60 * 1000) in
        if now <? t then warnings ++ ["Timestamp is in the future"]
        else if t <? oneYearAgo
             then warnings ++ ["Timestamp is older than one year"]
             else warnings
      else warnings
  | None => warnings
  end.

(** [parseIndividualMessage]. *)
Definition parseIndividualMessage (messageData : Value) (index : nat)
    : Partial ChatMessage :=
  let warnings : list string := [] in
  if negb (truthy messageData)
     || negb (String.eqb (typeof messageData) "object") then
    Build_Partial false None (Some "Message data is not an object") (Some warnings)
  else
    (* Validate role *)
    let role := get messageData "role" in
    if negb (truthy role)
       || (negb (strict_equal role "user")
           && negb (strict_equal role "assistant")) then
      Build_Partial false None
        (Some ("Invalid or missing role: " ++ String_ role)%string)
        (Some warnings)
    else
      (* Validate content *)
      match get messageData "content" with
      | Str content =>
          let parsed := parseMessageTimestamp (get messageData "timestamp") in
          let timestamp := fst parsed in
          let warnings := validateMessageTimestamp timestamp (snd parsed) in
          Build_Partial true
            (Some {| role := if strict_equal role "user" then user else assistant;
                     content := content;
                     timestamp := timestamp |})
            None (some_if_any warnings)
      | _ =>
          Build_Partial false None (Some "Message content must be a string")
            (Some warnings)
      end.

(** The loop of [parseMessages] from index [i] on. *)
Fixpoint parseMessagesFrom (messagesData : list Value) (i : nat)
    (parsedMessages : list ChatMessage) (warnings : list string)
    : Partial (list ChatMessage) :=
  match messagesData with
  | [] => Build_Partial true (Some parsedMessages) None (some_if_any warnings)
  | messageData :: rest =>
      let messageResult := parseIndividualMessage messageData i in
      match ok messageResult, value messageResult with
      | true, Some m =>
          parseMessagesFrom rest (S i) (parsedMessages ++ [m]) warnings
      | _, _ =>
          if strictMode validationOptions then
            Build_Partial false None
              (Some (message_or (problem messageResult)
                       ("Invalid message at index "
                        ++ String_of_Z (Z.of_nat i))%string))
              (Some (warnings ++ or_empty (notes messageResult)))
          else
            (* Skip invalid messages in non-strict mode *)
            let warnings := warnings ++ or_empty (notes messageResult) in
            let warnings := warnings ++
              [("Skipped invalid message at index " ++ String_of_Z (Z.of_nat i)
                ++ ": " ++ print_optional (problem messageResult))%string] in
            parseMessagesFrom rest (S i) parsedMessages warnings
      end
  end.

(** [parseMessages]. *)
Definition parseMessages (messagesData : Value) : Partial (list ChatMessage) :=
  match messagesData with
  | Array items => parseMessagesFrom items 0 [] []
  | _ => Build_Partial false None (Some "Messages data is not an array") (Some [])
  end.

(** A property that holds a non-empty text:
    [v && typeof v === 'string']. *)
Definition text_of (v : Value) : option string :=
  match v with
  | Str s => if String.eqb s "" then None else Some s
  | _ => None
  end.

(** [extractSessionId]; [None] is [null]. *)
Definition extractSessionId (sessionData : Value) (index : nat) : option string :=
  match text_of (get sessionData "id") with
  | Some s => Some s
  | None =>
      match text_of (get sessionData "sessionId") with
      | Some s => Some s
      | None =>
          (* Generate ID if none found and not in strict mode *)
          if negb (requireSessionId validationOptions)
          then Some ("generated_session_" ++ String_of_Z (Z.of_nat index)
                     ++ "_" ++ String_of_Z now)%string
          else None
      end
  end.

(** [extractCustomTitle]. *)
Definition extractCustomTitle (sessionData : Value) : option string :=
  match text_of (get sessionData "customTitle") with
  | Some s => Some s
  | None => text_of (get sessionData "title")
  end.

(** One field of [parseTimestamps]: a text is kept, a number goes through
    [new Date(n).toISOString()], which can throw. *)
Definition parseTimestampField (v : Value) : option string + string :=
  if truthy v then
    match v with
    | Str s => inl (Some s)
    | Number n =>
        match toISOString n with
        | inl text => inl (Some text)
        | inr thrown => inr thrown
        end
    | _ => inl None
    end
  else inl None.

(** [parseTimestamps]; [inr message] when it throws. *)
Definition parseTimestamps (sessionData : Value)
    : (option string * option string) + string :=
  match parseTimestampField (get sessionData "createdAt") with
  | inr thrown => inr thrown
  | inl createdAt =>
      match parseTimestampField (get sessionData "lastModified") with
      | inr thrown => inr thrown
      | inl lastModified => inl (createdAt, lastModified)
      end
  end.

(** An optional number that counts as false: [undefined] or [0]. *)
Definition no_time (t : option Z) : bool :=
  match t with
  | None => true
  | Some v => v =? 0
  end.

(** The body of the loop of [calculateSessionMetadata]. *)
Definition countMessage (acc : SessionMetadata) (message : ChatMessage)
    : SessionMetadata :=
  let first :=
    match timestamp message with
    | Some t =>
        if t =? 0 then firstMessageTimestamp acc
        else if no_time (firstMessageTimestamp acc) then Some t
        else match firstMessageTimestamp acc with
             | Some f => if t <? f then Some t else Some f
             | None => Some t
             end
    | None => firstMessageTimestamp acc
    end in
  let last :=
    match timestamp message with
    | Some t =>
        if t =? 0 then lastMessageTimestamp acc
        else if no_time (lastMessageTimestamp acc) then Some t
        else match lastMessageTimestamp acc with
             | Some l => if l <? t then Some t else Some l
             | None => Some t
             end
    | None => lastMessageTimestamp acc
    end in
  {| messageCount := messageCount acc;
     totalCharacters :=
       totalCharacters acc + Z.of_nat (String.length (content message));
     userMessageCount :=
       match role message with
       | user => userMessageCount acc + 1
       | assistant => userMessageCount acc
       end;
     assistantMessageCount :=
       match role message with
       | user => assistantMessageCount acc
       | assistant => assistantMessageCount acc + 1
       end;
     firstMessageTimestamp := first;
     lastMessageTimestamp := last |}.

(** [calculateSessionMetadata]. *)
Definition calculateSessionMetadata (messages : list ChatMessage)
    : SessionMetadata :=
  fold_left countMessage messages
    {| messageCount := Z.of_nat (List.length messages);
       totalCharacters := 0; userMessageCount := 0;
       assistantMessageCount := 0;
       firstMessageTimestamp := None; lastMessageTimestamp := None |}.

(** [parseIndividualSession]. *)
Definition parseIndividualSession (sessionData : Value) (index : nat)
    : Partial ParsedSession :=
  let warnings : list string := [] in
  (* Validate session structure *)
  if negb (truthy sessionData)
     || negb (String.eqb (typeof sessionData) "object") then
    Build_Partial false None (Some "Session data is not an object") (Some warnings)
  else
    (* Extract session ID *)
    let sessionId := extractSessionId sessionData index in
    if requireSessionId validationOptions
       && match sessionId with Some s => String.eqb s "" | None => true end then
      Build_Partial false None (Some "Session ID is required but not found")
        (Some warnings)
    else
      (* Parse messages *)
      let messagesResult :=
        parseMessages (or_else (get sessionData "messages") (Array [])) in
      match ok messagesResult, value messagesResult with
      | true, Some parsed =>
          (* Validate empty sessions *)
          if negb (allowEmptySessions validationOptions)
             && (List.length parsed =? 0)%nat then
            Build_Partial false None (Some "Empty sessions are not allowed")
              (Some warnings)
          else
            (* Parse timestamps *)
            match parseTimestamps sessionData with
            | inr thrown =>
                Build_Partial false None
                  (Some ("Failed to parse session: " ++ thrown)%string)
                  (Some warnings)
            | inl (createdAt, lastModified) =>
                (* Calculate metadata *)
                let metadata := calculateSessionMetadata parsed in
                let parsedSession := {|
                  id := message_or sessionId
                          ("session_" ++ String_of_Z (Z.of_nat index))%string;
                  messages := parsed;
                  customTitle := extractCustomTitle sessionData;
                  createdAt := createdAt;
                  lastModified := lastModified;
                  metadata := Some metadata |} in
                Build_Partial true (Some parsedSession) None
                  (some_if_any warnings)
            end
      | _, _ =>
          Build_Partial false None (problem messagesResult)
            (Some (warnings ++ or_empty (notes messagesResult)))
      end.

Definition createEmptyStats (processingTime : Z) : ParsingStats := {|
  totalSessions := 0; validSessions := 0; invalidSessions := 0;
  totalMessages := 0; processingTime := processingTime
|}.

(** The loop "Parse each session" of [parseSessionData] from index [i]. *)
Fixpoint parseSessionsFrom (sessionsArray : list Value) (i : nat)
    (parsedSessions : list ParsedSession) (invalidSessionCount : Z)
    (warnings : list string)
    : list ParsedSession * Z * list string :=
  match sessionsArray with
  | [] => (parsedSessions, invalidSessionCount, warnings)
  | sessionData :: rest =>
      let sessionResult := parseIndividualSession sessionData i in
      match ok sessionResult, value sessionResult with
      | true, Some session =>
          parseSessionsFrom rest (S i) (parsedSessions ++ [session])
            invalidSessionCount warnings
      | _, _ =>
          let warnings := warnings ++ or_empty (notes sessionResult) in
          let warnings :=
            match problem sessionResult with
            | Some e =>
                if String.eqb e "" then warnings
                else warnings ++
                  [("Session " ++ String_of_Z (Z.of_nat i) ++ ": " ++ e)%string]
            | None => warnings
            end in
          parseSessionsFrom rest (S i) parsedSessions
            (invalidSessionCount + 1) warnings
      end
  end.

(** [parseSessionData]; [startTime] is the clock when it is entered. *)
Definition parseSessionData (startTime : Z) (rawData : Value) : ParseResult :=
  (* Validate input *)
  if negb (truthy rawData) then
    {| success := false; data := None;
       error := Some "No data provided for parsing"%string;
       warnings := Some [];
       stats := Some (createEmptyStats (now - startTime)) |}
  else
    (* Ensure data is an array *)
    let shaped : option (list Value * list string) :=
      match rawData with
      | Array items => Some (items, [])
      | _ =>
          if String.eqb (typeof rawData) "object"
          then Some ([rawData], ["Single session object converted to array"%string])
          else None
      end in
    match shaped with
    | None =>
        {| success := false; data := None;
           error := Some "Raw data is not in expected format (array or object)"%string;
           warnings := Some [];
           stats := Some (createEmptyStats (now - startTime)) |}
    | Some (sessionsArray, warnings) =>
        (* Parse each session *)
        let '(parsedSessions, invalidSessionCount, warnings) :=
          parseSessionsFrom sessionsArray 0 [] 0 warnings in
        (* Calculate stats *)
        let totalMessages :=
          fold_left (fun sum session =>
                       sum + Z.of_nat (List.length (messages session)))
                    parsedSessions 0 in
        let stats := {|
          totalSessions := Z.of_nat (List.length sessionsArray);
          validSessions := Z.of_nat (List.length parsedSessions);
          invalidSessions := invalidSessionCount;
          totalMessages := totalMessages;
          processingTime := now - startTime |} in
        (* Determine overall success *)
        let success := (0 <? List.length parsedSessions)%nat in
        {| success := success;
           data := Some parsedSessions;
           error := if success then None
                    else Some "No valid sessions could be parsed"%string;
           warnings := some_if_any warnings;
           stats := Some stats |}
    end.

End Parser.

End SessionDataParser.

(* ================================================================== *)
(** * The embedded store, as the query engine uses it *)

(** [better-sqlite3] seen through the two calls the engine makes:
    [database.prepare] of the one SELECT on [ItemTable] and
    [statement.get(key)].  A statement belongs to the connection that
    prepared it and reads what that connection shows when it is run. *)
Module Sqlite.

Definition Handle : Set := nat.

(** What a connection shows: whether it is still open and, when the file
    has the table, the rows of [ItemTable] as (key, value) pairs, a value
    being NULL or a text. *)
Record Content : Set := {
  isOpen    : bool;
  ItemTable : option (list (string * option string))
}.

Definition Files : Set := Handle -> Content.

Record Statement : Set := { owner : Handle }.

Definition prepare (files : Files) (database : Handle) : Statement + string :=
  if negb (isOpen (files database))
  then inr "The database connection is not open"
  else match ItemTable (files database) with
       | None => inr "no such table: ItemTable"
       | Some _ => inl {| owner := database |}
       end.

Fixpoint first_row (key : string) (rows : list (string * option string))
    : option (option string) :=
  match rows with
  | [] => None
  | (k, v) :: rest => if String.eqb k key then Some v else first_row key rest
  end.

(** [statement.get(key)]: the first matching row's [value] column, [None]
    when no row matches; [inr message] when it throws. *)
Definition statement_get (files : Files) (statement : Statement) (key : string)
    : option (option string) + string :=
  if negb (isOpen (files (owner statement)))
  then inr "The database connection is not open"
  else match ItemTable (files (owner statement)) with
       | None => inr "no such table: ItemTable"
       | Some rows => inl (first_row key rows)
       end.

(** What [DatabaseConnectionManager.getCurrentWorkspaceConnection]
    returns. *)
Record ConnectionResult : Set := {
  success  : bool;
  database : option Handle;
  error    : option string
}.

End Sqlite.

(* ================================================================== *)
(** * JavaScript maps with string keys *)

Module JSMap.

Section Maps.
Variable V : Type.

Fixpoint Map_get (key : string) (m : list (string * V)) : option V :=
  match m with
  | [] => None
  | (k, v) :: rest => if String.eqb k key then Some v else Map_get key rest
  end.

Fixpoint Map_set (key : string) (v : V) (m : list (string * V))
    : list (string * V) :=
  match m with
  | [] => [(key, v)]
  | (k, w) :: rest =>
      if String.eqb k key then (k, v) :: rest else (k, w) :: Map_set key v rest
  end.

Fixpoint Map_delete (key : string) (m : list (string * V))
    : list (string * V) :=
  match m with
  | [] => []
  | (k, w) :: rest =>
      if String.eqb k key then Map_delete key rest
      else (k, w) :: Map_delete key rest
  end.

End Maps.

End JSMap.

(* ================================================================== *)
(** * DatabaseConnectionManager.ts *)

Module DatabaseConnectionManager.
Import JSMap.

(** 30 seconds between retry attempts. *)
Definition RETRY_DELAY : Z := 30000.

(** The instance: the pool and the time of the last failed attempt, both
    by database path. *)
Record Manager : Set := {
  activeConnections     : list (string * Sqlite.Handle);
  lastConnectionAttempt : list (string * Z)
}.

Definition newManager : Manager :=
  {| activeConnections := []; lastConnectionAttempt := [] |}.

(** What [fs] shows of a path: [stat] and the read of the first bytes may
    throw. *)
Record Stats : Set := {
  isFile : bool;
  size   : Z;
  mtime  : Z
}.

Record File : Set := {
  existsSync : bool;
  stat       : Stats + string;
  readable   : bool;            (* [access(path, R_OK)] resolves *)
  header     : string + string  (* the first 15 bytes, as ASCII *)
}.

Record DatabaseInfo : Set := {
  path         : string;
  info_size    : Z;
  lastModified : Z;
  isAccessible : bool
}.

(** What a call meets outside the manager. *)
Record World : Set := {
  fs                : string -> File;
  (** [new Database(path, config)]; [inr message] when it throws. *)
  construct         : string -> Sqlite.Handle + string;
  (** The pragmas and the test query on a new connection: the message of
      what they throw, if they do. *)
  connectionTest    : Sqlite.Handle -> option string;
  (** [isConnectionValid]: [SELECT 1] runs on the connection. *)
  isConnectionValid : Sqlite.Handle -> bool
}.

(** What the manager does to the outside, in order. *)
Inductive Event : Set :=
| Validated (databasePath : string)
| Opened (databasePath : string) (database : Sqlite.Handle)
| Closed (database : Sqlite.Handle).

(** [validateDatabaseFile]. *)
Definition validateDatabaseFile (world : World) (databasePath : string)
    : DatabaseInfo :=
  let inaccessible :=
    {| path := databasePath; info_size := 0; lastModified := 0;
       isAccessible := false |} in
  let file := fs world databasePath in
  (* Check if file exists *)
  if negb (existsSync file) then inaccessible
  else
    (* Get file stats *)
    match stat file with
    | inr _ => inaccessible
    | inl stats =>
        if negb (isFile stats) then inaccessible
        else
          (* Check read permissions *)
          if negb (readable file) then
            {| path := databasePath; info_size := size stats;
               lastModified := mtime stats; isAccessible := false |}
          else
            (* Validate SQLite format *)
            match header file with
            | inr _ => inaccessible
            | inl text =>
                {| path := databasePath; info_size := size stats;
                   lastModified := mtime stats;
                   isAccessible := String.eqb text "SQLite format 3" |}
            end
    end.

(** [closeConnection]. *)
Definition closeConnection (databasePath : string) (m : Manager)
    : Manager * list Event :=
  match Map_get databasePath (activeConnections m) with
  | Some connection =>
      ({| activeConnections := Map_delete databasePath (activeConnections m);
          lastConnectionAttempt := lastConnectionAttempt m |},
       [Closed connection])
  | None => (m, [])
  end.

(** The loop of [closeAllConnections] over the paths. *)
Fixpoint closeConnections (paths : list string) (m : Manager)
    : Manager * list Event :=
  match paths with
  | [] => (m, [])
  | databasePath :: rest =>
      let '(m, closed) := closeConnection databasePath m in
      let '(m, more) := closeConnections rest m in
      (m, closed ++ more)
  end.

(** [closeAllConnections]. *)
Definition closeAllConnections (m : Manager) : Manager * list Event :=
  closeConnections (map fst (activeConnections m)) m.

(** [dispose]. *)
Definition dispose (m : Manager) : Manager * list Event :=
  let '(m, closed) := closeAllConnections m in
  ({| activeConnections := activeConnections m;
      lastConnectionAttempt := [] |}, closed).

(** [getConnection]; [now] is the clock when the call is entered and
    [later] the clock when an attempt has failed. *)
Definition getConnection (world : World) (databasePath : string)
    (now later : Z) (m : Manager)
    : Sqlite.ConnectionResult * Manager * list Event :=
  (* Check if we should retry (avoid spam) *)
  let tooSoon :=
    match Map_get databasePath (lastConnectionAttempt m) with
    | Some lastAttempt =>
        negb (lastAttempt =? 0) && (now - lastAttempt <? RETRY_DELAY)
    | None => false
    end in
  if tooSoon then
    ({| Sqlite.success := false; Sqlite.database := None;
        Sqlite.error := Some ("Too many recent connection attempts for "
                              ++ databasePath ++ ". Please wait.")%string |},
     m, [])
  else
    (* Check if connection already exists and is still valid *)
    let pooled :=
      match Map_get databasePath (activeConnections m) with
      | Some existingConnection =>
          if isConnectionValid world existingConnection
          then inl existingConnection
          else
            (* Clean up invalid connection *)
            inr (closeConnection databasePath m)
      | None => inr (m, [])
      end in
    match pooled with
    | inl existingConnection =>
        ({| Sqlite.success := true;
            Sqlite.database := Some existingConnection;
            Sqlite.error := None |}, m, [])
    | inr (m, closed) =>
        let failed (m : Manager) : Manager :=
          {| activeConnections := activeConnections m;
             lastConnectionAttempt :=
               Map_set databasePath later (lastConnectionAttempt m) |} in
        (* Validate database file before attempting connection *)
        let validation := validateDatabaseFile world databasePath in
        if negb (isAccessible validation) then
          ({| Sqlite.success := false; Sqlite.database := None;
              Sqlite.error := Some ("Database file is not accessible: "
                                    ++ databasePath)%string |},
           failed m, closed ++ [Validated databasePath])
        else
          (* Create new connection *)
          match construct world databasePath with
          | inr thrown =>
              ({| Sqlite.success := false; Sqlite.database := None;
                  Sqlite.error :=
                    Some ("Failed to establish database connection: "
                          ++ thrown)%string |},
               failed m, closed ++ [Validated databasePath])
          | inl database =>
              (* Test the connection *)
              match connectionTest world database with
              | Some thrown =>
                  (* Clean up failed connection *)
                  ({| Sqlite.success := false; Sqlite.database := None;
                      Sqlite.error :=
                        Some ("Database connection test failed: "
                              ++ thrown)%string |},
                   failed m,
                   closed ++ [Validated databasePath;
                              Opened databasePath database; Closed database])
              | None =>
                  (* Store the connection *)
                  ({| Sqlite.success := true;
                      Sqlite.database := Some database;
                      Sqlite.error := None |},
                   {| activeConnections :=
                        Map_set databasePath database (activeConnections m);
                      lastConnectionAttempt := lastConnectionAttempt m |},
                   closed ++ [Validated databasePath;
                              Opened databasePath database])
              end
          end
    end.

End DatabaseConnectionManager.

(* ================================================================== *)
(** * SessionQueryEngine.ts *)

Module SessionQueryEngine.
Import JS.

Definition INTERACTIVE_SESSIONS_KEY : string := "interactive.sessions".

Record SessionMetadata : Set := {
  totalSessions : Z;
  latestSession : option (option Z);
  oldestSession : option (option Z);
  totalSize     : Z
}.

Record QueryOptions : Set := {
  limit           : option Z;
  offset          : option Z;
  includeMetadata : bool
}.

(** [getInteractiveSessions()] without an argument: [options = {}]. *)
Definition no_options : QueryOptions :=
  {| limit := None; offset := None; includeMetadata := false |}.

(** The result of [queryInteractiveSessionsRaw]. *)
Record RawResult : Type := {
  raw_success : bool;
  raw_data    : option (list Value);
  raw_error   : option string
}.

Record Pagination : Set := {
  page_offset : Z;
  page_limit  : Z;
  total       : Z
}.

Record SessionsData : Type := {
  sessions   : list Value;
  metadata   : option SessionMetadata;
  pagination : Pagination
}.

(** [SessionQueryResult] of [getInteractiveSessions]. *)
Record SessionQueryResult : Type := {
  success       : bool;
  data          : option SessionsData;
  error         : option string;
  executionTime : option Z
}.

(** The instance: the map of prepared statements. *)
Record Engine : Set := {
  preparedStatements : list (string * Sqlite.Statement)
}.

Definition newEngine : Engine := {| preparedStatements := [] |}.

Fixpoint Map_get (key : string) (m : list (string * Sqlite.Statement))
    : option Sqlite.Statement :=
  match m with
  | [] => None
  | (k, v) :: rest => if String.eqb k key then Some v else Map_get key rest
  end.

Fixpoint Map_set (key : string) (v : Sqlite.Statement)
    (m : list (string * Sqlite.Statement)) : list (string * Sqlite.Statement) :=
  match m with
  | [] => [(key, v)]
  | (k, w) :: rest =>
      if String.eqb k key then (k, v) :: rest else (k, w) :: Map_set key v rest
  end.

(** [n || fallback] for an optional number. *)
Definition number_or (n : option Z) (fallback : Z) : Z :=
  match n with
  | Some v => if v =? 0 then fallback else v
  | None => fallback
  end.

Definition number_truthy (n : option Z) : bool :=
  match n with
  | Some v => negb (v =? 0)
  | None => false
  end.

(** [clearStatementCache], which is also [dispose]. *)
Definition clearStatementCache (e : Engine) : Engine :=
  {| preparedStatements := [] |}.

Definition dispose (e : Engine) : Engine := clearStatementCache e.

Section Engine.
Context `{Runtime}.
Variable files : Sqlite.Files.

(** [queryInteractiveSessionsRaw]; every [statement.get] that is run is
    logged as the handle it ran on. *)
Definition queryInteractiveSessionsRaw (database : Sqlite.Handle) (e : Engine)
    : RawResult * Engine * list Sqlite.Handle :=
  (* Get or create prepared statement *)
  let statementKey := "get_interactive_sessions"%string in
  let prepared : (Sqlite.Statement * Engine) + string :=
    match Map_get statementKey (preparedStatements e) with
    | Some statement => inl (statement, e)
    | None =>
        match Sqlite.prepare files database with
        | inl statement =>
            inl (statement,
                 {| preparedStatements :=
                      Map_set statementKey statement (preparedStatements e) |})
        | inr thrown => inr thrown
        end
    end in
  match prepared with
  | inr thrown =>
      ({| raw_success := false; raw_data := None;
          raw_error := Some ("Database query failed: " ++ thrown)%string |},
       e, [])
  | inl (statement, e) =>
      (* Execute query *)
      match Sqlite.statement_get files statement INTERACTIVE_SESSIONS_KEY with
      | inr thrown =>
          ({| raw_success := false; raw_data := None;
              raw_error := Some ("Database query failed: " ++ thrown)%string |},
           e, [Sqlite.owner statement])
      | inl result =>
          let text :=
            match result with
            | Some (Some v) => if String.eqb v "" then None else Some v
            | _ => None
            end in
          match text with
          | None =>
              (* No sessions found, return empty array *)
              ({| raw_success := true; raw_data := Some []; raw_error := None |},
               e, [Sqlite.owner statement])
          | Some v =>
              (* Parse JSON data *)
              match JSON_parse v with
              | inl (Array items) =>
                  ({| raw_success := true; raw_data := Some items;
                      raw_error := None |}, e, [Sqlite.owner statement])
              | inl _ =>
                  ({| raw_success := false; raw_data := None;
                      raw_error := Some
                        "Interactive sessions data is not in expected array format"%string |},
                   e, [Sqlite.owner statement])
              | inr parseError =>
                  ({| raw_success := false; raw_data := None;
                      raw_error := Some ("Failed to parse session JSON data: "
                                         ++ parseError)%string |},
                   e, [Sqlite.owner statement])
              end
          end
      end
  end.

(** The loop of [calculateSessionMetadata]: the sizes add up and the
    creation dates are collected; reading [createdAt] of [null] or
    [undefined] throws. *)
Fixpoint measureSessions (sessions : list Value) (dates : list (option Z))
    (totalSize : Z) : (list (option Z) * Z) + string :=
  match sessions with
  | [] => inl (dates, totalSize)
  | session :: rest =>
      let totalSize := totalSize + JSON_stringify_length session in
      match session with
      | Null =>
          inr "Cannot read properties of null (reading 'createdAt')"%string
      | Undefined =>
          inr "Cannot read properties of undefined (reading 'length')"%string
      | _ =>
          let createdAt := get session "createdAt" in
          let dates :=
            if truthy createdAt then dates ++ [Date_time createdAt] else dates in
          measureSessions rest dates totalSize
      end
  end.

(** [calculateSessionMetadata]. *)
Definition calculateSessionMetadata (sessions : list Value)
    : SessionMetadata + string :=
  match sessions with
  | [] => inl {| totalSessions := 0; latestSession := None;
                 oldestSession := None; totalSize := 0 |}
  | _ =>
      match measureSessions sessions [] 0 with
      | inr thrown => inr thrown
      | inl (dates, totalSize) =>
          (* Sort dates for min/max calculation *)
          let dates := sort_dates dates in
          inl {| totalSessions := Z.of_nat (List.length sessions);
                 latestSession := List.last (map Some dates) None;
                 oldestSession := List.hd None (map Some dates);
                 totalSize := totalSize |}
      end
  end.

(** The block "Apply pagination if specified" of
    [getInteractiveSessions]. *)
Definition paginate (options : QueryOptions) (processedData : list Value)
    : list Value :=
  if number_truthy (offset options) || number_truthy (limit options) then
    let offset := number_or (offset options) 0 in
    let limit := number_or (limit options)
                   (Z.of_nat (List.length processedData)) in
    slice processedData offset (offset + limit)
  else processedData.

(** [getInteractiveSessions]: [connectionResult] is what the connection
    manager returns, [startTime] and [now] are the clock on entry and on
    return. *)
Definition getInteractiveSessions (connectionResult : Sqlite.ConnectionResult)
    (startTime now : Z) (options : QueryOptions) (e : Engine)
    : SessionQueryResult * Engine * list Sqlite.Handle :=
  match (if Sqlite.success connectionResult
         then Sqlite.database connectionResult else None) with
  | None =>
      ({| success := false; data := None;
          error := Some (SessionDataParser.message_or
                           (Sqlite.error connectionResult)
                           "Failed to establish database connection");
          executionTime := Some (now - startTime) |}, e, [])
  | Some database =>
      let '(rawData, e, reads) := queryInteractiveSessionsRaw database e in
      match raw_success rawData, raw_data rawData with
      | true, Some fetched =>
          (* Apply pagination if specified *)
          let processedData := paginate options fetched in
          (* Include metadata if requested *)
          let computed : option SessionMetadata + string :=
            if includeMetadata options then
              match calculateSessionMetadata fetched with
              | inl m => inl (Some m)
              | inr thrown => inr thrown
              end
            else inl None in
          match computed with
          | inr thrown =>
              ({| success := false; data := None;
                  error := Some ("Query execution failed: " ++ thrown)%string;
                  executionTime := Some (now - startTime) |}, e, reads)
          | inl metadata =>
              ({| success := true;
                  data := Some {|
                    sessions := processedData;
                    metadata := metadata;
                    pagination := {|
                      page_offset := number_or (offset options) 0;
                      page_limit := number_or (limit options)
                                      (Z.of_nat (List.length processedData));
                      total := Z.of_nat (List.length fetched) |} |};
                  error := None;
                  executionTime := Some (now - startTime) |}, e, reads)
          end
      | _, _ =>
          ({| success := false; data := None;
              error := raw_error rawData;
              executionTime := Some (now - startTime) |}, e, reads)
      end
  end.

(** [sessions.find(s => s.id === sessionId)]; reading [id] of [null] or
    [undefined] throws. *)
Fixpoint find_by_id (sessionId : string) (sessions : list Value)
    : option Value + string :=
  match sessions with
  | [] => inl None
  | Null :: _ => inr "Cannot read properties of null (reading 'id')"%string
  | Undefined :: _ =>
      inr "Cannot read properties of undefined (reading 'id')"%string
  | s :: rest =>
      if strict_equal (get s "id") sessionId then inl (Some s)
      else find_by_id sessionId rest
  end.

(** The result of [getSessionById]: [data] is the session. *)
Record SessionResult : Type := {
  found_success : bool;
  found_data    : option Value;
  found_error   : option string;
  found_time    : option Z
}.

(** [getSessionById]. *)
Definition getSessionById (connectionResult : Sqlite.ConnectionResult)
    (startTime now : Z) (sessionId : string) (e : Engine)
    : SessionResult * Engine * list Sqlite.Handle :=
  let '(allSessionsResult, e, reads) :=
    getInteractiveSessions connectionResult startTime now no_options e in
  if negb (success allSessionsResult) then
    ({| found_success := false; found_data := None;
        found_error := error allSessionsResult;
        found_time := Some (now - startTime) |}, e, reads)
  else
    let sessions :=
      match data allSessionsResult with
      | Some d => sessions d
      | None => []
      end in
    match find_by_id sessionId sessions with
    | inr thrown =>
        ({| found_success := false; found_data := None;
            found_error := Some ("Failed to retrieve session: " ++ thrown)%string;
            found_time := Some (now - startTime) |}, e, reads)
    | inl None =>
        ({| found_success := false; found_data := None;
            found_error := Some ("Session with ID " ++ sessionId
                                 ++ " not found")%string;
            found_time := Some (now - startTime) |}, e, reads)
    | inl (Some session) =>
        if negb (truthy session) then
          ({| found_success := false; found_data := None;
              found_error := Some ("Session with ID " ++ sessionId
                                   ++ " not found")%string;
              found_time := Some (now - startTime) |}, e, reads)
        else
          ({| found_success := true; found_data := Some session;
              found_error := None;
              found_time := Some (now - startTime) |}, e, reads)
    end.

(** The callback of the filter in [getSessionsSince]: [sinceDate] is the
    time value of the date, [None] for an invalid date, with which every
    comparison is false. *)
Definition created_since (sinceDate : option Z) (session : Value) : bool :=
  if negb (truthy (get session "createdAt")) then false
  else match Date_time (get session "createdAt"), sinceDate with
       | Some created, Some since => since <=? created
       | _, _ => false
       end.

(** [sessions.filter(...)] with that callback; reading [createdAt] of
    [null] or [undefined] throws. *)
Fixpoint filter_since (sinceDate : option Z) (sessions : list Value)
    : list Value + string :=
  match sessions with
  | [] => inl []
  | Null :: _ =>
      inr "Cannot read properties of null (reading 'createdAt')"%string
  | Undefined :: _ =>
      inr "Cannot read properties of undefined (reading 'createdAt')"%string
  | s :: rest =>
      match filter_since sinceDate rest with
      | inr thrown => inr thrown
      | inl kept => inl (if created_since sinceDate s then s :: kept else kept)
      end
  end.

Record SinceFilter : Set := {
  sinceDate_text : string;
  matchCount     : Z;
  totalCount     : Z
}.

Record SinceData : Type := {
  since_sessions : list Value;
  since_metadata : SessionMetadata;
  since_filter   : SinceFilter
}.

Record SinceResult : Type := {
  since_success : bool;
  since_data    : option SinceData;
  since_error   : option string;
  since_time    : option Z
}.

(** [getSessionsSince]. *)
Definition getSessionsSince (connectionResult : Sqlite.ConnectionResult)
    (startTime now : Z) (sinceDate : option Z) (e : Engine)
    : SinceResult * Engine * list Sqlite.Handle :=
  let '(allSessionsResult, e, reads) :=
    getInteractiveSessions connectionResult startTime now no_options e in
  if negb (success allSessionsResult) then
    ({| since_success := false; since_data := None;
        since_error := error allSessionsResult;
        since_time := Some (now - startTime) |}, e, reads)
  else
    let sessions :=
      match data allSessionsResult with
      | Some d => sessions d
      | None => []
      end in
    let built : SinceData + string :=
      match filter_since sinceDate sessions with
      | inr thrown => inr thrown
      | inl filteredSessions =>
          match calculateSessionMetadata filteredSessions with
          | inr thrown => inr thrown
          | inl metadata =>
              match (match sinceDate with
                     | Some t => toISOString t
                     | None => inr "Invalid time value"%string
                     end) with
              | inr thrown => inr thrown
              | inl text =>
                  inl {| since_sessions := filteredSessions;
                         since_metadata := metadata;
                         since_filter := {|
                           sinceDate_text := text;
                           matchCount :=
                             Z.of_nat (List.length filteredSessions);
                           totalCount := Z.of_nat (List.length sessions) |} |}
              end
          end
      end in
    match built with
    | inr thrown =>
        ({| since_success := false; since_data := None;
            since_error := Some ("Failed to filter sessions: " ++ thrown)%string;
            since_time := Some (now - startTime) |}, e, reads)
    | inl d =>
        ({| since_success := true; since_data := Some d; since_error := None;
            since_time := Some (now - startTime) |}, e, reads)
    end.

(** The result of [getSessionMetadata]: [data] is the metadata, [{}] when
    there is none. *)
Record MetadataResult : Set := {
  meta_success : bool;
  meta_data    : option (option SessionMetadata);
  meta_error   : option string;
  meta_time    : option Z
}.

(** [getSessionMetadata]. *)
Definition getSessionMetadata (connectionResult : Sqlite.ConnectionResult)
    (startTime now : Z) (e : Engine)
    : MetadataResult * Engine * list Sqlite.Handle :=
  let '(result, e, reads) :=
    getInteractiveSessions connectionResult startTime now
      {| limit := None; offset := None; includeMetadata := true |} e in
  if negb (success result) then
    ({| meta_success := false; meta_data := None; meta_error := error result;
        meta_time := Some (now - startTime) |}, e, reads)
  else
    ({| meta_success := true;
        meta_data := Some (match data result with
                           | Some d => metadata d
                           | None => None
                           end);
        meta_error := None;
        meta_time := Some (now - startTime) |}, e, reads).

End Engine.

End SessionQueryEngine.

(* ================================================================== *)
(** * DatabaseReader.ts *)

Module DatabaseReader.
Import JS.

Record DatabaseReaderConfig : Set := {
  enableCircuitBreaker : bool;
  strictParsing        : bool;
  cacheConnections     : bool
}.

(** The defaults of the constructor. *)
Definition default_config : DatabaseReaderConfig := {|
  enableCircuitBreaker := true;
  strictParsing := true;
  cacheConnections := true
|}.

Record ResultMetadata : Set := {
  totalSessions       : Z;
  processingTime      : Z;
  circuitBreakerState : option DatabaseCircuitBreaker.CircuitState
}.

Record DatabaseReaderResult : Set := {
  success  : bool;
  sessions : option (list SessionDataParser.ParsedSession);
  error    : option string;
  metadata : option ResultMetadata
}.

(** The collaborators of the facade that carry state between calls. *)
Record Reader : Set := {
  config         : DatabaseReaderConfig;
  queryEngine    : SessionQueryEngine.Engine;
  circuitBreaker : DatabaseCircuitBreaker.Breaker
}.

Definition newReader (config : DatabaseReaderConfig) (now : Z) : Reader := {|
  config := config;
  queryEngine := SessionQueryEngine.newEngine;
  circuitBreaker := DatabaseCircuitBreaker.newBreaker now
|}.

(** The options the constructor gives its [SessionDataParser]. *)
Definition dataParser (config : DatabaseReaderConfig)
    : SessionDataParser.ValidationOptions := {|
  SessionDataParser.strictMode := strictParsing config;
  SessionDataParser.allowEmptySessions := false;
  SessionDataParser.validateTimestamps := true;
  SessionDataParser.requireSessionId := false
|}.

(** What a call meets outside the reader: the answer of the connection
    manager, what the connections show, and the clock on entry and on
    return. *)
Record Surroundings : Set := {
  connection : Sqlite.ConnectionResult;
  files      : Sqlite.Files;
  startTime  : Z;
  endTime    : Z
}.

Section Reader.
Context `{Runtime}.
Variable w : Surroundings.

(** [getSessionsInternal]. *)
Definition getSessionsInternal (r : Reader)
    : DatabaseReaderResult * SessionQueryEngine.Engine * list Sqlite.Handle :=
  (* Step 1: Query raw session data *)
  let '(queryResult, e, reads) :=
    SessionQueryEngine.getInteractiveSessions (files w) (connection w)
      (startTime w) (endTime w)
      {| SessionQueryEngine.limit := None;
         SessionQueryEngine.offset := None;
         SessionQueryEngine.includeMetadata := true |}
      (queryEngine r) in
  if negb (SessionQueryEngine.success queryResult) then
    ({| success := false; sessions := None;
        error := Some (SessionDataParser.message_or
                         (SessionQueryEngine.error queryResult)
                         "Failed to query sessions");
        metadata := Some {| totalSessions := 0;
                            processingTime := endTime w - startTime w;
                            circuitBreakerState := None |} |}, e, reads)
  else
    (* Step 2: Parse and validate session data *)
    let rawSessions :=
      match SessionQueryEngine.data queryResult with
      | Some d => Array (SessionQueryEngine.sessions d)
      | None => Array []
      end in
    let parseResult :=
      SessionDataParser.parseSessionData (dataParser (config r)) (endTime w)
        (endTime w) rawSessions in
    if negb (SessionDataParser.success parseResult) then
      ({| success := false; sessions := None;
          error := Some (SessionDataParser.message_or
                           (SessionDataParser.error parseResult)
                           "Failed to parse sessions");
          metadata := Some {| totalSessions := 0;
                              processingTime := endTime w - startTime w;
                              circuitBreakerState := None |} |}, e, reads)
    else
      let parsed :=
        match SessionDataParser.data parseResult with
        | Some d => d
        | None => []
        end in
      ({| success := true; sessions := Some parsed; error := None;
          metadata := Some {| totalSessions := Z.of_nat (List.length parsed);
                              processingTime := endTime w - startTime w;
                              circuitBreakerState := None |} |}, e, reads).

(** The promise of [() => this.getSessionsInternal()] as the breaker sees
    it: [getSessionsInternal] catches every exception, so the promise
    always resolves, with the result object. *)
Definition getSessions_call (r : Reader)
    : DatabaseCircuitBreaker.Call DatabaseReaderResult := {|
  DatabaseCircuitBreaker.calledAt := startTime w;
  DatabaseCircuitBreaker.settles :=
    fun _ => DatabaseCircuitBreaker.Resolved (fst (fst (getSessionsInternal r)));
  DatabaseCircuitBreaker.settledAt := fun _ => endTime w;
  DatabaseCircuitBreaker.random := fun _ => 0%Q
|}.

(** [getSessions]. *)
Definition getSessions (r : Reader) : DatabaseReaderResult * Reader :=
  if enableCircuitBreaker (config r) then
    let '(circuitResult, breaker, effects) :=
      DatabaseCircuitBreaker.execute DatabaseCircuitBreaker.DEFAULT_CONFIG
        "get_sessions" (getSessions_call r) (circuitBreaker r) in
    let e :=
      if (0 <? DatabaseCircuitBreaker.invocations effects)%nat
      then snd (fst (getSessionsInternal r))
      else queryEngine r in
    let inner :=
      match DatabaseCircuitBreaker.data circuitResult with
      | Some d => sessions d
      | None => None
      end in
    ({| success := DatabaseCircuitBreaker.success circuitResult;
        sessions := inner;
        error := DatabaseCircuitBreaker.error circuitResult;
        metadata := Some {|
          totalSessions :=
            match inner with
            | Some l => Z.of_nat (List.length l)
            | None => 0
            end;
          processingTime := endTime w - startTime w;
          circuitBreakerState :=
            Some (DatabaseCircuitBreaker.circuitState circuitResult) |} |},
     {| config := config r; queryEngine := e; circuitBreaker := breaker |})
  else
    let '(result, e, _) := getSessionsInternal r in
    (result,
     {| config := config r; queryEngine := e;
        circuitBreaker := circuitBreaker r |}).

(** [getSessionByIdInternal]. *)
Definition getSessionByIdInternal (sessionId : string) (r : Reader)
    : DatabaseReaderResult * SessionQueryEngine.Engine * list Sqlite.Handle :=
  let '(queryResult, e, reads) :=
    SessionQueryEngine.getSessionById (files w) (connection w)
      (startTime w) (endTime w) sessionId (queryEngine r) in
  if negb (SessionQueryEngine.found_success queryResult) then
    ({| success := false; sessions := None;
        error := Some (SessionDataParser.message_or
                         (SessionQueryEngine.found_error queryResult)
                         "Failed to query session");
        metadata := Some {| totalSessions := 0;
                            processingTime := endTime w - startTime w;
                            circuitBreakerState := None |} |}, e, reads)
  else
    (* Parse the single session *)
    let parseResult :=
      SessionDataParser.parseSessionData (dataParser (config r)) (endTime w)
        (endTime w)
        (Array [match SessionQueryEngine.found_data queryResult with
                | Some session => session
                | None => Undefined
                end]) in
    if negb (SessionDataParser.success parseResult)
       || match SessionDataParser.data parseResult with
          | None => true
          | Some parsed => (List.length parsed =? 0)%nat
          end
    then
      ({| success := false; sessions := None;
          error := Some (SessionDataParser.message_or
                           (SessionDataParser.error parseResult)
                           "Failed to parse session");
          metadata := Some {| totalSessions := 0;
                              processingTime := endTime w - startTime w;
                              circuitBreakerState := None |} |}, e, reads)
    else
      ({| success := true; sessions := SessionDataParser.data parseResult;
          error := None;
          metadata := Some {| totalSessions := 1;
                              processingTime := endTime w - startTime w;
                              circuitBreakerState := None |} |}, e, reads).

(** [getSessionsSinceInternal]; [sinceDate] is the time value of the date,
    [None] for an invalid date. *)
Definition getSessionsSinceInternal (sinceDate : option Z) (r : Reader)
    : DatabaseReaderResult * SessionQueryEngine.Engine * list Sqlite.Handle :=
  let '(queryResult, e, reads) :=
    SessionQueryEngine.getSessionsSince (files w) (connection w)
      (startTime w) (endTime w) sinceDate (queryEngine r) in
  if negb (SessionQueryEngine.since_success queryResult) then
    ({| success := false; sessions := None;
        error := Some (SessionDataParser.message_or
                         (SessionQueryEngine.since_error queryResult)
                         "Failed to query sessions");
        metadata := Some {| totalSessions := 0;
                            processingTime := endTime w - startTime w;
                            circuitBreakerState := None |} |}, e, reads)
  else
    let rawSessions :=
      match SessionQueryEngine.since_data queryResult with
      | Some d => Array (SessionQueryEngine.since_sessions d)
      | None => Array []
      end in
    let parseResult :=
      SessionDataParser.parseSessionData (dataParser (config r)) (endTime w)
        (endTime w) rawSessions in
    if negb (SessionDataParser.success parseResult) then
      ({| success := false; sessions := None;
          error := Some (SessionDataParser.message_or
                           (SessionDataParser.error parseResult)
                           "Failed to parse sessions");
          metadata := Some {| totalSessions := 0;
                              processingTime := endTime w - startTime w;
                              circuitBreakerState := None |} |}, e, reads)
    else
      let parsed :=
        match SessionDataParser.data parseResult with
        | Some d => d
        | None => []
        end in
      ({| success := true; sessions := Some parsed; error := None;
          metadata := Some {| totalSessions := Z.of_nat (List.length parsed);
                              processingTime := endTime w - startTime w;
                              circuitBreakerState := None |} |}, e, reads).

(** The promise of an internal method as the breaker sees it: each of them
    catches every exception, so the promise always resolves, with the
    result object. *)
Definition internal_call
    (internal : DatabaseReaderResult * SessionQueryEngine.Engine
                * list Sqlite.Handle)
    : DatabaseCircuitBreaker.Call DatabaseReaderResult := {|
  DatabaseCircuitBreaker.calledAt := startTime w;
  DatabaseCircuitBreaker.settles :=
    fun _ => DatabaseCircuitBreaker.Resolved (fst (fst internal));
  DatabaseCircuitBreaker.settledAt := fun _ => endTime w;
  DatabaseCircuitBreaker.random := fun _ => 0%Q
|}.

(** The body the public methods [getSessionById] and [getSessionsSince]
    share with [getSessions]: the internal method behind the breaker under
    the given operation name, or on its own. *)
Definition guarded (operationName : string)
    (internal : Reader -> DatabaseReaderResult * SessionQueryEngine.Engine
                          * list Sqlite.Handle)
    (r : Reader) : DatabaseReaderResult * Reader :=
  if enableCircuitBreaker (config r) then
    let '(circuitResult, breaker, effects) :=
      DatabaseCircuitBreaker.execute DatabaseCircuitBreaker.DEFAULT_CONFIG
        operationName (internal_call (internal r)) (circuitBreaker r) in
    let e :=
      if (0 <? DatabaseCircuitBreaker.invocations effects)%nat
      then snd (fst (internal r))
      else queryEngine r in
    let inner :=
      match DatabaseCircuitBreaker.data circuitResult with
      | Some d => sessions d
      | None => None
      end in
    ({| success := DatabaseCircuitBreaker.success circuitResult;
        sessions := inner;
        error := DatabaseCircuitBreaker.error circuitResult;
        metadata := Some {|
          totalSessions :=
            match inner with
            | Some l => Z.of_nat (List.length l)
            | None => 0
            end;
          processingTime := endTime w - startTime w;
          circuitBreakerState :=
            Some (DatabaseCircuitBreaker.circuitState circuitResult) |} |},
     {| config := config r; queryEngine := e; circuitBreaker := breaker |})
  else
    let '(result, e, _) := internal r in
    (result,
     {| config := config r; queryEngine := e;
        circuitBreaker := circuitBreaker r |}).

(** [getSessionById]. *)
Definition getSessionById (sessionId : string) (r : Reader)
    : DatabaseReaderResult * Reader :=
  guarded "get_session_by_id" (getSessionByIdInternal sessionId) r.

(** [getSessionsSince]. *)
Definition getSessionsSince (sinceDate : option Z) (r : Reader)
    : DatabaseReaderResult * Reader :=
  guarded "get_sessions_since" (getSessionsSinceInternal sinceDate) r.

(** What [testConnection] returns. *)
Record TestResult : Set := {
  platformResolution  : bool;
  workspaceResolution : bool;
  databaseConnection  : bool;
  sessionQuery        : bool;
  dataParsing         : bool;
  overall             : bool;
  errors              : list string
}.

(** What [testConnection] reads of the answer of the platform resolver and
    of the workspace resolver. *)
Record Probe : Set := {
  isValid      : bool;
  probe_error  : option string
}.

(** [testConnection]: the three awaited answers are inputs, [inr message]
    for one that is rejected; the query runs on the reader's own engine,
    which asks the connection manager again. *)
Definition testConnection (platformResult workspaceResult : Probe + string)
    (connectionResult : Sqlite.ConnectionResult + string) (r : Reader)
    : TestResult :=
  match platformResult with
  | inr thrown =>
      {| platformResolution := false; workspaceResolution := false;
         databaseConnection := false; sessionQuery := false;
         dataParsing := false; overall := false;
         errors := [("Test failed: " ++ thrown)%string] |}
  | inl platform =>
      (* Test platform resolution *)
      let errors :=
        if negb (isValid platform)
        then [("Platform resolution: "
               ++ SessionDataParser.print_optional (probe_error platform))%string]
        else [] in
      match workspaceResult with
      | inr thrown =>
          {| platformResolution := isValid platform;
             workspaceResolution := false;
             databaseConnection := false; sessionQuery := false;
             dataParsing := false; overall := false;
             errors := errors ++ [("Test failed: " ++ thrown)%string] |}
      | inl workspace =>
          (* Test workspace resolution *)
          let errors :=
            if negb (isValid workspace)
            then errors ++
                 [("Workspace resolution: "
                   ++ SessionDataParser.print_optional
                        (probe_error workspace))%string]
            else errors in
          match connectionResult with
          | inr thrown =>
              {| platformResolution := isValid platform;
                 workspaceResolution := isValid workspace;
                 databaseConnection := false; sessionQuery := false;
                 dataParsing := false; overall := false;
                 errors := errors ++ [("Test failed: " ++ thrown)%string] |}
          | inl opened =>
              (* Test database connection *)
              let errors :=
                if negb (Sqlite.success opened)
                then errors ++
                     [("Database connection: "
                       ++ SessionDataParser.print_optional
                            (Sqlite.error opened))%string]
                else errors in
              (* Test session query (only if connection works) *)
              let '(sessionQuery, dataParsing, errors) :=
                if Sqlite.success opened then
                  let queryResult :=
                    fst (fst (SessionQueryEngine.getSessionMetadata (files w)
                                (connection w) (startTime w) (endTime w)
                                (queryEngine r))) in
                  let errors :=
                    if negb (SessionQueryEngine.meta_success queryResult)
                    then errors ++
                         [("Session query: "
                           ++ SessionDataParser.print_optional
                                (SessionQueryEngine.meta_error
                                   queryResult))%string]
                    else errors in
                  (* Test data parsing (only if query works) *)
                  if SessionQueryEngine.meta_success queryResult then
                    let parseResult :=
                      SessionDataParser.parseSessionData
                        (dataParser (config r)) (endTime w) (endTime w)
                        (Array []) in
                    (true, SessionDataParser.success parseResult,
                     if negb (SessionDataParser.success parseResult)
                     then errors ++
                          [("Data parsing: "
                            ++ SessionDataParser.print_optional
                                 (SessionDataParser.error parseResult))%string]
                     else errors)
                  else (false, false, errors)
                else (false, false, errors) in
              {| platformResolution := isValid platform;
                 workspaceResolution := isValid workspace;
                 databaseConnection := Sqlite.success opened;
                 sessionQuery := sessionQuery;
                 dataParsing := dataParsing;
                 overall := isValid platform && isValid workspace
                            && Sqlite.success opened && sessionQuery
                            && dataParsing;
                 errors := errors |}
          end
      end
  end.

End Reader.

End DatabaseReader.

(* ================================================================== *)
(** * A runtime and stores for the examples *)

Module Samples.
Import JS.

(** A runtime for closed examples.  [JSON.parse] is given on the four
    texts the examples store, where it agrees with the real one; no other
    text is parsed in this file. *)
Definition sample_JSON_parse (text : string) : Value + string :=
  if String.eqb text "[1,2,3]" then inl (Array [Number 1; Number 2; Number 3])
  else if String.eqb text "{}" then inl (Object [])
  else if String.eqb text "42" then inl (Number 42)
  else inr ("Unexpected token in JSON: " ++ text)%string.

#[export] Instance sample_runtime : Runtime := {|
  JSON_parse := sample_JSON_parse;
  JSON_stringify_length := fun _ => 0;
  String_ := fun v => match v with Str s => s | _ => typeof v end;
  Date_parse := fun _ => None;
  ISO_format := fun n => String_of_Z n;
  Date_time := fun _ => None;
  sort_dates := fun l => l
|}.

(** A store whose [ItemTable] holds the given rows, behind handle 0. *)
Definition store (rows : list (string * option string)) : Sqlite.Files :=
  fun _ => {| Sqlite.isOpen := true; Sqlite.ItemTable := Some rows |}.

Definition connected : Sqlite.ConnectionResult :=
  {| Sqlite.success := true; Sqlite.database := Some 0%nat;
     Sqlite.error := None |}.

Definition surroundings (rows : list (string * option string))
    : DatabaseReader.Surroundings := {|
  DatabaseReader.connection := connected;
  DatabaseReader.files := store rows;
  DatabaseReader.startTime := 1700000000000;
  DatabaseReader.endTime := 1700000000005
|}.

End Samples.

(* ================================================================== *)
(** * Node's [path] and [crypto], as the workspace resolver uses them *)

(** Strings are sequences of bytes, and [toLowerCase] lowers the ASCII
    letters.  [path.resolve] is the POSIX one for a single argument, [cwd]
    being the absolute working directory of the process: the path is split
    at "/", empty segments and "." are dropped, ".." removes the segment
    before it (and stays at the root), and the result is the root followed
    by the remaining segments.  [md5] is the MD5 digest (RFC 1321) on
    bytes, and [hex] the lowercase hexadecimal encoding of
    [digest('hex')]. *)
Module Node.

Definition lower_ascii (c : ascii) : ascii :=
  let n := nat_of_ascii c in
  if ((65 <=? n) && (n <=? 90))%nat then ascii_of_nat (n + 32) else c.

Fixpoint toLowerCase (s : string) : string :=
  match s with
  | EmptyString => EmptyString
  | String c rest => String (lower_ascii c) (toLowerCase rest)
  end.

Fixpoint split_slash (s : string) : list string :=
  match s with
  | EmptyString => [EmptyString]
  | String c rest =>
      if Ascii.eqb c "/" then EmptyString :: split_slash rest
      else match split_slash rest with
           | segment :: others => String c segment :: others
           | [] => [String c EmptyString]
           end
  end.

Definition normalize_step (stack : list string) (segment : string) : list string :=
  if String.eqb segment "" || String.eqb segment "." then stack
  else if String.eqb segment ".." then tl stack
  else segment :: stack.

Definition normalize (segments : list string) : list string :=
  rev (fold_left normalize_step segments []).

Fixpoint join (segments : list string) : string :=
  match segments with
  | [] => ""
  | [segment] => segment
  | segment :: others => (segment ++ "/" ++ join others)%string
  end.

Definition isAbsolute (p : string) : bool :=
  match p with
  | String c _ => Ascii.eqb c "/"
  | EmptyString => false
  end.

Definition resolve (cwd p : string) : string :=
  let resolvedPath := if isAbsolute p then p else (cwd ++ "/" ++ p)%string in
  ("/" ++ join (normalize (split_slash resolvedPath)))%string.

Definition s : list Z :=
  [7; 12; 17; 22; 7; 12; 17; 22; 7; 12; 17; 22; 7; 12; 17; 22;
   5; 9; 14; 20; 5; 9; 14; 20; 5; 9; 14; 20; 5; 9; 14; 20;
   4; 11; 16; 23; 4; 11; 16; 23; 4; 11; 16; 23; 4; 11; 16; 23;
   6; 10; 15; 21; 6; 10; 15; 21; 6; 10; 15; 21; 6; 10; 15; 21].

Definition K : list Z :=
  [3614090360; 3905402710; 606105819; 3250441966; 4118548399; 1200080426; 2821735955; 4249261313; 1770035416; 2336552879; 4294925233; 2304563134; 1804603682; 4254626195; 2792965006; 1236535329; 4129170786; 3225465664; 643717713; 3921069994; 3593408605; 38016083; 3634488961; 3889429448; 568446438; 3275163606; 4107603335; 1163531501; 2850285829; 4243563512; 1735328473; 2368359562; 4294588738; 2272392833; 1839030562; 4259657740; 2763975236; 1272893353; 4139469664; 3200236656; 681279174; 3936430074; 3572445317; 76029189; 3654602809; 3873151461; 530742520; 3299628645; 4096336452; 1126891415; 2878612391; 4237533241; 1700485571; 2399980690; 4293915773; 2240044497; 1873313359; 4264355552; 2734768916; 1309151649; 4149444226; 3174756917; 718787259; 3951481745].

Definition wrap (x : Z) : Z := x mod 2 ^ 32.
Definition not32 (x : Z) : Z := Z.lxor x (2 ^ 32 - 1).
Definition rotl (x c : Z) : Z :=
  Z.lor (wrap (Z.shiftl x c)) (Z.shiftr x (32 - c)).

Definition bytes_of_string (text : string) : list Z :=
  map (fun c => Z.of_nat (nat_of_ascii c)) (list_ascii_of_string text).

Definition le_bytes (n : nat) (x : Z) : list Z :=
  map (fun i => Z.shiftr x (8 * Z.of_nat i) mod 256) (seq 0 n).

Definition pad (message : list Z) : list Z :=
  let len := Z.of_nat (List.length message) in
  let zeros := Z.to_nat ((55 - len) mod 64) in
  message ++ [128] ++ repeat 0 zeros ++ le_bytes 8 (wrap (8 * len) + 2 ^ 32 * ((8 * len) / 2 ^ 32 mod 2 ^ 32)).

Fixpoint le_word (bytes : list Z) : Z :=
  match bytes with
  | [] => 0
  | b :: rest => b + 256 * le_word rest
  end.

Fixpoint words (n : nat) (bytes : list Z) : list Z :=
  match n with
  | O => []
  | S n' => le_word (firstn 4 bytes) :: words n' (skipn 4 bytes)
  end.

Record Registers : Set := { A : Z; B : Z; C : Z; D : Z }.

Definition round (M : list Z) (r : Registers) (i : nat) : Registers :=
  let i' := Z.of_nat i in
  let '(F, g) :=
    if i' <? 16 then (Z.lor (Z.land (B r) (C r)) (Z.land (not32 (B r)) (D r)), i')
    else if i' <? 32 then
      (Z.lor (Z.land (D r) (B r)) (Z.land (not32 (D r)) (C r)), (5 * i' + 1) mod 16)
    else if i' <? 48 then (Z.lxor (B r) (Z.lxor (C r) (D r)), (3 * i' + 5) mod 16)
    else (Z.lxor (C r) (Z.lor (B r) (not32 (D r))), (7 * i') mod 16) in
  let F := wrap (F + A r + nth i K 0 + nth (Z.to_nat g) M 0) in
  {| A := D r; D := C r; C := B r;
     B := wrap (B r + rotl F (nth i s 0)) |}.

Definition chunk (r : Registers) (block : list Z) : Registers :=
  let M := words 16 block in
  let r' := fold_left (round M) (seq 0 64) r in
  {| A := wrap (A r + A r'); B := wrap (B r + B r');
     C := wrap (C r + C r'); D := wrap (D r + D r') |}.

Fixpoint chunks (n : nat) (bytes : list Z) (r : Registers) : Registers :=
  match n with
  | O => r
  | S n' => chunks n' (skipn 64 bytes) (chunk r (firstn 64 bytes))
  end.

Definition md5 (message : list Z) : list Z :=
  let padded := pad message in
  let r := chunks (List.length padded / 64) padded
             {| A := 1732584193; B := 4023233417;
                C := 2562383102; D := 271733878 |} in
  le_bytes 4 (A r) ++ le_bytes 4 (B r) ++ le_bytes 4 (C r) ++ le_bytes 4 (D r).

Definition hex_digit (n : Z) : ascii :=
  nth (Z.to_nat n) (list_ascii_of_string "0123456789abcdef") "0"%char.

Definition hex (bytes : list Z) : string :=
  string_of_list_ascii
    (flat_map (fun b => [hex_digit (b / 16); hex_digit (b mod 16)]) bytes).

End Node.

(* ================================================================== *)
(** * WorkspaceResolver.ts *)

Module WorkspaceResolver.
Import Node.

(** [generateWorkspaceId]; [cwd] is [process.cwd()], which [path.resolve]
    reads for a relative path. *)
Definition generateWorkspaceId (cwd workspacePath : string) : string :=
  (* Normalize path separators and resolve to absolute path *)
  let normalizedPath := toLowerCase (resolve cwd workspacePath) in
  (* VS Code uses the first 32 characters of the hash *)
  substring 0 32 (hex (md5 (bytes_of_string normalizedPath))).

Record WorkspaceInfo : Set := {
  workspacePath : string;
  workspaceId   : string;
  databasePath  : string;
  isValid       : bool;
  error         : option string
}.

(** What [PlatformPathResolver.getVSCodeStoragePath] resolves to; it
    catches every exception. *)
Record PathValidationResult : Set := {
  storage_isValid : bool;
  storage_path    : option string;
  storage_error   : option string
}.

(** The instance: the cache of answers by the path that was asked for. *)
Record Resolver : Set := {
  workspaceCache : list (string * WorkspaceInfo)
}.

Definition newResolver : Resolver := {| workspaceCache := [] |}.

(** [clearCache]. *)
Definition clearCache (r : Resolver) : Resolver := {| workspaceCache := [] |}.

Section Resolver.
(** [process.cwd()] and [path.join]. *)
Variable cwd : string.
Variable path_join : list string -> string.
(** What [fs] shows, and the answer of the platform resolver. *)
Variable fs : string -> DatabaseConnectionManager.File.
Variable storageResult : PathValidationResult.

(** [validateDatabasePath]. *)
Definition validateDatabasePath (databasePath : string) : bool :=
  let file := fs databasePath in
  (* Check if file exists *)
  if negb (DatabaseConnectionManager.existsSync file) then false
  else
    (* Check if it's a file (not directory) *)
    match DatabaseConnectionManager.stat file with
    | inr _ => false
    | inl stats =>
        if negb (DatabaseConnectionManager.isFile stats) then false
        else
          (* Check read permissions *)
          if negb (DatabaseConnectionManager.readable file) then false
          else
            (* Basic SQLite file validation (check header) *)
            match DatabaseConnectionManager.header file with
            | inr _ => false
            | inl text => String.eqb text "SQLite format 3"
            end
    end.

(** [storageResult.path], when the answer is valid and has one. *)
Definition storage_of (storageResult : PathValidationResult) : option string :=
  if negb (storage_isValid storageResult) then None
  else match storage_path storageResult with
       | Some text => if String.eqb text "" then None else Some text
       | None => None
       end.

(** [getWorkspaceInfo]. *)
Definition getWorkspaceInfo (workspacePath : string) (r : Resolver)
    : WorkspaceInfo * Resolver :=
  (* Check cache first *)
  let hit : WorkspaceInfo + Resolver :=
    match JSMap.Map_get workspacePath (workspaceCache r) with
    | Some cached =>
        (* Verify cached database still exists *)
        if DatabaseConnectionManager.existsSync (fs (databasePath cached))
        then inl cached
        else inr {| workspaceCache :=
                      JSMap.Map_delete workspacePath (workspaceCache r) |}
    | None => inr r
    end in
  match hit with
  | inl cached => (cached, r)
  | inr r =>
      (* Normalize the workspace path *)
      let normalizedPath := resolve cwd workspacePath in
      (* Generate workspace ID using VS Code's hashing algorithm *)
      let workspaceId := generateWorkspaceId cwd normalizedPath in
      (* Get VS Code storage path *)
      match storage_of storageResult with
      | None =>
          ({| workspacePath := normalizedPath; workspaceId := workspaceId;
              databasePath := ""; isValid := false;
              error := Some (SessionDataParser.message_or
                               (storage_error storageResult)
                               "Failed to get VS Code storage path") |}, r)
      | Some storage =>
          (* Construct database path *)
          let databasePath := path_join [storage; workspaceId; "state.vscdb"] in
          (* Validate database exists and is accessible *)
          let isValid := validateDatabasePath databasePath in
          let workspaceInfo := {|
            workspacePath := normalizedPath; workspaceId := workspaceId;
            databasePath := databasePath; isValid := isValid;
            error := if isValid then None
                     else Some ("Database file not found or not accessible: "
                                ++ databasePath)%string |} in
          (* Cache the result *)
          (workspaceInfo,
           {| workspaceCache :=
                JSMap.Map_set workspacePath workspaceInfo (workspaceCache r) |})
      end
  end.

(** [findWorkspaceById]; [None] is [null]. *)
Definition findWorkspaceById (workspaceId : string) : option WorkspaceInfo :=
  match storage_of storageResult with
  | None => None
  | Some storage =>
      let databasePath := path_join [storage; workspaceId; "state.vscdb"] in
      if negb (validateDatabasePath databasePath) then None
      else Some {| workspacePath := ""; (* Unknown for reverse lookup *)
                   workspaceId := workspaceId; databasePath := databasePath;
                   isValid := true; error := None |}
  end.

End Resolver.

End WorkspaceResolver.

(* ================================================================== *)
(** * Histories of a breaker *)

Module BreakerHistory.
Import DatabaseCircuitBreaker.

(** Every clock reading of the call is after the epoch, so that a recorded
    time is never the falsy [0]. *)
Definition positive_clock {T} (c : Call T) : Prop :=
  0 < calledAt c /\ forall i, 0 < settledAt c i.

(** All the attempts the loop can make are rejected. *)
Definition always_rejected {T} (cfg : CircuitBreakerConfig) (c : Call T) : Prop :=
  forall i, Z.of_nat i <= maxRetries cfg -> exists m, settles c i = Rejected m.

(** Attempt [k] is the first one to resolve, with [v]. *)
Definition first_resolved {T} (c : Call T) (k : nat) (v : T) : Prop :=
  settles c k = Resolved v /\
  forall i, (i < k)%nat -> exists m, settles c i = Rejected m.

Definition breaker_after {T} (cfg : CircuitBreakerConfig) (name : string)
    (c : Call T) (b : Breaker) : Breaker :=
  snd (fst (execute cfg name c b)).

Definition result_of {T} (cfg : CircuitBreakerConfig) (name : string)
    (c : Call T) (b : Breaker) : CircuitBreakerResult T :=
  fst (fst (execute cfg name c b)).

Definition effects_of {T} (cfg : CircuitBreakerConfig) (name : string)
    (c : Call T) (b : Breaker) : list Effect :=
  snd (execute cfg name c b).

(** The call is allowed to run: the check at the head of [execute] does
    not block it. *)
Definition allowed {T} (cfg : CircuitBreakerConfig) (c : Call T)
    (b : Breaker) : Prop :=
  checkOpen cfg (calledAt c) (set_totalCalls (totalCalls b + 1) b) <> None.

(** A sequence of calls of [execute] on one breaker. *)
Definition run {T} (cfg : CircuitBreakerConfig) (name : string)
    (calls : list (Call T)) (b : Breaker) : Breaker :=
  fold_left (fun b c => breaker_after cfg name c b) calls b.

(** The states a breaker with a fixed configuration goes through when it is
    only driven by [execute]: the fresh instance, the state once
    [totalCalls] is counted, the state with which the operation is run, and
    the state in which a call leaves it. *)
Inductive reachable (cfg : CircuitBreakerConfig) : Breaker -> Prop :=
| reach_new : forall t0, 0 < t0 -> reachable cfg (newBreaker t0)
| reach_called : forall b,
    reachable cfg b -> reachable cfg (set_totalCalls (totalCalls b + 1) b)
| reach_admitted : forall b now b1,
    reachable cfg b -> 0 < now -> checkOpen cfg now b = Some b1 ->
    reachable cfg b1
| reach_execute : forall T name (c : Call T) b,
    reachable cfg b -> positive_clock c ->
    reachable cfg (breaker_after cfg name c b).

(** The sentence of the specification on HALF_OPEN as it is written: any
    recorded failure while HALF_OPEN goes back to OPEN. *)
Definition half_open_failure_reopens (cfg : CircuitBreakerConfig) : Prop :=
  forall b now, reachable cfg b -> 0 < now -> state b = HALF_OPEN ->
    state (onFailure cfg now b) = OPEN.

(** A call all of whose attempts are rejected, and one that resolves at
    once, used to build concrete histories. *)
Definition failing_call (t : Z) : Call unit := {|
  calledAt := t;
  settles := fun _ => Rejected "SQLITE_BUSY";
  settledAt := fun i => t + 1 + Z.of_nat i;
  random := fun _ => 0%Q
|}.

Definition succeeding_call (t : Z) : Call unit := {|
  calledAt := t;
  settles := fun _ => Resolved tt;
  settledAt := fun i => t + 1 + Z.of_nat i;
  random := fun _ => 0%Q
|}.

End BreakerHistory.

(* ================================================================== *)
(** * Properties of the circuit breaker *)

Unset Implicit Arguments.

Section BreakerProperties.
Import DatabaseCircuitBreaker BreakerHistory.

Example history_default :
  let b := run DEFAULT_CONFIG "op"
             (map failing_call [1000; 2000; 3000; 4000; 5000]) (newBreaker 1) in
  (state b, failureCount b, lastFailureTime b) = (OPEN, 5, Some 5004).
Proof. vm_compute. reflexivity. Qed.


(** ** Elementary facts about the single methods *)

Ltac breaker_unfold :=
  unfold onFailure, onSuccess, checkOpen in *;
  unfold cleanupOldFailures, setState, shouldAttemptReset in *;
  unfold falsy_time in *; cbn in *.

Ltac breaker_cases :=
  repeat match goal with
  | |- context [match ?x with _ => _ end] => destruct x eqn:?; cbn in *
  | H : context [match ?x with _ => _ end] |- _ => destruct x eqn:?; cbn in *
  end.

Ltac breaker_solve :=
  breaker_unfold; breaker_cases; intros;
  repeat match goal with
  | H : Some _ = Some _ |- _ => inversion H; clear H; subst; cbn in *
  end;
  try congruence; try lia;
  repeat match goal with
  | H : (_ <=? _) = true |- _ => apply Z.leb_le in H
  | H : (_ <=? _) = false |- _ => apply Z.leb_gt in H
  | H : (_ <? _) = true |- _ => apply Z.ltb_lt in H
  | H : (_ <? _) = false |- _ => apply Z.ltb_ge in H
  | H : (_ =? _) = true |- _ => apply Z.eqb_eq in H
  | H : (_ =? _) = false |- _ => apply Z.eqb_neq in H
  end;
  try congruence; try lia.

Lemma onFailure_lastFailureTime cfg now b :
  lastFailureTime (onFailure cfg now b) = Some now.
Proof. breaker_solve. Qed.

Lemma onFailure_totalFailures cfg now b :
  totalFailures (onFailure cfg now b) = totalFailures b + 1.
Proof. breaker_solve. Qed.

Lemma onFailure_successes cfg now b :
  totalSuccesses (onFailure cfg now b) = totalSuccesses b /\
  successCount (onFailure cfg now b) = successCount b.
Proof. split; breaker_solve. Qed.

(** The failure just recorded is never older than a non-negative window. *)
Lemma onFailure_failureCount cfg now b :
  0 <= monitoringWindow cfg ->
  failureCount (onFailure cfg now b) = failureCount b + 1.
Proof. intros Hw. breaker_solve. Qed.

Lemma onFailure_opens_iff cfg now b :
  state b <> OPEN ->
  (state (onFailure cfg now b) = OPEN <->
   failureThreshold cfg <= failureCount (onFailure cfg now b)).
Proof. intros Hs. split; intros H; revert H; breaker_solve. Qed.

Lemma onFailure_not_closed cfg now b :
  state b <> CLOSED -> state (onFailure cfg now b) <> CLOSED.
Proof. intros Hs. breaker_solve. Qed.

Lemma onSuccess_counts cfg now b :
  totalSuccesses (onSuccess cfg now b) = totalSuccesses b + 1 /\
  successCount (onSuccess cfg now b) = successCount b + 1 /\
  totalFailures (onSuccess cfg now b) = totalFailures b /\
  (failureCount (onSuccess cfg now b) = failureCount b \/
   failureCount (onSuccess cfg now b) = 0).
Proof. repeat split; breaker_solve; auto. Qed.

Lemma onSuccess_not_open cfg now b :
  state b <> OPEN -> state (onSuccess cfg now b) <> OPEN.
Proof. intros Hs. breaker_solve. Qed.

Lemma onSuccess_closed_stays cfg now b :
  state b = CLOSED -> state (onSuccess cfg now b) = CLOSED.
Proof. intros Hs. breaker_solve. Qed.

Lemma onSuccess_closes_iff cfg now b :
  state b = HALF_OPEN ->
  (state (onSuccess cfg now b) = CLOSED <->
   successThreshold cfg <= consecutiveSuccesses b + 1).
Proof. intros Hs. split; intros H; revert H; breaker_solve. Qed.

Lemma checkOpen_not_open cfg now b b1 :
  checkOpen cfg now b = Some b1 -> state b1 <> OPEN.
Proof. intros H. revert H. breaker_solve. Qed.

Lemma checkOpen_counters cfg now b b1 :
  checkOpen cfg now b = Some b1 ->
  failureCount b1 = failureCount b /\ totalFailures b1 = totalFailures b /\
  totalSuccesses b1 = totalSuccesses b /\ successCount b1 = successCount b /\
  lastFailureTime b1 = lastFailureTime b.
Proof. intros H. revert H. breaker_solve; repeat split; congruence. Qed.


(** ** The retry loop *)

Section RetryLoop.
Variable T : Type.
Variable cfg : CircuitBreakerConfig.
Variable name : string.
Variable c : Call T.

Lemma invocations_step attempt (pause tr : list Effect) :
  (pause = [] \/ exists d, pause = [Sleep d]) ->
  invocations (Invoke attempt :: pause ++ tr) = S (invocations tr).
Proof.
  intros [-> | [d ->]]; reflexivity.
Qed.

Lemma pause_shape attempt :
  let pause :=
    if Z.of_nat attempt <? maxRetries cfg
    then [Sleep (calculateRetryDelay cfg attempt (random c attempt))]
    else [] in
  pause = [] \/ exists d, pause = [Sleep d].
Proof.
  cbv zeta. destruct (Z.of_nat attempt <? maxRetries cfg); eauto.
Qed.

(** The clock that [onFailure] reads when the loop runs out. *)
Definition exhausted_at (remaining attempt : nat) (now : Z) : Z :=
  match remaining with
  | O => now
  | S n => settledAt c (attempt + n)
  end.

Lemma retryLoop_invocations_le remaining : forall attempt now err b,
  (invocations (snd (retryLoop cfg name c remaining attempt now err b))
   <= remaining)%nat.
Proof.
  induction remaining as [|n IH]; intros attempt now err b; cbn.
  - apply Nat.le_refl.
  - destruct (settles c attempt) as [v|m]; cbn.
    + unfold invocations; cbn. apply le_n_S, Nat.le_0_l.
    + specialize (IH (S attempt) (settledAt c attempt) (Some m) b).
      destruct (retryLoop cfg name c n (S attempt) (settledAt c attempt)
                  (Some m) b) as [[r b'] tr]. cbn in *.
      rewrite invocations_step by apply pause_shape.
      apply le_n_S, IH.
Qed.

Lemma retryLoop_all_rejected remaining : forall attempt now err b,
  (forall i, (attempt <= i < attempt + remaining)%nat ->
             exists m, settles c i = Rejected m) ->
  let '(r, b', tr) := retryLoop cfg name c remaining attempt now err b in
  success r = false /\ data r = None /\
  b' = onFailure cfg (exhausted_at remaining attempt now) b /\
  circuitState r = state b' /\
  invocations tr = remaining.
Proof.
  induction remaining as [|n IH]; intros attempt now err b Hrej; cbn.
  - repeat split; reflexivity.
  - destruct (Hrej attempt ltac:(lia)) as [m ->].
    specialize (IH (S attempt) (settledAt c attempt) (Some m) b).
    destruct (retryLoop cfg name c n (S attempt) (settledAt c attempt)
                (Some m) b) as [[r b'] tr].
    destruct IH as (Hs & Hd & Hb & Hc & Hi).
    { intros i Hi. apply Hrej. lia. }
    repeat split; auto.
    + rewrite Hb. f_equal. destruct n; cbn.
      * now rewrite Nat.add_0_r.
      * f_equal. lia.
    + rewrite invocations_step by apply pause_shape.
      now rewrite Hi.
Qed.

Lemma retryLoop_first_resolved k : forall remaining attempt now err b v,
  (k < remaining)%nat ->
  settles c (attempt + k) = Resolved v ->
  (forall i, (i < k)%nat -> exists m, settles c (attempt + i) = Rejected m) ->
  let '(r, b', tr) := retryLoop cfg name c remaining attempt now err b in
  success r = true /\ data r = Some v /\
  b' = onSuccess cfg (settledAt c (attempt + k)) b /\
  circuitState r = state b' /\
  retryAttempt r = Some (Z.of_nat (attempt + k)) /\
  invocations tr = S k.
Proof.
  induction k as [|k IH]; intros remaining attempt now err b v Hk Hres Hrej;
    (destruct remaining as [|n]; [lia|]); cbn.
  - rewrite Nat.add_0_r in *. rewrite Hres. repeat split; reflexivity.
  - destruct (Hrej 0%nat ltac:(lia)) as [m Hm].
    rewrite Nat.add_0_r in Hm. rewrite Hm.
    specialize (IH n (S attempt) (settledAt c attempt) (Some m) b v).
    destruct (retryLoop cfg name c n (S attempt) (settledAt c attempt)
                (Some m) b) as [[r b'] tr].
    replace (S attempt + k)%nat with (attempt + S k)%nat in IH by lia.
    destruct IH as (Hs & Hd & Hb & Hc & Ha & Hi); [lia | assumption | |].
    { intros i Hi. replace (S attempt + i)%nat with (attempt + S i)%nat by lia.
      apply Hrej. lia. }
    repeat split; auto.
    rewrite invocations_step by apply pause_shape.
    now rewrite Hi.
Qed.

(** Whatever the attempts do, the loop reports once: it leaves the breaker
    either as [onSuccess] or as [onFailure] makes it, at a reading of the
    clock of this call. *)
Lemma retryLoop_reports_once remaining : forall attempt now err b,
  let b' := snd (fst (retryLoop cfg name c remaining attempt now err b)) in
  exists t, (t = now \/ exists i, t = settledAt c i) /\
            (b' = onSuccess cfg t b \/ b' = onFailure cfg t b).
Proof.
  induction remaining as [|n IH]; intros attempt now err b; cbn.
  - exists now. auto.
  - destruct (settles c attempt) as [v|m]; cbn.
    + exists (settledAt c attempt). eauto.
    + specialize (IH (S attempt) (settledAt c attempt) (Some m) b).
      destruct (retryLoop cfg name c n (S attempt) (settledAt c attempt)
                  (Some m) b) as [[r b'] tr]. cbn in *.
      destruct IH as (t & [-> | Ht] & Hb); eauto.
Qed.

End RetryLoop.


(** ** What holds of every reachable breaker *)

(** A breaker that is OPEN was opened by a recorded failure: the time of
    that failure is known, and the failure count is at the threshold. *)
Definition opened_by_failures (cfg : CircuitBreakerConfig) (b : Breaker) : Prop :=
  state b = OPEN ->
  (exists tf, lastFailureTime b = Some tf /\ 0 < tf) /\
  failureThreshold cfg <= failureCount b.

Lemma execute_blocked T cfg name (c : Call T) b :
  checkOpen cfg (calledAt c) (set_totalCalls (totalCalls b + 1) b) = None ->
  execute cfg name c b =
    ({| success := false; data := None;
        error := Some ("Circuit breaker is OPEN for " ++ name
                       ++ ". Blocking operation.")%string;
        circuitState := state b; retryAttempt := None |},
     set_totalCalls (totalCalls b + 1) b, []).
Proof. unfold execute. intros ->. reflexivity. Qed.

Lemma execute_admitted T cfg name (c : Call T) b b1 :
  checkOpen cfg (calledAt c) (set_totalCalls (totalCalls b + 1) b) = Some b1 ->
  execute cfg name c b =
    retryLoop cfg name c (Z.to_nat (maxRetries cfg + 1)) 0 (calledAt c) None b1.
Proof. unfold execute, executeWithRetries. intros ->. reflexivity. Qed.

Lemma reachable_opened_by_failures cfg b :
  reachable cfg b -> opened_by_failures cfg b.
Proof.
  induction 1 as [t0 Ht0 | b Hb IH | b now b1 Hb IH Hnow Hadm
                 | T name c b Hb IH [Hc Hs]]; intros Hopen.
  - discriminate.
  - apply IH. exact Hopen.
  - exfalso. eapply checkOpen_not_open; eauto.
  - unfold breaker_after in *.
    destruct (checkOpen cfg (calledAt c) (set_totalCalls (totalCalls b + 1) b))
      as [b1|] eqn:Hadm.
    + rewrite (execute_admitted _ _ name _ _ _ Hadm) in *.
      pose proof (checkOpen_not_open _ _ _ _ Hadm) as Hb1.
      destruct (retryLoop_reports_once _ cfg name c
                  (Z.to_nat (maxRetries cfg + 1)) 0 (calledAt c) None b1)
        as (t & Ht & [Hr | Hr]); cbv zeta in Hr; rewrite Hr in *.
      * exfalso. eapply onSuccess_not_open; eauto.
      * split.
        -- exists t. split; [apply onFailure_lastFailureTime|].
           destruct Ht as [-> | [i ->]]; auto.
        -- now apply onFailure_opens_iff.
    + rewrite (execute_blocked _ _ name _ _ Hadm) in *. cbn in *. apply IH, Hopen.
Qed.

(** C1 (as amended): the transitions of the breaker, for every breaker
    reachable through calls of [execute] and every clock reading [now].
    - From CLOSED, recording a failure opens the breaker exactly when the
      failure count it leaves has reached [failureThreshold]; a success
      keeps it CLOSED.
    - From OPEN, the check at the head of [execute] lets a call through,
      moving to HALF_OPEN, only when [resetTimeout] has elapsed since the
      last failure.
    - From HALF_OPEN, a success closes the breaker exactly when the
      consecutive-success count it reaches is [successThreshold]; a
      failure never closes it.
    - From HALF_OPEN, recording a failure reopens the breaker exactly when
      the failure count it leaves has reached [failureThreshold], the same
      test as in CLOSED, and not on every failure.
    - With a non-negative monitoring window the count left by a recorded
      failure is the old count plus one, and the trial call that follows
      OPEN directly reopens the breaker when it fails. *)
Theorem breaker_transitions :
  forall cfg b now, reachable cfg b -> 0 < now ->
  (state b = CLOSED ->
     (state (onFailure cfg now b) = OPEN <->
      failureThreshold cfg <= failureCount (onFailure cfg now b)) /\
     state (onSuccess cfg now b) = CLOSED) /\
  (state b = OPEN -> forall b1, checkOpen cfg now b = Some b1 ->
     state b1 = HALF_OPEN /\
     exists tf, lastFailureTime b = Some tf /\ resetTimeout cfg <= now - tf) /\
  (state b = HALF_OPEN ->
     (state (onSuccess cfg now b) = CLOSED <->
      successThreshold cfg <= consecutiveSuccesses b + 1) /\
     state (onFailure cfg now b) <> CLOSED) /\
  (state b = HALF_OPEN ->
     (state (onFailure cfg now b) = OPEN <->
      failureThreshold cfg <= failureCount (onFailure cfg now b))) /\
  (0 <= monitoringWindow cfg ->
     failureCount (onFailure cfg now b) = failureCount b + 1) /\
  (0 <= monitoringWindow cfg -> state b = OPEN ->
     forall b1 t, checkOpen cfg now b = Some b1 ->
     state (onFailure cfg t b1) = OPEN).
Proof.
  intros cfg b now Hreach Hnow.
  pose proof (reachable_opened_by_failures _ _ Hreach) as Hinv.
  repeat apply conj.
  - intros Hs. split.
    + apply onFailure_opens_iff. congruence.
    + now apply onSuccess_closed_stays.
  - intros Hs b1 Hadm. destruct (Hinv Hs) as [(tf & Htf & Hpos) _].
    revert Hadm. unfold checkOpen, shouldAttemptReset, falsy_time.
    rewrite Hs, Htf.
    destruct (tf =? 0) eqn:E0; [apply Z.eqb_eq in E0; lia|].
    destruct (resetTimeout cfg <=? now - tf) eqn:E; [|discriminate].
    intros [= <-]. split.
    + unfold setState. rewrite Hs. reflexivity.
    + exists tf. split; [reflexivity|]. now apply Z.leb_le.
  - intros Hs. split.
    + now apply onSuccess_closes_iff.
    + apply onFailure_not_closed. congruence.
  - intros Hs. apply onFailure_opens_iff. congruence.
  - intros Hw. now apply onFailure_failureCount.
  - intros Hw Hs b1 t Hadm. destruct (Hinv Hs) as [_ Hcount].
    apply onFailure_opens_iff.
    + eapply checkOpen_not_open; eauto.
    + rewrite onFailure_failureCount by assumption.
      destruct (checkOpen_counters _ _ _ _ Hadm) as (-> & _). lia.
Qed.

(** The history of the counterexample: five failing calls open the breaker,
    a call that succeeds long after the monitoring window leaves it
    HALF_OPEN with the failure counter aged out. *)
Definition aged_out_history : list (Call unit) :=
  map failing_call [1000; 2000; 3000; 4000; 5000] ++ [succeeding_call 500000].

Lemma failing_call_clock t : 0 < t -> positive_clock (failing_call t).
Proof. intros Ht. split; [exact Ht | intros i; cbn; lia]. Qed.

Lemma succeeding_call_clock t : 0 < t -> positive_clock (succeeding_call t).
Proof. intros Ht. split; [exact Ht | intros i; cbn; lia]. Qed.

Lemma aged_out_history_reachable :
  reachable DEFAULT_CONFIG
    (run DEFAULT_CONFIG "get_sessions" aged_out_history (newBreaker 1)).
Proof.
  unfold run, aged_out_history. cbn [map app fold_left].
  apply reach_execute; [| apply succeeding_call_clock; lia].
  repeat (apply reach_execute; [| apply failing_call_clock; lia]).
  apply reach_new. lia.
Qed.

Lemma breaker_transitions_witness :
  let b := run DEFAULT_CONFIG "get_sessions" aged_out_history (newBreaker 1) in
  state b = HALF_OPEN /\
  (state (onFailure DEFAULT_CONFIG 600000 b) = OPEN <->
   failureThreshold DEFAULT_CONFIG
     <= failureCount (onFailure DEFAULT_CONFIG 600000 b)).
Proof.
  cbv zeta. split; [reflexivity|].
  refine (proj1 (proj2 (proj2 (proj2
    (@breaker_transitions DEFAULT_CONFIG _ 600000
       aged_out_history_reachable _)))) _).
  - reflexivity.
  - reflexivity.
Defined.

(** C1 (as stated) fails: with the default configuration the breaker of
    [aged_out_history] is HALF_OPEN, and a failure recorded then leaves it
    HALF_OPEN, with a failure count of one. *)
Lemma half_open_failure_stays_half_open :
  ~ half_open_failure_reopens DEFAULT_CONFIG.
Proof.
  intros H.
  specialize (H _ 600000 aged_out_history_reachable eq_refl eq_refl).
  vm_compute in H. discriminate H.
Qed.

(** The same at the level of [execute]: a call whose four attempts are
    all rejected finds the breaker HALF_OPEN and leaves it HALF_OPEN. *)
Example half_open_failing_call :
  let b := run DEFAULT_CONFIG "get_sessions" aged_out_history (newBreaker 1) in
  let c := failing_call 600000 in
  state b = HALF_OPEN /\
  success (result_of DEFAULT_CONFIG "get_sessions" c b) = false /\
  invocations (effects_of DEFAULT_CONFIG "get_sessions" c b) = 4%nat /\
  state (breaker_after DEFAULT_CONFIG "get_sessions" c b) = HALF_OPEN /\
  failureCount (breaker_after DEFAULT_CONFIG "get_sessions" c b) = 1.
Proof. vm_compute. repeat split; reflexivity. Qed.


(** ** One call of [execute] *)

(** C3: in a call of [execute] that is allowed to run, with
    [maxRetries >= 0] and a non-negative monitoring window, the operation
    is invoked at most [maxRetries + 1] times.  When every attempt is
    rejected it is invoked exactly [maxRetries + 1] times and one failure
    is recorded: [failureCount] and [totalFailures] grow by one, the
    success counters stay.  When attempt [k] is the first to resolve, the
    operation is invoked [k + 1] times and one success is recorded: the
    success counters grow by one, [totalFailures] stays and [failureCount]
    is not incremented by the [k] rejected attempts (it stays or is
    cleared). *)
Theorem execute_reports_once :
  forall T cfg name (c : Call T) b,
  0 <= maxRetries cfg -> 0 <= monitoringWindow cfg -> allowed cfg c b ->
  let r := result_of cfg name c b in
  let b' := breaker_after cfg name c b in
  let tr := effects_of cfg name c b in
  Z.of_nat (invocations tr) <= maxRetries cfg + 1 /\
  (always_rejected cfg c ->
     success r = false /\
     Z.of_nat (invocations tr) = maxRetries cfg + 1 /\
     failureCount b' = failureCount b + 1 /\
     totalFailures b' = totalFailures b + 1 /\
     totalSuccesses b' = totalSuccesses b /\
     successCount b' = successCount b) /\
  (forall k v, Z.of_nat k <= maxRetries cfg -> first_resolved c k v ->
     success r = true /\ data r = Some v /\
     invocations tr = S k /\
     totalSuccesses b' = totalSuccesses b + 1 /\
     successCount b' = successCount b + 1 /\
     totalFailures b' = totalFailures b /\
     (failureCount b' = failureCount b \/ failureCount b' = 0)).
Proof.
  intros T cfg name c b Hmax Hw Hallowed.
  unfold allowed in Hallowed.
  destruct (checkOpen cfg (calledAt c) (set_totalCalls (totalCalls b + 1) b))
    as [b1|] eqn:Hadm; [clear Hallowed | congruence].
  unfold result_of, breaker_after, effects_of.
  rewrite (execute_admitted _ _ name _ _ _ Hadm).
  destruct (checkOpen_counters _ _ _ _ Hadm) as (Hfc & Htf & Hts & Hsc & _).
  cbn in Hfc, Htf, Hts, Hsc.
  set (n := Z.to_nat (maxRetries cfg + 1)).
  cbv zeta. repeat apply conj.
  - pose proof (retryLoop_invocations_le _ cfg name c n 0 (calledAt c) None b1).
    lia.
  - intros Hrej.
    pose proof (retryLoop_all_rejected _ cfg name c n 0 (calledAt c) None b1) as H.
    destruct (retryLoop cfg name c n 0 (calledAt c) None b1) as [[r b'] tr].
    destruct H as (Hs & _ & Hb & _ & Hi).
    { intros i Hi. apply Hrej. lia. }
    cbn. subst b'. rewrite Hi.
    rewrite onFailure_failureCount, onFailure_totalFailures by assumption.
    destruct (onFailure_successes cfg (exhausted_at _ c n 0 (calledAt c)) b1)
      as [-> ->].
    repeat split; try assumption; lia.
  - intros k v Hk [Hres Hrej].
    pose proof (retryLoop_first_resolved _ cfg name c k n 0 (calledAt c) None
                  b1 v) as H.
    destruct (retryLoop cfg name c n 0 (calledAt c) None b1) as [[r b'] tr].
    destruct H as (Hs & Hd & Hb & _ & _ & Hi); [lia | assumption | assumption |].
    cbn. subst b'.
    destruct (onSuccess_counts cfg (settledAt c (0 + k)) b1)
      as (-> & -> & -> & Hcount).
    repeat split; try assumption; lia.
Qed.

Lemma execute_reports_once_witness :
  let b := newBreaker 1 in
  let c := failing_call 1000 in
  failureCount (breaker_after DEFAULT_CONFIG "get_sessions" c b) = 1 /\
  totalFailures (breaker_after DEFAULT_CONFIG "get_sessions" c b) = 1 /\
  invocations (effects_of DEFAULT_CONFIG "get_sessions" c b) = 4%nat.
Proof.
  cbv zeta.
  assert (H0 : 0 <= maxRetries DEFAULT_CONFIG) by (cbn; lia).
  assert (H1 : 0 <= monitoringWindow DEFAULT_CONFIG) by (cbn; lia).
  assert (H2 : allowed DEFAULT_CONFIG (failing_call 1000) (newBreaker 1))
    by (cbv; discriminate).
  assert (H3 : always_rejected DEFAULT_CONFIG (failing_call 1000))
    by (intros i _; exists "SQLITE_BUSY"%string; reflexivity).
  destruct (execute_reports_once unit DEFAULT_CONFIG "get_sessions"
              (failing_call 1000) (newBreaker 1) H0 H1 H2) as (_ & Hfail & _).
  destruct (Hfail H3) as (_ & Hi & Hfc & Htf & _).
  split; [exact Hfc | split; [exact Htf | reflexivity]].
Defined.

(** ** A breaker that is OPEN *)

Lemma failing_execute_counts T cfg name (c : Call T) b :
  0 <= monitoringWindow cfg -> state b <> OPEN -> always_rejected cfg c ->
  let b' := breaker_after cfg name c b in
  failureCount b' = failureCount b + 1 /\
  (state b' = OPEN <-> failureThreshold cfg <= failureCount b + 1) /\
  (state b' <> OPEN -> state b' = state b) /\
  (exists t, lastFailureTime b' = Some t /\
             (t = calledAt c \/ exists i, t = settledAt c i)).
Proof.
  intros Hw Hs Hrej.
  assert (Hadm : checkOpen cfg (calledAt c)
                   (set_totalCalls (totalCalls b + 1) b)
                 = Some (set_totalCalls (totalCalls b + 1) b)).
  { unfold checkOpen. cbn. destruct (state b); congruence. }
  unfold breaker_after. rewrite (execute_admitted _ _ name _ _ _ Hadm).
  set (b1 := set_totalCalls (totalCalls b + 1) b) in *.
  set (n := Z.to_nat (maxRetries cfg + 1)).
  pose proof (retryLoop_all_rejected _ cfg name c n 0 (calledAt c) None b1) as H.
  destruct (retryLoop cfg name c n 0 (calledAt c) None b1) as [[r b'] tr].
  destruct H as (_ & _ & Hb & _ & _).
  { intros i Hi. apply Hrej. lia. }
  cbn. subst b'.
  assert (Hs1 : state b1 <> OPEN) by exact Hs.
  pose proof (onFailure_opens_iff cfg (exhausted_at _ c n 0 (calledAt c)) b1 Hs1)
    as Hiff.
  rewrite onFailure_failureCount in * by assumption.
  change (failureCount b1) with (failureCount b) in *.
  repeat split; try (apply Hiff).
  - intros Hno. change (state b) with (state b1).
    revert Hno. clear. breaker_solve.
  - exists (exhausted_at _ c n 0 (calledAt c)).
    split; [apply onFailure_lastFailureTime|].
    unfold exhausted_at. destruct n; eauto.
Qed.

Lemma failing_calls_accumulate T cfg name (calls : list (Call T)) : forall b,
  0 <= monitoringWindow cfg -> state b = CLOSED ->
  Forall (always_rejected cfg) calls ->
  failureCount b + Z.of_nat (List.length calls) < failureThreshold cfg ->
  state (run cfg name calls b) = CLOSED /\
  failureCount (run cfg name calls b)
    = failureCount b + Z.of_nat (List.length calls).
Proof.
  induction calls as [|c calls IH]; intros b Hw Hs Hall Hlt; cbn.
  - split; [assumption | lia].
  - inversion Hall as [|? ? Hc Hrest]; subst.
    destruct (failing_execute_counts T cfg name c b Hw ltac:(congruence) Hc)
      as (Hfc & Hopen & Hsame & _).
    cbn [List.length] in Hlt.
    assert (Hs' : state (breaker_after cfg name c b) = CLOSED).
    { rewrite <- Hs. apply Hsame. intros Ho. apply Hopen in Ho. lia. }
    destruct (IH (breaker_after cfg name c b) Hw Hs' Hrest) as [H1 H2].
    + lia.
    + fold (run cfg name calls (breaker_after cfg name c b)).
      split; [assumption | lia].
Qed.

Lemma run_snoc T cfg name (calls : list (Call T)) c b :
  run cfg name (calls ++ [c]) b = breaker_after cfg name c (run cfg name calls b).
Proof. unfold run. now rewrite fold_left_app. Qed.

(** C4: a call of [execute] that finds the breaker OPEN less than
    [resetTimeout] after the last failure returns a failure and has no
    effect outside the breaker: the operation is not invoked.  In
    particular, with [failureThreshold = 5] and a non-negative monitoring
    window, a fresh breaker stays CLOSED through four failing calls, is
    OPEN after the fifth, and blocks a sixth call made before
    [resetTimeout] has elapsed since that failure. *)
Theorem open_breaker_blocks :
  forall T cfg name,
  (forall (c : Call T) b tf,
     state b = OPEN -> lastFailureTime b = Some tf -> 0 < tf ->
     calledAt c - tf < resetTimeout cfg ->
     success (result_of cfg name c b) = false /\
     data (result_of cfg name c b) = None /\
     effects_of cfg name c b = [] /\
     breaker_after cfg name c b = set_totalCalls (totalCalls b + 1) b) /\
  (failureThreshold cfg = 5 -> 0 <= monitoringWindow cfg ->
   forall (calls : list (Call T)) (c6 : Call T) t0,
     List.length calls = 5%nat ->
     Forall (always_rejected cfg) calls -> Forall positive_clock calls ->
     let b5 := run cfg name calls (newBreaker t0) in
     state (run cfg name (firstn 4 calls) (newBreaker t0)) = CLOSED /\
     state b5 = OPEN /\
     exists tf, lastFailureTime b5 = Some tf /\
       (calledAt c6 - tf < resetTimeout cfg ->
        success (result_of cfg name c6 b5) = false /\
        invocations (effects_of cfg name c6 b5) = 0%nat /\
        state (breaker_after cfg name c6 b5) = OPEN)).
Proof.
  intros T cfg name.
  assert (Hblock : forall (c : Call T) b tf,
     state b = OPEN -> lastFailureTime b = Some tf -> 0 < tf ->
     calledAt c - tf < resetTimeout cfg ->
     checkOpen cfg (calledAt c) (set_totalCalls (totalCalls b + 1) b) = None).
  { intros c b tf Hs Htf Hpos Hlt.
    unfold checkOpen, shouldAttemptReset, falsy_time. cbn. rewrite Hs, Htf.
    destruct (tf =? 0) eqn:E0; [apply Z.eqb_eq in E0; lia|].
    destruct (resetTimeout cfg <=? calledAt c - tf) eqn:E; [|reflexivity].
    apply Z.leb_le in E. lia. }
  split.
  - intros c b tf Hs Htf Hpos Hlt.
    unfold result_of, effects_of, breaker_after.
    rewrite (execute_blocked _ _ name _ _ (Hblock c b tf Hs Htf Hpos Hlt)).
    cbn. repeat split; reflexivity.
  - intros Hth Hw calls c6 t0 Hlen Hrej Hclk.
    do 5 (destruct calls as [|? calls]; [discriminate Hlen|]).
    destruct calls; [clear Hlen | discriminate Hlen].
    cbv zeta.
    assert (H4 : Forall (always_rejected cfg) [c; c0; c1; c2]).
    { repeat (inversion Hrej as [|? ? ? Hrej']; subst; clear Hrej;
              rename Hrej' into Hrej; constructor; [assumption|]).
      constructor. }
    destruct (failing_calls_accumulate T cfg name [c; c0; c1; c2]
                (newBreaker t0) Hw eq_refl H4) as [Hs4 Hc4].
    { cbn. lia. }
    cbn [firstn]. split; [exact Hs4|].
    change [c; c0; c1; c2; c3] with ([c; c0; c1; c2] ++ [c3]).
    rewrite run_snoc.
    set (b4 := run cfg name [c; c0; c1; c2] (newBreaker t0)) in *.
    assert (Hr3 : always_rejected cfg c3).
    { rewrite Forall_forall in Hrej. apply Hrej. cbn. tauto. }
    assert (Hk3 : positive_clock c3).
    { rewrite Forall_forall in Hclk. apply Hclk. cbn. tauto. }
    destruct (failing_execute_counts T cfg name c3 b4 Hw ltac:(congruence) Hr3)
      as (Hfc & Hopen & _ & (tf & Htf & Hwhen)).
    cbv zeta in *.
    assert (Hs5 : state (breaker_after cfg name c3 b4) = OPEN).
    { apply Hopen. rewrite Hc4, Hth. cbn. lia. }
    split; [exact Hs5|].
    exists tf. split; [exact Htf|]. intros Hlt.
    assert (Hpos : 0 < tf).
    { destruct Hk3 as [Hk Hk']. destruct Hwhen as [-> | [i ->]]; auto. }
    pose proof (execute_blocked _ _ name _ _
                  (Hblock c6 _ tf Hs5 Htf Hpos Hlt)) as E.
    remember (breaker_after cfg name c3 b4) as b5 eqn:Eb5.
    unfold result_of, effects_of, breaker_after. rewrite E. cbn.
    split; [reflexivity | split; [reflexivity | exact Hs5]].
Qed.

Lemma open_breaker_blocks_witness :
  let calls := map failing_call [1000; 2000; 3000; 4000; 5000] in
  let b5 := run DEFAULT_CONFIG "get_sessions" calls (newBreaker 1) in
  state b5 = OPEN /\
  effects_of DEFAULT_CONFIG "get_sessions" (failing_call 6000) b5 = [].
Proof.
  cbv zeta.
  destruct (open_breaker_blocks unit DEFAULT_CONFIG "get_sessions")
    as [Hblock Hscenario].
  split.
  - reflexivity.
  - refine (proj1 (proj2 (proj2
      (Hblock (failing_call 6000) _ 5004 _ _ _ _)))).
    + reflexivity.
    + reflexivity.
    + reflexivity.
    + reflexivity.
Defined.

(** ** The back-off delay *)

Lemma pow2_pos a : (0 < pow2 a)%Q.
Proof.
  unfold pow2. change 0%Q with (inject_Z 0). rewrite <- Zlt_Qlt.
  apply Z.pow_pos_nonneg; lia.
Qed.





Example retry_delays_default :
  (calculateRetryDelay DEFAULT_CONFIG 0 0 == 1000)%Q /\
  (calculateRetryDelay DEFAULT_CONFIG 2 (1 # 2) == 4200)%Q /\
  (calculateRetryDelay DEFAULT_CONFIG 5 0 == 30000)%Q.
Proof. repeat split; reflexivity. Qed.

End BreakerProperties.

(* ================================================================== *)
(** * Properties of the session query engine *)

Section QueryEngineProperties.
Import JS SessionQueryEngine.
Context {rt : Runtime}.


(** The connection manager hands out [database]. *)
Definition connects (c : Sqlite.ConnectionResult) (database : Sqlite.Handle)
    : Prop :=
  Sqlite.success c = true /\ Sqlite.database c = Some database.



(** What the claim of the specification takes the page to be: an absent
    offset is 0, an absent limit is the full length, and a limit of 0
    yields nothing. *)
Definition page_as_specified (options : QueryOptions) (fetched : list Value)
    : list Value :=
  let o := match offset options with Some v => v | None => 0 end in
  let l := match limit options with
           | Some v => v
           | None => Z.of_nat (List.length fetched)
           end in
  slice fetched o (o + l).



Lemma triple_eta {A B C} (x : A * B * C) : x = (fst (fst x), snd (fst x), snd x).
Proof. now destruct x as [[a b] c]. Defined.


Lemma slice_all {A} (l : list A) :
  slice l 0 (0 + Z.of_nat (List.length l)) = l.
Proof.
  unfold slice, relative_index. cbn [Z.add].
  destruct (Z.of_nat (List.length l) <? 0) eqn:E; [apply Z.ltb_lt in E; lia|].
  change (0 <? 0) with false. cbv iota.
  rewrite Z.min_id, (Z.min_l 0) by lia. rewrite Z.sub_0_r, Z.max_l by lia.
  cbn [Z.to_nat skipn]. rewrite Nat2Z.id. apply firstn_all.
Qed.

Lemma slice_window {A} (l : list A) (o n : Z) :
  0 <= o -> 0 <= n ->
  slice l o (o + n) = firstn (Z.to_nat n) (skipn (Z.to_nat o) l).
Proof.
  intros Ho Hn. unfold slice, relative_index.
  destruct (o <? 0) eqn:E1; [apply Z.ltb_lt in E1; lia|].
  destruct (o + n <? 0) eqn:E2; [apply Z.ltb_lt in E2; lia|].
  set (len := Z.of_nat (List.length l)).
  destruct (Z_le_gt_dec len o) as [Hbig | Hsmall].
  - rewrite (skipn_all2 (n := Z.to_nat o)) by (subst len; lia).
    rewrite (skipn_all2 (n := Z.to_nat (Z.min o len))) by (subst len; lia).
    now rewrite !firstn_nil.
  - rewrite (Z.min_l o len) by lia.
    destruct (Z_le_gt_dec (o + n) len) as [Hfit | Hover].
    + rewrite Z.min_l by lia. f_equal. lia.
    + rewrite Z.min_r by lia.
      assert (Hlen : List.length (skipn (Z.to_nat o) l) = Z.to_nat (len - o)).
      { rewrite length_skipn. subst len. lia. }
      rewrite !firstn_all2; try reflexivity; rewrite Hlen; lia.
Qed.



(** C2 (as amended): whenever [getInteractiveSessions] succeeds, it has
    run one lookup, which fetched the whole array, and it returns the
    [slice] of that array from [offset] to [offset + limit], where an
    absent or zero offset is 0 and an absent or zero limit is the full
    length; [pagination.total] is the length of the full array.  For a
    non-negative offset and limit the slice is the [limit] elements that
    follow the first [offset]; a limit of 0 is no limit, so with no offset
    it returns every session. *)
Theorem pagination_in_memory :
  forall files c startTime now options e r e' reads,
  getInteractiveSessions files c startTime now options e = (r, e', reads) ->
  success r = true ->
  exists database fetched d,
    Sqlite.database c = Some database /\
    queryInteractiveSessionsRaw files database e
      = ({| raw_success := true; raw_data := Some fetched; raw_error := None |},
         e', reads) /\
    List.length reads = 1%nat /\
    data r = Some d /\
    let o := number_or (offset options) 0 in
    let l := number_or (limit options) (Z.of_nat (List.length fetched)) in
    sessions d = slice fetched o (o + l) /\
    total (pagination d) = Z.of_nat (List.length fetched) /\
    (0 <= o -> 0 <= l ->
       sessions d = firstn (Z.to_nat l) (skipn (Z.to_nat o) fetched)) /\
    (limit options = Some 0 -> number_truthy (offset options) = false ->
       sessions d = fetched).
Proof.
  intros files c startTime now options e r e' reads.
  unfold getInteractiveSessions.
  destruct (if Sqlite.success c then Sqlite.database c else None)
    as [database|] eqn:Hc; [| intros [= <- <- <-]; discriminate].
  destruct (queryInteractiveSessionsRaw files database e) as [[r0 e0] rd] eqn:E.
  destruct r0 as [ok0 [fetched|] err0]; cbn;
    destruct ok0; try (intros [= <- <- <-]; discriminate).
  assert (Hshape : err0 = None /\ List.length rd = 1%nat).
  { revert E. unfold queryInteractiveSessionsRaw.
    repeat match goal with
    | |- context [match ?x with _ => _ end] => destruct x
    end; intros [= <- <- <- <-]; auto; discriminate. }
  destruct Hshape as [-> Hone].
  assert (Hpage : paginate options fetched =
            slice fetched (number_or (offset options) 0)
              (number_or (offset options) 0
               + number_or (limit options) (Z.of_nat (List.length fetched)))).
  { unfold paginate, number_truthy, number_or.
    destruct (offset options) as [o|], (limit options) as [l|];
      repeat match goal with
      | |- context [?x =? 0] => destruct (x =? 0) eqn:?
      end; cbn [negb orb]; try reflexivity; symmetry; apply slice_all. }
  destruct (if includeMetadata options then _ else _) as [m | thrown];
    intros [= <- <- <-]; [| discriminate]. intros _.
  exists database, fetched. eexists. cbn. cbv zeta.
  repeat apply conj; try reflexivity.
  - destruct (Sqlite.success c); [assumption | discriminate].
  - assumption.
  - assumption.
  - exact Hpage.
  - intros Ho Hl. rewrite Hpage. now apply slice_window.
  - intros Hl Ho. rewrite Hpage. unfold number_truthy, number_or in *.
    rewrite Hl. cbn.
    destruct (offset options) as [o|].
    + destruct (o =? 0); [apply slice_all | discriminate].
    + apply slice_all.
Qed.



End QueryEngineProperties.

Section QueryEngineExamples.
Import JS SessionQueryEngine.
#[local] Existing Instance Samples.sample_runtime.


Lemma pagination_in_memory_witness :
  let r := fst (fst (getInteractiveSessions
                       (Samples.store [("interactive.sessions", Some "[1,2,3]")])
                       Samples.connected 0 5
                       {| limit := Some 1; offset := Some 1;
                          includeMetadata := false |} newEngine)) in
  exists d, data r = Some d /\ sessions d = [Number 2].
Proof.
  cbv zeta.
  destruct (pagination_in_memory (rt := Samples.sample_runtime)
              (Samples.store [("interactive.sessions", Some "[1,2,3]")])
              Samples.connected 0 5
              {| limit := Some 1; offset := Some 1; includeMetadata := false |}
              newEngine _ _ _ (triple_eta _) eq_refl)
    as (database & fetched & d & _ & Hraw & _ & Hd & Hs & _).
  exists d. split; [exact Hd|].
  injection Hraw as <- _ _. exact Hs.
Defined.

(** C2 (as stated) fails for a limit of 0: the store holds three sessions,
    the call asks for [limit = 0], and the three are returned where the
    claim expects none. *)
Lemma limit_zero_returns_all :
  let options := {| limit := Some 0; offset := None; includeMetadata := false |} in
  let fetched := [Number 1; Number 2; Number 3] in
  let r := fst (fst (getInteractiveSessions
                       (Samples.store [("interactive.sessions", Some "[1,2,3]")])
                       Samples.connected 0 5 options newEngine)) in
  page_as_specified options fetched = [] /\
  success r = true /\
  exists d, data r = Some d /\ sessions d = fetched /\
            sessions d <> page_as_specified options fetched.
Proof.
  cbv zeta. split; [reflexivity | split; [reflexivity |]].
  eexists. split; [reflexivity | split; [reflexivity | discriminate]].
Qed.

End QueryEngineExamples.

(* ================================================================== *)
(** * Properties of the session data parser *)

Section ParserProperties.
Import JS SessionDataParser.
Context {rt : Runtime}.

(** The raw input of the scenario:
    [[{id: 's1', messages: [{role: 'user', content: 'hi'},
                            {role: 'assistant', content: 'hello'}]}]]. *)
Definition scenario_input : Value :=
  Array [Object [("id", Str "s1");
                 ("messages",
                  Array [Object [("role", Str "user"); ("content", Str "hi")];
                         Object [("role", Str "assistant");
                                 ("content", Str "hello")]])]].

(** C9: with the default options the input of the scenario parses to one
    session, with id "s1", its two messages, and the derived counts
    2 / 1 / 1. *)
Theorem scenario_parses_to_one_session :
  forall now startTime,
  let r := parseSessionData DEFAULT_VALIDATION_OPTIONS now startTime
             scenario_input in
  success r = true /\ error r = None /\
  exists s, data r = Some [s] /\
    id s = "s1" /\
    messages s = [ {| role := user; content := "hi"; timestamp := None |};
                   {| role := assistant; content := "hello";
                      timestamp := None |} ] /\
    exists m, metadata s = Some m /\
      messageCount m = 2 /\ userMessageCount m = 1 /\
      assistantMessageCount m = 1 /\ totalCharacters m = 7.
Proof.
  intros now startTime. cbv zeta.
  split; [reflexivity | split; [reflexivity |]].
  eexists. split; [reflexivity |].
  split; [reflexivity | split; [reflexivity |]].
  eexists. split; [reflexivity |].
  repeat split.
Qed.


(** ** Messages with a role other than user or assistant *)

(** What makes a raw message valid: an object whose [role] is exactly
    'user' or 'assistant' and whose [content] is a string. *)
Definition well_formed_message (m : Value) : bool :=
  match m with
  | Object fields =>
      (strict_equal (lookup "role" fields) "user"
       || strict_equal (lookup "role" fields) "assistant")
      && is_string (lookup "content" fields)
  | _ => false
  end.

(** The role is neither exactly 'user' nor exactly 'assistant'; 'system'
    is such a role, and so is a missing one. *)
Definition foreign_role (m : Value) : Prop :=
  get m "role" <> Str "user" /\ get m "role" <> Str "assistant".

(** A numeric session timestamp is a time value [toISOString] accepts. *)
Definition in_date_range (v : Value) : Prop :=
  match v with
  | Number n => Z.abs n <= 8640000000000000
  | _ => True
  end.

(** The session can get an id under the options. *)
Definition id_available (options : ValidationOptions)
    (fields : list (string * Value)) : Prop :=
  requireSessionId options = false \/
  text_of (lookup "id" fields) <> None \/
  text_of (lookup "sessionId" fields) <> None.

Section Messages.
Variable options : ValidationOptions.
Variable now : Z.

(** The messages that [parseMessages] keeps, in order. *)
Definition kept (items : list Value) : list ChatMessage :=
  flat_map (fun m =>
              match value (parseIndividualMessage options now m 0) with
              | Some parsed => [parsed]
              | None => []
              end) items.

(** The warning of lenient mode for the message at index [i]. *)
Definition skip_warning (m : Value) (i : nat) : string :=
  ("Skipped invalid message at index " ++ String_of_Z (Z.of_nat i) ++ ": "
   ++ print_optional (problem (parseIndividualMessage options now m i)))%string.

(** The warnings lenient mode collects from index [i] on. *)
Fixpoint skipped (items : list Value) (i : nat) : list string :=
  match items with
  | [] => []
  | m :: rest =>
      (if well_formed_message m then []
       else or_empty (notes (parseIndividualMessage options now m i))
            ++ [skip_warning m i])
      ++ skipped rest (S i)
  end.

Lemma strict_equal_eq v text : strict_equal v text = true <-> v = Str text.
Proof.
  destruct v; cbn; try (split; [discriminate | intros [=]]).
  rewrite String.eqb_eq. split; [now intros -> | now intros [= ->]].
Qed.

Lemma strict_equal_truthy v text :
  text <> "" -> strict_equal v text = true -> truthy v = true.
Proof.
  intros Hne Heq. apply strict_equal_eq in Heq. subst v. cbn.
  apply negb_true_iff. now apply String.eqb_neq.
Qed.

Lemma message_index_irrelevant m i j :
  parseIndividualMessage options now m i = parseIndividualMessage options now m j.
Proof. reflexivity. Qed.

Lemma message_ok m i :
  ok (parseIndividualMessage options now m i) = well_formed_message m /\
  (well_formed_message m = true ->
     exists parsed, value (parseIndividualMessage options now m i) = Some parsed) /\
  (well_formed_message m = false ->
     value (parseIndividualMessage options now m i) = None).
Proof.
  unfold parseIndividualMessage, well_formed_message.
  destruct m as [| | b | n | s | items | fields];
    try (cbn; repeat split; (discriminate || reflexivity));
    try (destruct b; cbn; repeat split; (discriminate || reflexivity));
    try (cbn; destruct (n =? 0); cbn; repeat split; (discriminate || reflexivity));
    try (cbn; destruct (String.eqb s ""); cbn; repeat split;
         (discriminate || reflexivity)).
  cbn [truthy typeof negb orb String.eqb Ascii.eqb Bool.eqb get].
  destruct (strict_equal (lookup "role" fields) "user") eqn:Eu;
  destruct (strict_equal (lookup "role" fields) "assistant") eqn:Ea;
    try rewrite (strict_equal_truthy _ "user" ltac:(discriminate) Eu);
    try rewrite (strict_equal_truthy _ "assistant" ltac:(discriminate) Ea);
    cbn [negb orb andb].
  1-3: destruct (lookup "content" fields); cbn [ok value is_string];
       repeat split; try discriminate; try reflexivity; eauto.
  rewrite orb_true_r. cbn. repeat split; discriminate || reflexivity.
Qed.

Lemma foreign_role_ill_formed m : foreign_role m -> well_formed_message m = false.
Proof.
  intros [Hu Ha]. destruct m; try reflexivity. cbn in *.
  destruct (strict_equal (lookup "role" fields) "user") eqn:Eu.
  { apply strict_equal_eq in Eu. contradiction. }
  destruct (strict_equal (lookup "role" fields) "assistant") eqn:Ea.
  { apply strict_equal_eq in Ea. contradiction. }
  reflexivity.
Qed.

Lemma strict_messages_fail items : forall i acc w,
  strictMode options = true ->
  (exists m, In m items /\ well_formed_message m = false) ->
  ok (parseMessagesFrom options now items i acc w) = false /\
  value (parseMessagesFrom options now items i acc w) = None.
Proof.
  induction items as [|m rest IH]; intros i acc w Hstrict (bad & Hin & Hbad).
  - destruct Hin.
  - cbn [parseMessagesFrom].
    destruct (message_ok m i) as (Hok & Hsome & Hnone).
    destruct (well_formed_message m) eqn:Hm.
    + destruct (Hsome eq_refl) as [parsed Hv]. rewrite Hok, Hv.
      apply IH; [assumption|]. exists bad. split; [|assumption].
      destruct Hin as [-> | Hin]; [congruence | assumption].
    + rewrite Hok, Hstrict. cbn. split; reflexivity.
Qed.

(** In strict mode the first invalid message decides: the messages before
    it are valid, and the result carries its error. *)
Lemma strict_first_invalid before : forall bad after i acc w,
  strictMode options = true ->
  Forall (fun m => well_formed_message m = true) before ->
  well_formed_message bad = false ->
  parseMessagesFrom options now (before ++ bad :: after) i acc w
  = Build_Partial false None
      (Some (message_or
               (problem (parseIndividualMessage options now bad 0))
               ("Invalid message at index "
                ++ String_of_Z (Z.of_nat (i + List.length before)))%string))
      (Some (w ++ or_empty (notes (parseIndividualMessage options now bad 0)))).
Proof.
  induction before as [|m before IH]; intros bad after i acc w Hstrict Hall Hbad.
  - cbn [app parseMessagesFrom List.length].
    destruct (message_ok bad i) as (Hok & _ & _).
    rewrite Hok, Hbad, Hstrict, Nat.add_0_r. reflexivity.
  - inversion Hall as [|? ? Hm Hrest]; subst.
    cbn [app parseMessagesFrom List.length].
    destruct (message_ok m i) as (Hok & Hsome & _).
    destruct (Hsome Hm) as [parsed Hv]. rewrite Hok, Hm, Hv.
    rewrite IH by assumption. now rewrite Nat.add_succ_comm.
Qed.

Lemma lenient_messages items : forall i acc w,
  strictMode options = false ->
  parseMessagesFrom options now items i acc w
  = Build_Partial true (Some (acc ++ kept items)) None
      (some_if_any (w ++ skipped items i)).
Proof.
  induction items as [|m rest IH]; intros i acc w Hlenient.
  - cbn. now rewrite !app_nil_r.
  - cbn [parseMessagesFrom kept flat_map skipped].
    destruct (message_ok m i) as (Hok & Hsome & Hnone).
    rewrite (message_index_irrelevant m 0 i).
    destruct (well_formed_message m) eqn:Hm.
    + destruct (Hsome eq_refl) as [parsed Hv]. rewrite Hok, Hv.
      rewrite IH by assumption. cbn [app]. now rewrite <- app_assoc.
    + rewrite Hok, (Hnone eq_refl), Hlenient.
      rewrite IH by assumption. cbn [app]. unfold skip_warning.
      now rewrite <- !app_assoc.
Qed.

Lemma skipped_contains items : forall i k bad,
  nth_error items k = Some bad -> well_formed_message bad = false ->
  In (skip_warning bad (i + k)) (skipped items i).
Proof.
  induction items as [|m rest IH]; intros i k bad Hnth Hbad.
  - destruct k; discriminate.
  - destruct k as [|k]; cbn in Hnth.
    + injection Hnth as ->. cbn [skipped]. rewrite Hbad, Nat.add_0_r.
      apply in_or_app. left. apply in_or_app. right. now left.
    + cbn [skipped]. apply in_or_app. right.
      replace (i + S k)%nat with (S i + k)%nat by lia. now apply IH.
Qed.

Lemma kept_nonempty items :
  (exists m, In m items /\ well_formed_message m = true) -> kept items <> [].
Proof.
  induction items as [|m rest IH]; intros (good & Hin & Hgood).
  - destruct Hin.
  - cbn [kept flat_map].
    destruct (message_ok m 0) as (_ & Hsome & Hnone).
    destruct (well_formed_message m) eqn:Hm.
    + destruct (Hsome eq_refl) as [parsed ->]. discriminate.
    + rewrite (Hnone eq_refl). cbn [app]. apply IH.
      exists good. split; [|assumption].
      destruct Hin as [-> | Hin]; [congruence | assumption].
Qed.

Lemma timestamps_in_range fields :
  in_date_range (lookup "createdAt" fields) ->
  in_date_range (lookup "lastModified" fields) ->
  exists ts, parseTimestamps (Object fields) = inl ts.
Proof.
  intros Hc Hm. unfold parseTimestamps, parseTimestampField, toISOString.
  cbn [get].
  assert (Hfield : forall v, in_date_range v ->
            exists f, (if truthy v then
                         match v with
                         | Str s => inl (Some s)
                         | Number n =>
                             match (if Z.abs n <=? 8640000000000000
                                    then inl (ISO_format n)
                                    else inr "Invalid time value") with
                             | inl text => inl (Some text)
                             | inr thrown => inr thrown
                             end
                         | _ => inl None
                         end
                       else inl None) = (inl f : option string + string)).
  { intros v Hv. destruct (truthy v); [| eauto].
    destruct v; eauto. cbn in Hv. apply Z.leb_le in Hv. rewrite Hv. eauto. }
  destruct (Hfield _ Hc) as [c ->]. destruct (Hfield _ Hm) as [l ->]. eauto.
Qed.

End Messages.


Lemma text_of_nonempty v s : text_of v = Some s -> s <> "".
Proof.
  destruct v; cbn; try discriminate.
  destruct (String.eqb s0 "") eqn:E; [discriminate|].
  intros [= <-]. now apply String.eqb_neq.
Qed.

Lemma session_id_found options now fields index :
  id_available options fields ->
  requireSessionId options
  && match extractSessionId options now (Object fields) index with
     | Some s => String.eqb s ""
     | None => true
     end = false.
Proof.
  intros [Hnot | Hid]; [now rewrite Hnot|].
  apply andb_false_iff. right. unfold extractSessionId. cbn [get].
  destruct (text_of (lookup "id" fields)) as [s|] eqn:E1.
  - apply String.eqb_neq. eapply text_of_nonempty; eauto.
  - destruct (text_of (lookup "sessionId" fields)) as [s|] eqn:E2.
    + apply String.eqb_neq. eapply text_of_nonempty; eauto.
    + destruct Hid; congruence.
Qed.

(** The last sentence of the claim as it is written: in lenient mode a
    session with a valid message and an id parses successfully. *)
Definition lenient_session_survives : Prop :=
  forall options now fields items index,
  strictMode options = false ->
  lookup "messages" fields = Array items ->
  (exists good, In good items /\ well_formed_message good = true) ->
  id_available options fields ->
  ok (parseIndividualSession options now (Object fields) index) = true.

(** C8 (as amended): a raw message whose role is not exactly 'user' or
    'assistant' is invalid under every setting of the options.  In strict
    mode a session that holds such a message fails, and [parseMessages]
    fails with the error of the first invalid message.  In lenient mode
    [parseMessages] succeeds, keeps the valid messages and records a
    warning for each one it skips; the session then parses successfully
    when at least one message is valid, an id is available, and its
    numeric [createdAt] and [lastModified], if any, are time values in
    the range of dates. *)
Theorem foreign_role_message_is_invalid :
  forall options now,
  (forall m i, foreign_role m ->
     ok (parseIndividualMessage options now m i) = false /\
     value (parseIndividualMessage options now m i) = None) /\
  (strictMode options = true ->
   forall sessionData items bad index,
     get sessionData "messages" = Array items -> In bad items ->
     foreign_role bad ->
     ok (parseIndividualSession options now sessionData index) = false /\
     value (parseIndividualSession options now sessionData index) = None) /\
  (strictMode options = true ->
   forall before bad after,
     Forall (fun m => well_formed_message m = true) before ->
     foreign_role bad ->
     ok (parseMessages options now (Array (before ++ bad :: after))) = false /\
     (problem (parseMessages options now (Array (before ++ bad :: after)))
        = Some ("Invalid or missing role: " ++ String_ (get bad "role"))%string
      \/ problem (parseMessages options now (Array (before ++ bad :: after)))
         = Some "Message data is not an object")) /\
  (strictMode options = false ->
   forall items,
     ok (parseMessages options now (Array items)) = true /\
     value (parseMessages options now (Array items)) = Some (kept options now items) /\
     forall k bad, nth_error items k = Some bad -> foreign_role bad ->
       exists w, notes (parseMessages options now (Array items)) = Some w /\
                 In (skip_warning options now bad k) w) /\
  (strictMode options = false ->
   forall fields items index,
     lookup "messages" fields = Array items ->
     (exists good, In good items /\ well_formed_message good = true) ->
     id_available options fields ->
     in_date_range (lookup "createdAt" fields) ->
     in_date_range (lookup "lastModified" fields) ->
     exists s,
       parseIndividualSession options now (Object fields) index
         = Build_Partial true (Some s) None None /\
       messages s = kept options now items /\ messages s <> []).
Proof.
  intros options now. repeat apply conj.
  - intros m i Hrole. apply foreign_role_ill_formed in Hrole.
    destruct (message_ok options now m i) as (Hok & _ & Hnone).
    rewrite Hok. auto.
  - intros Hstrict sessionData items bad index Hmsgs Hin Hrole.
    apply foreign_role_ill_formed in Hrole.
    unfold parseIndividualSession.
    destruct (negb (truthy sessionData) || _); [split; reflexivity|].
    destruct (requireSessionId options && _); [split; reflexivity|].
    rewrite Hmsgs. unfold or_else. cbn [truthy parseMessages].
    destruct (strict_messages_fail options now items 0 [] [] Hstrict
                (ex_intro _ bad (conj Hin Hrole))) as [Hok Hval].
    rewrite Hok. split; reflexivity.
  - intros Hstrict before bad after Hall Hrole.
    pose proof (foreign_role_ill_formed _ Hrole) as Hbad.
    cbn [parseMessages].
    rewrite (strict_first_invalid options now before bad after 0 [] []
               Hstrict Hall Hbad).
    cbn [ok problem]. split; [reflexivity|].
    unfold parseIndividualMessage.
    destruct (negb (truthy bad) || _); [right; reflexivity|].
    destruct Hrole as [Hu Ha].
    assert (Eu : strict_equal (get bad "role") "user" = false).
    { destruct (strict_equal (get bad "role") "user") eqn:E; [|reflexivity].
      apply strict_equal_eq in E. contradiction. }
    assert (Ea : strict_equal (get bad "role") "assistant" = false).
    { destruct (strict_equal (get bad "role") "assistant") eqn:E; [|reflexivity].
      apply strict_equal_eq in E. contradiction. }
    rewrite Eu, Ea. cbn [negb andb]. rewrite orb_true_r.
    left. reflexivity.
  - intros Hlenient items. cbn [parseMessages].
    rewrite (lenient_messages options now items 0 [] [] Hlenient).
    cbn [ok value notes app]. repeat split.
    intros k bad Hnth Hrole. apply foreign_role_ill_formed in Hrole.
    pose proof (skipped_contains options now items 0 k bad Hnth Hrole) as Hin.
    cbn [Nat.add] in Hin.
    destruct (skipped options now items 0) as [|w0 ws]; [destruct Hin|].
    eexists. split; [reflexivity | exact Hin].
  - intros Hlenient fields items index Hmsgs Hgood Hid Hc Hm.
    destruct (timestamps_in_range fields Hc Hm) as [[createdAt lastModified] Hts].
    pose proof (kept_nonempty options now items Hgood) as Hkept.
    unfold parseIndividualSession.
    cbn [truthy typeof negb orb String.eqb Ascii.eqb Bool.eqb].
    rewrite (session_id_found options now fields index Hid).
    cbn [get]. rewrite Hmsgs. unfold or_else. cbn [truthy parseMessages].
    rewrite (lenient_messages options now items 0 [] [] Hlenient).
    cbn [ok value app].
    destruct (kept options now items) as [|m0 ms] eqn:Ek; [contradiction|].
    cbn [List.length Nat.eqb andb]. rewrite andb_false_r, Hts.
    eexists. split; [reflexivity|]. cbn [messages]. split; [reflexivity|].
    discriminate.
Qed.

End ParserProperties.

Section ParserExamples.
Import JS SessionDataParser.
#[local] Existing Instance Samples.sample_runtime.

(** Lenient parsing with an id required, and a session that holds a
    'system' message followed by a valid one. *)
Definition lenient_options : ValidationOptions := {|
  strictMode := false;
  allowEmptySessions := false;
  validateTimestamps := true;
  requireSessionId := true
|}.

Definition mixed_messages : list Value :=
  [Object [("role", Str "system"); ("content", Str "be brief")];
   Object [("role", Str "user"); ("content", Str "hi")]].

Lemma foreign_role_message_is_invalid_witness :
  exists s,
    parseIndividualSession lenient_options 1700000000000
      (Object [("id", Str "s1"); ("messages", Array mixed_messages)]) 0
    = Build_Partial true (Some s) None None /\
    messages s = [ {| role := user; content := "hi"; timestamp := None |} ].
Proof.
  destruct (foreign_role_message_is_invalid (rt := Samples.sample_runtime)
              lenient_options 1700000000000) as (_ & _ & _ & _ & Hsession).
  destruct (Hsession eq_refl
              [("id", Str "s1"); ("messages", Array mixed_messages)]
              mixed_messages 0%nat eq_refl) as (s & Hs & Hm & _).
  - exists (Object [("role", Str "user"); ("content", Str "hi")]).
    split; [right; left; reflexivity | reflexivity].
  - right; left; discriminate.
  - exact I.
  - exact I.
  - exists s. split; [exact Hs | exact Hm].
Defined.

(** C8 (as stated) fails in its last part: the session below is lenient,
    has an id and a valid message, and still fails, because its numeric
    [createdAt] is beyond the range of dates, [toISOString] throws and
    the session's catch-all turns that into a failure. *)
Lemma lenient_session_with_bad_date_fails :
  ~ lenient_session_survives.
Proof.
  intros H.
  specialize (H lenient_options 1700000000000
                [("id", Str "s1"); ("createdAt", Number (10 ^ 20));
                 ("messages", Array mixed_messages)]
                mixed_messages 0%nat eq_refl eq_refl).
  assert (Hgood : exists good, In good mixed_messages /\
                               well_formed_message good = true).
  { exists (Object [("role", Str "user"); ("content", Str "hi")]).
    split; [right; left; reflexivity | reflexivity]. }
  assert (Hid : id_available lenient_options
                  [("id", Str "s1"); ("createdAt", Number (10 ^ 20));
                   ("messages", Array mixed_messages)]).
  { right; left; discriminate. }
  specialize (H Hgood Hid). vm_compute in H. discriminate H.
Qed.

Example lenient_session_with_bad_date :
  parseIndividualSession lenient_options 1700000000000
    (Object [("id", Str "s1"); ("createdAt", Number (10 ^ 20));
             ("messages", Array mixed_messages)]) 0
  = Build_Partial false None
      (Some "Failed to parse session: Invalid time value") (Some []).
Proof. vm_compute. reflexivity. Qed.

End ParserExamples.

(* ================================================================== *)
(** * Properties of the reader facade *)

Section ReaderProperties.
Import JS DatabaseReader.
Context {rt : Runtime}.

(** The query layer succeeds for the call and yields no session. *)
Definition query_yields_nothing (w : Surroundings) (r : Reader) : Prop :=
  exists q e reads d,
    SessionQueryEngine.getInteractiveSessions (files w) (connection w)
      (startTime w) (endTime w)
      {| SessionQueryEngine.limit := None;
         SessionQueryEngine.offset := None;
         SessionQueryEngine.includeMetadata := true |}
      (queryEngine r) = (q, e, reads) /\
    SessionQueryEngine.success q = true /\
    SessionQueryEngine.data q = Some d /\
    SessionQueryEngine.sessions d = [].

Lemma internal_fails_on_nothing w r :
  query_yields_nothing w r ->
  let result := fst (fst (getSessionsInternal w r)) in
  success result = false /\ sessions result = None /\
  error result = Some "No valid sessions could be parsed".
Proof.
  intros (q & e & reads & d & Hq & Hs & Hd & Hnone).
  unfold getSessionsInternal. rewrite Hq, Hs, Hd, Hnone. cbn.
  repeat split.
Qed.

(** Without the breaker [getSessions] is [getSessionsInternal]: an empty
    result of the query layer is reported as a failure. *)
Lemma unguarded_reader_fails_on_nothing w r :
  enableCircuitBreaker (config r) = false ->
  query_yields_nothing w r ->
  let result := fst (getSessions w r) in
  success result = false /\ sessions result = None /\
  error result = Some "No valid sessions could be parsed".
Proof.
  intros Hoff Hnothing.
  pose proof (internal_fails_on_nothing w r Hnothing) as H.
  unfold getSessions. rewrite Hoff.
  destruct (getSessionsInternal w r) as [[result e] reads]. exact H.
Qed.

(** With the breaker, which is the default, the promise of
    [getSessionsInternal] resolves, the breaker counts a success, and the
    facade copies the breaker's [success]: the failure of the inner
    result is lost, and [sessions] and [error] are both absent. *)
(** A call whose first attempt resolves, on a breaker that is not OPEN. *)
Lemma execute_resolves_at_once T cfg name (c : DatabaseCircuitBreaker.Call T) b v :
  0 <= DatabaseCircuitBreaker.maxRetries cfg ->
  DatabaseCircuitBreaker.state b <> DatabaseCircuitBreaker.OPEN ->
  DatabaseCircuitBreaker.settles c 0 = DatabaseCircuitBreaker.Resolved v ->
  let b1 := DatabaseCircuitBreaker.set_totalCalls
              (DatabaseCircuitBreaker.totalCalls b + 1) b in
  let b' := DatabaseCircuitBreaker.onSuccess cfg
              (DatabaseCircuitBreaker.settledAt c 0) b1 in
  DatabaseCircuitBreaker.execute cfg name c b
  = ({| DatabaseCircuitBreaker.success := true;
        DatabaseCircuitBreaker.data := Some v;
        DatabaseCircuitBreaker.error := None;
        DatabaseCircuitBreaker.circuitState := DatabaseCircuitBreaker.state b';
        DatabaseCircuitBreaker.retryAttempt := Some 0 |},
     b', [DatabaseCircuitBreaker.Invoke 0]).
Proof.
  intros Hmax Hstate Hres. cbv zeta.
  unfold DatabaseCircuitBreaker.execute, DatabaseCircuitBreaker.checkOpen.
  cbn [DatabaseCircuitBreaker.state DatabaseCircuitBreaker.set_totalCalls].
  unfold DatabaseCircuitBreaker.executeWithRetries.
  destruct (Z.to_nat (DatabaseCircuitBreaker.maxRetries cfg + 1))
    as [|n] eqn:En; [lia|].
  destruct (DatabaseCircuitBreaker.state b) eqn:E; try congruence;
    cbn [DatabaseCircuitBreaker.retryLoop]; rewrite Hres; reflexivity.
Qed.

Lemma guarded_reader_succeeds_on_nothing w r :
  enableCircuitBreaker (config r) = true ->
  DatabaseCircuitBreaker.state (circuitBreaker r)
    <> DatabaseCircuitBreaker.OPEN ->
  query_yields_nothing w r ->
  let result := fst (getSessions w r) in
  success result = true /\ sessions result = None /\ error result = None.
Proof.
  intros Hon Hstate Hnothing.
  destruct (internal_fails_on_nothing w r Hnothing) as (_ & Hsessions & _).
  unfold getSessions. rewrite Hon.
  rewrite (execute_resolves_at_once _ DatabaseCircuitBreaker.DEFAULT_CONFIG
             "get_sessions" (getSessions_call w r) (circuitBreaker r)
             (fst (fst (getSessionsInternal w r))) ltac:(cbn; lia) Hstate eq_refl).
  cbn [fst DatabaseCircuitBreaker.success DatabaseCircuitBreaker.data
       DatabaseCircuitBreaker.error success sessions error].
  rewrite Hsessions. repeat split.
Qed.

End ReaderProperties.

Section ReaderExamples.
Import JS DatabaseReader.
#[local] Existing Instance Samples.sample_runtime.

(** C10, evaluated: a fresh reader with the default configuration reads a
    store that has no row for 'interactive.sessions'.  The query layer
    yields an empty array, the parser reports "No valid sessions could be
    parsed", and [getSessions] nevertheless returns [success = true],
    without sessions and without an error. *)
Lemma getSessions_empty_store_default_config :
  let w := Samples.surroundings [] in
  let internal := fst (fst (getSessionsInternal w (newReader default_config 1))) in
  let result := fst (getSessions w (newReader default_config 1)) in
  (success internal = false /\
   error internal = Some "No valid sessions could be parsed") /\
  (success result = true /\ sessions result = None /\ error result = None).
Proof. vm_compute. repeat split. Qed.

(** The same call on a reader built with [enableCircuitBreaker: false]
    returns the failure. *)
Example getSessions_empty_store_without_breaker :
  let w := Samples.surroundings [] in
  let reader := newReader {| enableCircuitBreaker := false;
                             strictParsing := true;
                             cacheConnections := true |} 1 in
  let result := fst (getSessions w reader) in
  success result = false /\ sessions result = None /\
  error result = Some "No valid sessions could be parsed".
Proof. vm_compute. repeat split. Qed.

End ReaderExamples.

(* ================================================================== *)
(** * Properties of the workspace resolver *)

Section WorkspaceIdProperties.
Import Node WorkspaceResolver.

(** The digests of RFC 1321's test suite. *)
Example md5_test_suite :
  hex (md5 (bytes_of_string "")) = "d41d8cd98f00b204e9800998ecf8427e" /\
  hex (md5 (bytes_of_string "abc")) = "900150983cd24fb0d6963f7d28e17f72" /\
  hex (md5 (bytes_of_string "message digest"))
    = "f96b697d7cb7938d525a2f31aaf161d0" /\
  hex (md5 (bytes_of_string
              "12345678901234567890123456789012345678901234567890123456789012345678901234567890"))
    = "57edf4a22be3c955ac49da2e2107b67a".
Proof. vm_compute. repeat split. Qed.

Example resolve_examples :
  resolve "/work" "/Home/User//Project/./src/../" = "/Home/User/Project" /\
  resolve "/work" "a/b" = "/work/a/b" /\
  resolve "/work" "" = "/work" /\
  resolve "/work" "/../.." = "/".
Proof. vm_compute. repeat split. Qed.



































Example workspace_id_example :
  generateWorkspaceId "/work" "/Home/User/Project/"
  = "90722f2638004be06d790eaac9ac1f8a".
Proof. vm_compute. reflexivity. Qed.

End WorkspaceIdProperties.

(* ================================================================== *)
(** * Further properties of the circuit breaker *)

Section BreakerCounters.
Import DatabaseCircuitBreaker BreakerHistory.

Ltac methods_unfold :=
  unfold onFailure, onSuccess, checkOpen, reset, open in *;
  unfold cleanupOldFailures, setState, shouldAttemptReset in *;
  unfold falsy_time in *; cbn in *.

Ltac methods_cases :=
  repeat match goal with
  | |- context [match ?x with _ => _ end] => destruct x eqn:?; cbn in *
  | H : context [match ?x with _ => _ end] |- _ => destruct x eqn:?; cbn in *
  end.

Ltac arith_hyps :=
  repeat match goal with
  | H : Some _ = Some _ |- _ => inversion H; clear H; subst; cbn in *
  | H : (_ <=? _) = true |- _ => apply Z.leb_le in H
  | H : (_ <=? _) = false |- _ => apply Z.leb_gt in H
  | H : (_ <? _) = true |- _ => apply Z.ltb_lt in H
  | H : (_ <? _) = false |- _ => apply Z.ltb_ge in H
  | H : (_ =? _) = true |- _ => apply Z.eqb_eq in H
  | H : (_ =? _) = false |- _ => apply Z.eqb_neq in H
  end.

(** Some attempt within the retry budget resolves. *)
Definition succeeds {T} (cfg : CircuitBreakerConfig) (c : Call T) : Prop :=
  exists k v, Z.of_nat k <= maxRetries cfg /\ first_resolved c k v.

(** What the counters of a breaker satisfy. *)
Definition counters_consistent (b : Breaker) : Prop :=
  0 <= totalSuccesses b /\ 0 <= totalFailures b /\
  totalSuccesses b + totalFailures b <= totalCalls b /\
  successCount b = totalSuccesses b /\
  0 <= failureCount b <= totalFailures b /\
  0 <= consecutiveSuccesses b <= totalSuccesses b /\
  (state b = OPEN -> consecutiveSuccesses b = 0).

Lemma execute_success_breaker T cfg name (c : Call T) b b1 :
  checkOpen cfg (calledAt c) (set_totalCalls (totalCalls b + 1) b) = Some b1 ->
  succeeds cfg c ->
  exists k, Z.of_nat k <= maxRetries cfg /\
    breaker_after cfg name c b = onSuccess cfg (settledAt c k) b1 /\
    success (result_of cfg name c b) = true /\
    invocations (effects_of cfg name c b) = S k.
Proof.
  intros Hadm (k & v & Hk & Hres & Hrej).
  unfold breaker_after, result_of, effects_of.
  rewrite (execute_admitted _ _ name _ _ _ Hadm).
  pose proof (retryLoop_first_resolved _ cfg name c k
                (Z.to_nat (maxRetries cfg + 1)) 0 (calledAt c) None b1 v) as H.
  destruct (retryLoop cfg name c (Z.to_nat (maxRetries cfg + 1)) 0
              (calledAt c) None b1) as [[r b'] tr].
  destruct H as (Hs & _ & Hb & _ & _ & Hi); [lia | assumption | assumption |].
  exists k. cbn. auto.
Qed.

Lemma execute_failure_breaker T cfg name (c : Call T) b b1 :
  checkOpen cfg (calledAt c) (set_totalCalls (totalCalls b + 1) b) = Some b1 ->
  always_rejected cfg c ->
  exists t, (t = calledAt c \/ exists i, t = settledAt c i) /\
    breaker_after cfg name c b = onFailure cfg t b1 /\
    success (result_of cfg name c b) = false.
Proof.
  intros Hadm Hrej.
  unfold breaker_after, result_of.
  rewrite (execute_admitted _ _ name _ _ _ Hadm).
  set (n := Z.to_nat (maxRetries cfg + 1)).
  pose proof (retryLoop_all_rejected _ cfg name c n 0 (calledAt c) None b1) as H.
  destruct (retryLoop cfg name c n 0 (calledAt c) None b1) as [[r b'] tr].
  destruct H as (Hs & _ & Hb & _ & _).
  { intros i Hi. apply Hrej. lia. }
  exists (exhausted_at _ c n 0 (calledAt c)). cbn.
  repeat split; try assumption.
  unfold exhausted_at. destruct n; eauto.
Qed.

Lemma onSuccess_consistent cfg now b :
  state b <> OPEN ->
  totalSuccesses b + totalFailures b < totalCalls b ->
  counters_consistent b -> counters_consistent (onSuccess cfg now b).
Proof.
  unfold counters_consistent. intros Hs Hlt (H1 & H2 & H3 & H4 & H5 & H6 & H7).
  methods_unfold. methods_cases; arith_hyps; repeat split; try lia; try congruence.
Qed.

Lemma onFailure_consistent cfg now b :
  totalSuccesses b + totalFailures b < totalCalls b ->
  counters_consistent b -> counters_consistent (onFailure cfg now b).
Proof.
  unfold counters_consistent. intros Hlt (H1 & H2 & H3 & H4 & H5 & H6 & H7).
  methods_unfold. methods_cases; arith_hyps; repeat split; try lia; try congruence.
Qed.


Lemma checkOpen_consistent cfg now b b1 :
  checkOpen cfg now b = Some b1 ->
  counters_consistent b ->
  counters_consistent b1 /\ totalCalls b1 = totalCalls b /\
  totalSuccesses b1 = totalSuccesses b /\ totalFailures b1 = totalFailures b.
Proof.
  unfold counters_consistent. intros Hadm (H1 & H2 & H3 & H4 & H5 & H6 & H7).
  revert Hadm. methods_unfold. methods_cases; intros; arith_hyps;
    repeat split; try lia; try congruence.
Qed.

(** One call of [execute] keeps the counters consistent. *)
Lemma execute_consistent T cfg name (c : Call T) b :
  counters_consistent b -> counters_consistent (breaker_after cfg name c b).
Proof.
  intros IH.
  assert (Hbumped : counters_consistent (set_totalCalls (totalCalls b + 1) b)).
  { unfold counters_consistent in *. cbn. intuition lia. }
  unfold breaker_after.
  destruct (checkOpen cfg (calledAt c) (set_totalCalls (totalCalls b + 1) b))
    as [b1|] eqn:Hadm.
  - rewrite (execute_admitted _ _ name _ _ _ Hadm).
    destruct (checkOpen_consistent _ _ _ _ Hadm Hbumped)
      as (Hb1 & Hcalls & Hsucc & Hfail).
    cbn in Hcalls, Hsucc, Hfail.
    assert (Hroom : totalSuccesses b1 + totalFailures b1 < totalCalls b1).
    { unfold counters_consistent in IH. lia. }
    destruct (retryLoop_reports_once _ cfg name c
                (Z.to_nat (maxRetries cfg + 1)) 0 (calledAt c) None b1)
      as (t & _ & [Hr | Hr]); cbv zeta in Hr; rewrite Hr.
    + apply onSuccess_consistent; try assumption.
      eapply checkOpen_not_open; eauto.
    + now apply onFailure_consistent.
  - rewrite (execute_blocked _ _ name _ _ Hadm). exact Hbumped.
Qed.

(** An OPEN breaker that [execute] has driven has no consecutive
    success. *)
Lemma open_without_successes cfg b :
  reachable cfg b -> state b = OPEN -> consecutiveSuccesses b = 0.
Proof.
  intros Hreach.
  assert (Hall : counters_consistent b).
  { induction Hreach as [t0 Ht0 | b Hb IH | b now b1 Hb IH Hnow Hadm
                        | T name c b Hb IH Hclock].
    - unfold counters_consistent. cbn. repeat split; try lia; discriminate.
    - unfold counters_consistent in *. cbn. intuition lia.
    - now apply (checkOpen_consistent cfg now b b1).
    - now apply execute_consistent. }
  apply Hall.
Qed.

(** The counters of every breaker that is driven by [execute]: the
    recorded successes and failures never exceed the calls (the calls that
    were blocked make the difference), [successCount] is the number of
    successes, the failure count and the consecutive successes are bounded
    by the totals, and an OPEN breaker has no consecutive success. *)
Theorem reachable_counters_consistent :
  forall cfg b, reachable cfg b -> counters_consistent b.
Proof.
  intros cfg b Hreach.
  induction Hreach as [t0 Ht0 | b Hb IH | b now b1 Hb IH Hnow Hadm
                      | T name c b Hb IH Hclock].
  - unfold counters_consistent. cbn. repeat split; try lia; discriminate.
  - unfold counters_consistent in *. cbn. intuition lia.
  - now apply (checkOpen_consistent cfg now b b1).
  - now apply execute_consistent.
Qed.

Lemma reachable_counters_consistent_witness :
  counters_consistent
    (run DEFAULT_CONFIG "get_sessions" aged_out_history (newBreaker 1)).
Proof.
  exact (reachable_counters_consistent DEFAULT_CONFIG _
           aged_out_history_reachable).
Defined.

(** ** Only consecutive failures open the breaker *)

Lemma succeeding_execute_closed T cfg name (c : Call T) b :
  state b = CLOSED -> succeeds cfg c ->
  state (breaker_after cfg name c b) = CLOSED /\
  failureCount (breaker_after cfg name c b) = 0.
Proof.
  intros Hs Hok.
  assert (Hadm : checkOpen cfg (calledAt c)
                   (set_totalCalls (totalCalls b + 1) b)
                 = Some (set_totalCalls (totalCalls b + 1) b)).
  { unfold checkOpen. cbn. now rewrite Hs. }
  destruct (execute_success_breaker T cfg name c b _ Hadm Hok)
    as (k & _ & -> & _).
  clear Hadm Hok. destruct b; cbn in Hs; subst.
  methods_unfold. methods_cases; arith_hyps; split; reflexivity || congruence.
Qed.

(** A success while CLOSED clears the failure count, so that fewer than
    [failureThreshold] failing calls, a succeeding call and again fewer
    than [failureThreshold] failing calls leave the breaker CLOSED,
    however many failures that makes in all. *)
Theorem interrupted_failures_stay_closed :
  forall T cfg name (before after : list (Call T)) (c : Call T) b,
  0 <= monitoringWindow cfg ->
  state b = CLOSED -> failureCount b = 0 ->
  Forall (always_rejected cfg) before -> Forall (always_rejected cfg) after ->
  succeeds cfg c ->
  Z.of_nat (List.length before) < failureThreshold cfg ->
  Z.of_nat (List.length after) < failureThreshold cfg ->
  let b' := run cfg name (before ++ c :: after) b in
  state b' = CLOSED /\ failureCount b' = Z.of_nat (List.length after).
Proof.
  intros T cfg name before after c b Hw Hs Hc Hbefore Hafter Hok Hlb Hla.
  cbv zeta. unfold run. rewrite fold_left_app. cbn [fold_left].
  fold (run cfg name before b).
  destruct (failing_calls_accumulate T cfg name before b Hw Hs Hbefore)
    as [Hs1 _]; [lia|].
  destruct (succeeding_execute_closed T cfg name c _ Hs1 Hok) as [Hs2 Hc2].
  fold (run cfg name after (breaker_after cfg name c (run cfg name before b))).
  destruct (failing_calls_accumulate T cfg name after _ Hw Hs2 Hafter)
    as [Hs3 Hc3]; [lia|].
  split; [assumption | lia].
Qed.

Lemma interrupted_failures_stay_closed_witness :
  state (run DEFAULT_CONFIG "get_sessions"
           (map failing_call [1000; 2000; 3000; 4000]
            ++ succeeding_call 5000 :: map failing_call [6000; 7000; 8000; 9000])
           (newBreaker 1)) = CLOSED.
Proof.
  refine (proj1 (interrupted_failures_stay_closed unit DEFAULT_CONFIG
            "get_sessions" (map failing_call [1000; 2000; 3000; 4000])
            (map failing_call [6000; 7000; 8000; 9000]) (succeeding_call 5000)
            (newBreaker 1) _ eq_refl eq_refl _ _ _ _ _)).
  - cbn; lia.
  - repeat constructor; intros i _; exists "SQLITE_BUSY"%string; reflexivity.
  - repeat constructor; intros i _; exists "SQLITE_BUSY"%string; reflexivity.
  - exists 0%nat, tt. split; [cbn; lia |]. split; [reflexivity |].
    intros i Hi. lia.
  - cbn; lia.
  - cbn; lia.
Defined.


(** ** Recovery *)

Lemma half_open_success T cfg name (c : Call T) b :
  state b = HALF_OPEN -> succeeds cfg c ->
  let b' := breaker_after cfg name c b in
  (successThreshold cfg <= consecutiveSuccesses b + 1 ->
     state b' = CLOSED /\ failureCount b' = 0 /\ consecutiveSuccesses b' = 0) /\
  (consecutiveSuccesses b + 1 < successThreshold cfg ->
     state b' = HALF_OPEN /\
     consecutiveSuccesses b' = consecutiveSuccesses b + 1).
Proof.
  intros Hs Hok.
  assert (Hadm : checkOpen cfg (calledAt c)
                   (set_totalCalls (totalCalls b + 1) b)
                 = Some (set_totalCalls (totalCalls b + 1) b)).
  { unfold checkOpen. cbn. now rewrite Hs. }
  destruct (execute_success_breaker T cfg name c b _ Hadm Hok)
    as (k & _ & Hb & _).
  cbv zeta. rewrite Hb. clear Hadm Hok Hb. destruct b; cbn in Hs; subst.
  methods_unfold.
  split; intros Hth; methods_cases; arith_hyps; repeat split;
    try reflexivity; try congruence; try lia.
Qed.

Lemma open_trial_success T cfg name (c : Call T) b tf :
  state b = OPEN -> lastFailureTime b = Some tf ->
  resetTimeout cfg <= calledAt c - tf -> succeeds cfg c ->
  let b' := breaker_after cfg name c b in
  (successThreshold cfg <= consecutiveSuccesses b + 1 ->
     state b' = CLOSED /\ failureCount b' = 0 /\ consecutiveSuccesses b' = 0) /\
  (consecutiveSuccesses b + 1 < successThreshold cfg ->
     state b' = HALF_OPEN /\
     consecutiveSuccesses b' = consecutiveSuccesses b + 1).
Proof.
  intros Hs Htf Hwait Hok.
  assert (Hadm : checkOpen cfg (calledAt c)
                   (set_totalCalls (totalCalls b + 1) b)
                 = Some (setState (calledAt c) HALF_OPEN
                           (set_totalCalls (totalCalls b + 1) b))).
  { unfold checkOpen, shouldAttemptReset, falsy_time. cbn. rewrite Hs, Htf.
    destruct (tf =? 0); [reflexivity|].
    apply Z.leb_le in Hwait. now rewrite Hwait. }
  destruct (execute_success_breaker T cfg name c b _ Hadm Hok)
    as (k & _ & Hb & _).
  cbv zeta. rewrite Hb. clear Hadm Hok Hb. destruct b; cbn in Hs, Htf; subst.
  methods_unfold.
  split; intros Hth; methods_cases; arith_hyps; repeat split;
    try reflexivity; try congruence; try lia.
Qed.

Lemma half_open_recovers T cfg name (calls : list (Call T)) : forall b,
  state b = HALF_OPEN -> Forall (succeeds cfg) calls -> calls <> [] ->
  consecutiveSuccesses b + Z.of_nat (List.length calls) = successThreshold cfg ->
  state (run cfg name calls b) = CLOSED /\
  failureCount (run cfg name calls b) = 0.
Proof.
  induction calls as [|c calls IH]; intros b Hs Hall Hne Hlen; [contradiction|].
  inversion Hall as [|? ? Hc Hrest]; subst.
  destruct (half_open_success T cfg name c b Hs Hc) as [Hclose Hstay].
  cbn [run fold_left]. fold (run cfg name calls (breaker_after cfg name c b)).
  destruct calls as [|c' calls].
  - cbn in *. destruct Hclose as (? & ? & ?); [lia | auto].
  - cbn [List.length] in Hlen.
    destruct Hstay as [Hs' Hk']; [lia|].
    apply IH; try assumption; [discriminate|].
    rewrite Hk'. cbn [List.length]. lia.
Qed.

(** Once [resetTimeout] has elapsed since the last failure, a run of
    [successThreshold] succeeding calls takes an OPEN breaker back to
    CLOSED with the failure count cleared, the first of them being the
    trial that moves it to HALF_OPEN. *)
Theorem open_breaker_recovers :
  forall T cfg name (c : Call T) (rest : list (Call T)) b tf,
  reachable cfg b -> state b = OPEN -> lastFailureTime b = Some tf ->
  resetTimeout cfg <= calledAt c - tf ->
  Forall (succeeds cfg) (c :: rest) ->
  Z.of_nat (List.length (c :: rest)) = successThreshold cfg ->
  state (run cfg name (c :: rest) b) = CLOSED /\
  failureCount (run cfg name (c :: rest) b) = 0 /\
  (rest <> [] -> state (breaker_after cfg name c b) = HALF_OPEN).
Proof.
  intros T cfg name c rest b tf Hreach Hs Htf Hwait Hall Hlen.
  pose proof (open_without_successes cfg b Hreach Hs) as Hzero.
  inversion Hall as [|? ? Hc Hrest]; subst.
  destruct (open_trial_success T cfg name c b tf Hs Htf Hwait Hc)
    as [Hclose Hstay].
  cbn [run fold_left]. fold (run cfg name rest (breaker_after cfg name c b)).
  cbn [List.length] in Hlen.
  destruct rest as [|c' rest].
  - cbn in *. destruct Hclose as (? & ? & ?); [lia|].
    repeat split; auto. intros Hne. contradiction.
  - destruct Hstay as [Hs' Hk']; [cbn [List.length] in Hlen; lia|].
    destruct (half_open_recovers T cfg name (c' :: rest)
                (breaker_after cfg name c b) Hs' Hrest ltac:(discriminate))
      as [Hclosed Hcount].
    { rewrite Hk'. cbn [List.length] in *. lia. }
    repeat split; auto.
Qed.

Lemma open_breaker_recovers_witness :
  let b := run DEFAULT_CONFIG "get_sessions"
             (map failing_call [1000; 2000; 3000; 4000; 5000]) (newBreaker 1) in
  state (run DEFAULT_CONFIG "get_sessions"
           (map succeeding_call [70000; 71000; 72000]) b) = CLOSED.
Proof.
  cbv zeta.
  refine (proj1 (open_breaker_recovers unit DEFAULT_CONFIG "get_sessions"
            (succeeding_call 70000) (map succeeding_call [71000; 72000])
            (run DEFAULT_CONFIG "get_sessions"
               (map failing_call [1000; 2000; 3000; 4000; 5000]) (newBreaker 1))
            5004 _ eq_refl eq_refl _ _ eq_refl)).
  - repeat (apply reach_execute; [| apply failing_call_clock; lia]).
    apply reach_new. lia.
  - cbn. lia.
  - repeat constructor;
      (exists 0%nat, tt; split; [cbn; lia |];
       split; [reflexivity | intros i Hi; lia]).
Defined.

(** ** The back-off schedule of a failing call *)







(** ** The manual controls *)

(** [open()] blocks the calls of the next [resetTimeout] milliseconds
    whatever the breaker was doing, and lets a trial call through after
    that; [reset()] closes the breaker and clears the current counts, so
    that the next call is run, and keeps the cumulative totals. *)
Theorem manual_controls :
  forall T cfg name (c : Call T) b now,
  0 < now ->
  (calledAt c - now < resetTimeout cfg ->
     success (result_of cfg name c (open now b)) = false /\
     effects_of cfg name c (open now b) = [] /\
     state (breaker_after cfg name c (open now b)) = OPEN) /\
  (resetTimeout cfg <= calledAt c - now -> allowed cfg c (open now b)) /\
  (allowed cfg c (reset now b) /\
   state (reset now b) = CLOSED /\
   failureCount (reset now b) = 0 /\ successCount (reset now b) = 0 /\
   consecutiveSuccesses (reset now b) = 0 /\
   totalCalls (reset now b) = totalCalls b /\
   totalFailures (reset now b) = totalFailures b /\
   totalSuccesses (reset now b) = totalSuccesses b).
Proof.
  intros T cfg name c b now Hnow.
  assert (Hopen : state (open now b) = OPEN /\
                  lastFailureTime (open now b) = Some now).
  { unfold open, setState. destruct (state b) eqn:E; cbn; auto. }
  destruct Hopen as [Hs Ht].
  split; [|split].
  - intros Hsoon.
    assert (Hblock : checkOpen cfg (calledAt c)
                       (set_totalCalls (totalCalls (open now b) + 1)
                          (open now b)) = None).
    { unfold checkOpen, shouldAttemptReset, falsy_time.
      cbn [state lastFailureTime set_totalCalls]. rewrite Hs, Ht.
      destruct (now =? 0) eqn:E; [apply Z.eqb_eq in E; lia|].
      destruct (resetTimeout cfg <=? calledAt c - now) eqn:E2;
        [apply Z.leb_le in E2; lia | reflexivity]. }
    unfold result_of, effects_of, breaker_after.
    rewrite (execute_blocked T cfg name c _ Hblock).
    cbn [fst snd success state set_totalCalls]. auto.
  - intros Hlate. unfold allowed, checkOpen, shouldAttemptReset, falsy_time.
    cbn [state lastFailureTime set_totalCalls]. rewrite Hs, Ht.
    destruct (now =? 0); [discriminate|].
    apply Z.leb_le in Hlate. rewrite Hlate. discriminate.
  - unfold allowed, checkOpen, reset, setState.
    destruct (state b) eqn:E; cbn; rewrite ?E; repeat split; discriminate.
Qed.

Lemma manual_controls_witness :
  effects_of DEFAULT_CONFIG "get_sessions" (succeeding_call 2000)
    (open 1000 (newBreaker 1)) = [].
Proof.
  refine (proj1 (proj2 (proj1
    (manual_controls unit DEFAULT_CONFIG "get_sessions" (succeeding_call 2000)
       (newBreaker 1) 1000 _) _))).
  - reflexivity.
  - reflexivity.
Defined.

End BreakerCounters.

(* ================================================================== *)
(** * Further properties of the session data parser *)

Section ParserSessions.
Import JS SessionDataParser.
Context {rt : Runtime}.
Variable options : ValidationOptions.
Variable now : Z.

(** The sessions of a raw array that parse on their own, in order, the
    first of them having index [i]. *)
Fixpoint parsed_sessions (items : list Value) (i : nat) : list ParsedSession :=
  match items with
  | [] => []
  | sessionData :: rest =>
      match ok (parseIndividualSession options now sessionData i),
            value (parseIndividualSession options now sessionData i) with
      | true, Some session => session :: parsed_sessions rest (S i)
      | _, _ => parsed_sessions rest (S i)
      end
  end.

Lemma parseSessionsFrom_spec items : forall i acc invalid warnings,
  exists warnings',
    parseSessionsFrom options now items i acc invalid warnings
    = (acc ++ parsed_sessions items i,
       invalid + Z.of_nat (List.length items)
               - Z.of_nat (List.length (parsed_sessions items i)),
       warnings').
Proof.
  induction items as [|sessionData rest IH]; intros i acc invalid warnings.
  - exists warnings. cbn. rewrite app_nil_r. f_equal. f_equal. lia.
  - cbn [parseSessionsFrom parsed_sessions].
    destruct (ok (parseIndividualSession options now sessionData i));
      [destruct (value (parseIndividualSession options now sessionData i))|].
    + destruct (IH (S i) (acc ++ [p]) invalid warnings) as [w' ->].
      exists w'. rewrite <- app_assoc. cbn [app List.length].
      f_equal. f_equal. lia.
    + match goal with
      | |- context [parseSessionsFrom _ _ rest ?j ?a ?n ?w] =>
          destruct (IH j a n w) as [w' ->]
      end.
      exists w'. cbn [List.length]. f_equal. f_equal. lia.
    + match goal with
      | |- context [parseSessionsFrom _ _ rest ?j ?a ?n ?w] =>
          destruct (IH j a n w) as [w' ->]
      end.
      exists w'. cbn [List.length]. f_equal. f_equal. lia.
Qed.

Lemma parsed_sessions_length items : forall i,
  (List.length (parsed_sessions items i) <= List.length items)%nat.
Proof.
  induction items as [|x rest IH]; intros i; cbn [parsed_sessions List.length].
  - apply Nat.le_refl.
  - specialize (IH (S i)).
    destruct (ok _); [destruct (value _)|]; cbn [List.length]; lia.
Qed.

Lemma parseSessionData_array startTime items :
  let r := parseSessionData options now startTime (Array items) in
  data r = Some (parsed_sessions items 0) /\
  (success r = true <-> parsed_sessions items 0 <> []) /\
  (success r = false -> error r = Some "No valid sessions could be parsed").
Proof.
  cbv zeta. unfold parseSessionData.
  cbn [truthy negb].
  destruct (parseSessionsFrom_spec items 0 [] 0 []) as [w' ->].
  cbn [app Z.add].
  destruct (parsed_sessions items 0) as [|s0 rest] eqn:E; cbn.
  - repeat split; try discriminate; congruence.
  - repeat split; discriminate.
Qed.

(** For a raw array, [parseSessionData] returns the sessions that parse on
    their own, in order, and succeeds exactly when there is at least one;
    an invalid session never fails the others.  Its statistics add up:
    the valid and the invalid sessions make the total, which is the
    length of the array. *)
Theorem parse_keeps_valid_sessions :
  forall startTime items,
  let r := parseSessionData options now startTime (Array items) in
  data r = Some (parsed_sessions items 0) /\
  (success r = true <-> parsed_sessions items 0 <> []) /\
  (success r = false -> error r = Some "No valid sessions could be parsed") /\
  exists st, stats r = Some st /\
    totalSessions st = Z.of_nat (List.length items) /\
    validSessions st = Z.of_nat (List.length (parsed_sessions items 0)) /\
    validSessions st + invalidSessions st = totalSessions st /\
    0 <= invalidSessions st.
Proof.
  intros startTime items. cbv zeta.
  destruct (parseSessionData_array startTime items) as (Hdata & Hsucc & Herr).
  split; [exact Hdata | split; [exact Hsucc | split; [exact Herr|]]].
  unfold parseSessionData. cbn [truthy negb].
  destruct (parseSessionsFrom_spec items 0 [] 0 []) as [w' ->].
  cbn [app Z.add]. pose proof (parsed_sessions_length items 0) as Hlen.
  eexists. split; [reflexivity|].
  cbn [totalSessions validSessions invalidSessions].
  repeat split; lia.
Qed.

End ParserSessions.

Section ParserSessionShape.
Import JS SessionDataParser.
Context {rt : Runtime}.
Variable options : ValidationOptions.
Variable now : Z.

(** The id the parser makes up for a session without one. *)
Definition generated_id (index : nat) : string :=
  ("generated_session_" ++ String_of_Z (Z.of_nat index) ++ "_"
   ++ String_of_Z now)%string.

Lemma session_success_shape sessionData index session :
  value (parseIndividualSession options now sessionData index) = Some session ->
  exists sessionId parsed,
    extractSessionId options now sessionData index = Some sessionId /\
    (requireSessionId options = true -> sessionId <> "") /\
    ok (parseIndividualSession options now sessionData index) = true /\
    value (parseMessages options now
             (or_else (get sessionData "messages") (Array []))) = Some parsed /\
    (allowEmptySessions options = false -> parsed <> []) /\
    id session = message_or (Some sessionId)
                   ("session_" ++ String_of_Z (Z.of_nat index))%string /\
    messages session = parsed /\
    metadata session = Some (calculateSessionMetadata parsed) /\
    customTitle session = extractCustomTitle sessionData.
Proof.
  unfold parseIndividualSession.
  destruct (negb (truthy sessionData) || _); [discriminate|].
  destruct (extractSessionId options now sessionData index) as [sid|] eqn:Eid.
  - destruct (requireSessionId options && String.eqb sid "") eqn:Ereq;
      [discriminate|].
    destruct (ok (parseMessages options now _)) eqn:Eok; [|discriminate].
    destruct (value (parseMessages options now _)) as [parsed|] eqn:Eval;
      [|discriminate].
    destruct (negb (allowEmptySessions options) && _) eqn:Eempty; [discriminate|].
    destruct (parseTimestamps sessionData) as [[c l]|thrown]; [|discriminate].
    cbn [value ok]. intros [= <-]. exists sid, parsed. cbn.
    repeat split; try reflexivity.
    + intros Hreq. rewrite Hreq in Ereq. cbn in Ereq.
      now apply String.eqb_neq.
    + intros Hallow Hnil. rewrite Hallow, Hnil in Eempty. discriminate.
  - destruct (requireSessionId options) eqn:Ereq; cbn [andb]; [discriminate|].
    unfold extractSessionId in Eid. rewrite Ereq in Eid.
    destruct (text_of (get sessionData "id")); [discriminate|].
    destruct (text_of (get sessionData "sessionId")); discriminate.
Qed.

Lemma session_keeps_own_id sessionData index session x :
  value (parseIndividualSession options now sessionData index) = Some session ->
  text_of (get sessionData "id") = Some x -> id session = x.
Proof.
  intros Hparsed Hx.
  destruct (session_success_shape sessionData index session Hparsed)
    as (sid & parsed & Hid & _ & _ & _ & _ & Hs & _).
  unfold extractSessionId in Hid. rewrite Hx in Hid. injection Hid as <-.
  rewrite Hs. unfold message_or.
  pose proof (text_of_nonempty _ _ Hx) as Hne.
  apply String.eqb_neq in Hne. now rewrite Hne.
Qed.

(** Every session the parser returns has a non-empty id: the session's
    own [id] when that is a non-empty string, else its [sessionId], and
    only when it has neither and ids are not required an id the parser
    generates from the index and the clock.  With [requireSessionId] a
    session without an id is rejected, never given a generated id. *)
Theorem parsed_session_id :
  forall sessionData index session,
  value (parseIndividualSession options now sessionData index) = Some session ->
  id session <> "" /\
  (forall x, text_of (get sessionData "id") = Some x -> id session = x) /\
  (forall y, text_of (get sessionData "id") = None ->
             text_of (get sessionData "sessionId") = Some y -> id session = y) /\
  (text_of (get sessionData "id") = None ->
   text_of (get sessionData "sessionId") = None ->
   requireSessionId options = false /\ id session = generated_id index).
Proof.
  intros sessionData index session Hparsed.
  destruct (session_success_shape sessionData index session Hparsed)
    as (sid & parsed & Hid & _ & _ & _ & _ & Hs & _).
  assert (Hne : sid <> "").
  { unfold extractSessionId in Hid.
    destruct (text_of (get sessionData "id")) as [x|] eqn:E1.
    - injection Hid as <-. eapply text_of_nonempty; eauto.
    - destruct (text_of (get sessionData "sessionId")) as [y|] eqn:E2.
      + injection Hid as <-. eapply text_of_nonempty; eauto.
      + destruct (negb (requireSessionId options)); [|discriminate].
        injection Hid as <-. discriminate. }
  assert (Hsid : id session = sid).
  { rewrite Hs. unfold message_or.
    apply String.eqb_neq in Hne. now rewrite Hne. }
  rewrite Hsid. unfold extractSessionId in Hid.
  split; [|split; [|split]].
  - exact Hne.
  - intros x Hx. rewrite Hx in Hid. congruence.
  - intros y Hx Hy. rewrite Hx, Hy in Hid. congruence.
  - intros Hx Hy. rewrite Hx, Hy in Hid.
    destruct (requireSessionId options); [discriminate|].
    split; [reflexivity|].
    cbn [negb] in Hid. injection Hid as <-. reflexivity.
Qed.

(** A session object whose [messages] is missing or an empty array is
    rejected with "Empty sessions are not allowed" unless empty sessions
    are allowed; when they are, it parses to a session without messages
    and with a message count of 0. *)
Theorem empty_session :
  forall fields index,
  lookup "messages" fields = Undefined \/ lookup "messages" fields = Array [] ->
  id_available options fields ->
  in_date_range (lookup "createdAt" fields) ->
  in_date_range (lookup "lastModified" fields) ->
  (allowEmptySessions options = false ->
     parseIndividualSession options now (Object fields) index
     = Build_Partial false None (Some "Empty sessions are not allowed")
         (Some [])) /\
  (allowEmptySessions options = true ->
     exists session,
       parseIndividualSession options now (Object fields) index
       = Build_Partial true (Some session) None None /\
       messages session = [] /\
       exists m, metadata session = Some m /\ messageCount m = 0 /\
                 totalCharacters m = 0).
Proof.
  intros fields index Hmsgs Hid Hc Hm.
  destruct (timestamps_in_range fields Hc Hm) as [[createdAt lastModified] Hts].
  assert (Hparsed : parseMessages options now
                      (or_else (get (Object fields) "messages") (Array []))
                    = Build_Partial true (Some []) None None).
  { cbn [get]. destruct Hmsgs as [-> | ->]; reflexivity. }
  unfold parseIndividualSession.
  cbn [truthy typeof negb orb String.eqb Ascii.eqb Bool.eqb].
  rewrite (session_id_found options now fields index Hid), Hparsed.
  cbn [ok value List.length Nat.eqb].
  split; intros Hallow; rewrite Hallow; cbn [negb andb]; [reflexivity|].
  rewrite Hts. eexists. split; [reflexivity|]. cbn.
  split; [reflexivity|]. eexists. split; [reflexivity|]. split; reflexivity.
Qed.

End ParserSessionShape.

Section ParserShapeExamples.
Import JS SessionDataParser.
#[local] Existing Instance Samples.sample_runtime.

Lemma parsed_session_id_witness :
  exists session,
    value (parseIndividualSession lenient_options 1700000000000
             (Object [("sessionId", Str "abc");
                      ("messages", Array mixed_messages)]) 0) = Some session /\
    id session = "abc".
Proof.
  eexists. split; [reflexivity|].
  refine (proj1 (proj2 (proj2
    (parsed_session_id (rt := Samples.sample_runtime) lenient_options
       1700000000000
       (Object [("sessionId", Str "abc"); ("messages", Array mixed_messages)])
       0%nat _ eq_refl))) "abc" eq_refl eq_refl).
Defined.

Lemma empty_session_witness :
  parseIndividualSession lenient_options 1700000000000
    (Object [("id", Str "s1"); ("messages", Array [])]) 0
  = Build_Partial false None (Some "Empty sessions are not allowed") (Some []).
Proof.
  refine (proj1 (empty_session (rt := Samples.sample_runtime) lenient_options
            1700000000000 [("id", Str "s1"); ("messages", Array [])] 0%nat
            _ _ _ _) eq_refl).
  - right; reflexivity.
  - right; left; discriminate.
  - exact I.
  - exact I.
Defined.

End ParserShapeExamples.

Section ParserMetadata.
Import JS SessionDataParser.

Definition is_user (m : ChatMessage) : bool :=
  match role m with user => true | assistant => false end.

Definition characters (messages : list ChatMessage) : Z :=
  fold_right (fun m total => Z.of_nat (String.length (content m)) + total)
             0 messages.

(** The timestamps the metadata looks at: those that are present and not
    zero. *)
Definition stamps (messages : list ChatMessage) : list Z :=
  flat_map (fun m => match timestamp m with
                     | Some t => if t =? 0 then [] else [t]
                     | None => []
                     end) messages.

(** [first] and [last] are the least and the greatest of [seen], and are
    absent when [seen] is empty. *)
Definition extremes (seen : list Z) (first last : option Z) : Prop :=
  match seen with
  | [] => first = None /\ last = None
  | _ => exists f l, first = Some f /\ last = Some l /\
                     In f seen /\ In l seen /\
                     Forall (fun t => f <= t <= l) seen
  end.

Lemma extremes_step seen first last t :
  t <> 0 -> Forall (fun x => x <> 0) seen ->
  extremes seen first last ->
  extremes (seen ++ [t])
    (if no_time first then Some t
     else match first with
          | Some f => if t <? f then Some t else Some f
          | None => Some t
          end)
    (if no_time last then Some t
     else match last with
          | Some l => if l <? t then Some t else Some l
          | None => Some t
          end).
Proof.
  intros Ht Hnz Hext. unfold extremes in *.
  destruct seen as [|s seen].
  - destruct Hext as [-> ->]. cbn. exists t, t.
    repeat split; auto. repeat constructor; lia.
  - destruct Hext as (f & l & -> & -> & Hf & Hl & Hall).
    assert (Hfnz : f <> 0) by (rewrite Forall_forall in Hnz; now apply Hnz).
    assert (Hlnz : l <> 0) by (rewrite Forall_forall in Hnz; now apply Hnz).
    cbn [no_time]. apply Z.eqb_neq in Hfnz, Hlnz. rewrite Hfnz, Hlnz.
    change ((s :: seen) ++ [t]) with (s :: (seen ++ [t])).
    change (s :: (seen ++ [t])) with ((s :: seen) ++ [t]).
    destruct ((s :: seen) ++ [t]) as [|x xs] eqn:E;
      [destruct seen; discriminate|]. rewrite <- E. clear E x xs.
    destruct (t <? f) eqn:E1; destruct (l <? t) eqn:E2;
      [apply Z.ltb_lt in E1 | apply Z.ltb_lt in E1 | apply Z.ltb_ge in E1
       | apply Z.ltb_ge in E1];
      [apply Z.ltb_lt in E2 | apply Z.ltb_ge in E2 | apply Z.ltb_lt in E2
       | apply Z.ltb_ge in E2].
    + exists t, t. repeat split; try (apply in_or_app; right; now left).
      apply Forall_app. split; [|repeat constructor; lia].
      eapply Forall_impl; [|exact Hall]. cbn. intros; lia.
    + exists t, l. repeat split;
        try (apply in_or_app; right; now left);
        try (apply in_or_app; left; assumption).
      apply Forall_app. split; [|repeat constructor; lia].
      eapply Forall_impl; [|exact Hall]. cbn. intros; lia.
    + exists f, t. repeat split;
        try (apply in_or_app; right; now left);
        try (apply in_or_app; left; assumption).
      apply Forall_app. split; [|repeat constructor; lia].
      eapply Forall_impl; [|exact Hall]. cbn. intros; lia.
    + exists f, l. repeat split;
        try (apply in_or_app; left; assumption).
      apply Forall_app. split; [|repeat constructor; lia].
      exact Hall.
Qed.

Lemma stamps_nonzero messages : Forall (fun x => x <> 0) (stamps messages).
Proof.
  unfold stamps. apply Forall_forall. intros x Hx.
  apply in_flat_map in Hx. destruct Hx as (m & _ & Hx).
  destruct (timestamp m) as [t|]; [|destruct Hx].
  destruct (t =? 0) eqn:E; [destruct Hx|].
  destruct Hx as [<- | []]. now apply Z.eqb_neq.
Qed.

Lemma fold_countMessage messages : forall acc seen,
  Forall (fun x => x <> 0) seen ->
  extremes seen (firstMessageTimestamp acc) (lastMessageTimestamp acc) ->
  let m := fold_left countMessage messages acc in
  messageCount m = messageCount acc /\
  totalCharacters m = totalCharacters acc + characters messages /\
  userMessageCount m
    = userMessageCount acc + Z.of_nat (List.length (filter is_user messages)) /\
  assistantMessageCount m
    = assistantMessageCount acc
      + Z.of_nat (List.length (filter (fun x => negb (is_user x)) messages)) /\
  extremes (seen ++ stamps messages)
    (firstMessageTimestamp m) (lastMessageTimestamp m).
Proof.
  induction messages as [|x messages IH]; intros acc seen Hnz Hext.
  - cbn. rewrite app_nil_r. repeat split; try lia. exact Hext.
  - cbn [fold_left].
    assert (Hstep : exists seen',
              seen ++ stamps (x :: messages) = seen' ++ stamps messages /\
              Forall (fun t => t <> 0) seen' /\
              extremes seen' (firstMessageTimestamp (countMessage acc x))
                (lastMessageTimestamp (countMessage acc x))).
    { unfold countMessage, stamps. cbn [flat_map firstMessageTimestamp
        lastMessageTimestamp].
      destruct (timestamp x) as [t|].
      - destruct (t =? 0) eqn:E.
        + exists seen. cbn [app]. auto.
        + exists (seen ++ [t]). rewrite <- app_assoc. cbn [app].
          apply Z.eqb_neq in E. repeat split.
          * apply Forall_app. split; [assumption | repeat constructor; assumption].
          * now apply extremes_step.
      - exists seen. cbn [app]. auto. }
    destruct Hstep as (seen' & Heq & Hnz' & Hext').
    destruct (IH (countMessage acc x) seen' Hnz' Hext')
      as (H1 & H2 & H3 & H4 & H5).
    cbv zeta in *. split; [|split; [|split; [|split]]].
    + rewrite H1. reflexivity.
    + rewrite H2. unfold countMessage.
      unfold characters. cbn [totalCharacters fold_right]. lia.
    + rewrite H3. unfold countMessage. cbn [userMessageCount filter].
      unfold is_user. destruct (role x); cbn [List.length]; lia.
    + rewrite H4. unfold countMessage. cbn [assistantMessageCount filter].
      unfold is_user. destruct (role x); cbn [negb List.length]; lia.
    + rewrite Heq. exact H5.
Qed.

(** The derived metadata of a session: the message count is the number
    of messages and splits into the user and the assistant messages, the
    character count is the sum of the content lengths, and the first and
    last message timestamps are the least and the greatest of the
    timestamps that are present and not zero (a timestamp of 0 is passed
    over), both absent when there is none. *)
Theorem session_metadata_counts :
  forall messages,
  let m := calculateSessionMetadata messages in
  messageCount m = Z.of_nat (List.length messages) /\
  userMessageCount m = Z.of_nat (List.length (filter is_user messages)) /\
  userMessageCount m + assistantMessageCount m = messageCount m /\
  totalCharacters m = characters messages /\
  extremes (stamps messages) (firstMessageTimestamp m) (lastMessageTimestamp m).
Proof.
  intros messages. cbv zeta. unfold calculateSessionMetadata.
  destruct (fold_countMessage messages
              {| messageCount := Z.of_nat (List.length messages);
                 totalCharacters := 0; userMessageCount := 0;
                 assistantMessageCount := 0;
                 firstMessageTimestamp := None;
                 lastMessageTimestamp := None |} []
              (Forall_nil _) (conj eq_refl eq_refl))
    as (H1 & H2 & H3 & H4 & H5).
  cbv zeta in *. rewrite H1, H2, H3, H4. cbn [messageCount totalCharacters
    userMessageCount assistantMessageCount app] in *.
  repeat split; try lia; try exact H5.
  rewrite <- (filter_length is_user messages). lia.
Qed.

End ParserMetadata.

Section ParserTimestamps.
Import JS SessionDataParser.
Context {rt : Runtime}.
Variable options : ValidationOptions.
Variable now : Z.

Lemma well_formed_parses fields i :
  well_formed_message (Object fields) = true ->
  exists text,
    lookup "content" fields = Str text /\
    parseIndividualMessage options now (Object fields) i
    = let parsed := parseMessageTimestamp (lookup "timestamp" fields) in
      Build_Partial true
        (Some {| role := if strict_equal (lookup "role" fields) "user"
                         then user else assistant;
                 content := text;
                 timestamp := fst parsed |})
        None
        (some_if_any (validateMessageTimestamp options now (fst parsed)
                        (snd parsed))).
Proof.
  intros Hwf. unfold well_formed_message in Hwf.
  apply andb_true_iff in Hwf. destruct Hwf as [Hrole Hcontent].
  destruct (lookup "content" fields) as [| | | | text | |] eqn:Ec;
    try discriminate Hcontent.
  exists text. split; [reflexivity|].
  unfold parseIndividualMessage.
  cbn [truthy typeof negb orb String.eqb Ascii.eqb Bool.eqb get].
  rewrite Ec.
  assert (Htruthy : truthy (lookup "role" fields) = true).
  { apply orb_true_iff in Hrole. destruct Hrole as [H | H];
      eapply strict_equal_truthy; try exact H; discriminate. }
  rewrite Htruthy. cbn [negb orb].
  destruct (strict_equal (lookup "role" fields) "user");
    destruct (strict_equal (lookup "role" fields) "assistant");
    try discriminate Hrole; reflexivity.
Qed.

(** A message with a valid role and a string content is never rejected
    for its timestamp.  A numeric timestamp is kept, a text goes through
    [Date.parse], and a text that does not parse leaves the timestamp
    absent with a warning; a timestamp in the future is kept, with a
    warning when timestamps are validated. *)
Theorem timestamp_never_rejects :
  forall fields i,
  well_formed_message (Object fields) = true ->
  exists msg notes,
    parseIndividualMessage options now (Object fields) i
      = Build_Partial true (Some msg) None notes /\
    lookup "content" fields = Str (content msg) /\
    (forall n, lookup "timestamp" fields = Number n -> timestamp msg = Some n) /\
    (forall text, lookup "timestamp" fields = Str text ->
       timestamp msg = Date_parse text /\
       (Date_parse text = None ->
          notes = Some [("Invalid timestamp format: "
                         ++ String_ (Str text))%string])) /\
    (lookup "timestamp" fields = Undefined ->
       timestamp msg = None /\ notes = None) /\
    (forall t, timestamp msg = Some t ->
       validateTimestamps options = true -> now < t ->
       exists w, notes = Some w /\ In "Timestamp is in the future" w).
Proof.
  intros fields i Hwf.
  destruct (well_formed_parses fields i Hwf) as (text & Hc & Hparse).
  cbv zeta in Hparse. eexists. eexists. split; [exact Hparse|].
  cbn [content timestamp]. split; [exact Hc|].
  split; [|split; [|split]].
  - intros n ->. reflexivity.
  - intros t ->. cbn [parseMessageTimestamp].
    destruct (Date_parse t); cbn [fst snd]; split; try reflexivity;
      try discriminate.
  - intros ->. split; reflexivity.
  - intros t Ht Hvalidate Hfuture. rewrite Ht.
    unfold validateMessageTimestamp. rewrite Hvalidate.
    apply Z.ltb_lt in Hfuture. rewrite Hfuture.
    destruct (snd (parseMessageTimestamp (lookup "timestamp" fields)))
      as [|w0 ws]; cbn [app some_if_any].
    + eexists. split; [reflexivity|]. now left.
    + eexists. split; [reflexivity|]. right. apply in_or_app. right. now left.
Qed.

(** ** The shape of the raw input *)

(** [parseSessionData] on something that is not an array: a falsy value
    is "No data provided for parsing", a single object is parsed as the
    array that holds just it, and any other value is "Raw data is not in
    expected format (array or object)". *)
Theorem raw_input_shapes :
  forall startTime rawData,
  let r := parseSessionData options now startTime rawData in
  (truthy rawData = false ->
     success r = false /\ data r = None /\
     error r = Some "No data provided for parsing") /\
  (forall fields, rawData = Object fields ->
     success r = success (parseSessionData options now startTime
                            (Array [rawData])) /\
     data r = data (parseSessionData options now startTime (Array [rawData])) /\
     exists w, warnings r = Some w /\
               hd_error w = Some "Single session object converted to array") /\
  (truthy rawData = true -> typeof rawData <> "object" ->
     success r = false /\ data r = None /\
     error r = Some "Raw data is not in expected format (array or object)").
Proof.
  intros startTime rawData. cbv zeta. split; [|split].
  - intros Hfalsy. unfold parseSessionData. rewrite Hfalsy. cbn. auto.
  - intros fields ->. unfold parseSessionData.
    cbn [truthy negb typeof String.eqb Ascii.eqb Bool.eqb parseSessionsFrom].
    destruct (ok (parseIndividualSession options now (Object fields) 0));
      [destruct (value (parseIndividualSession options now (Object fields) 0))|];
      cbn [app]; try destruct (problem _) as [e|];
      try destruct (String.eqb e ""); cbn;
      (split; [reflexivity | split; [reflexivity |]]);
      eexists; (split; reflexivity).
  - intros Htruthy Htype. unfold parseSessionData. rewrite Htruthy.
    cbn [negb].
    destruct rawData; cbn in Htype; try contradiction; cbn; auto.
Qed.

End ParserTimestamps.

Section ParserTimestampExamples.
Import JS SessionDataParser.
#[local] Existing Instance Samples.sample_runtime.

Lemma timestamp_never_rejects_witness :
  ok (parseIndividualMessage lenient_options 1700000000000
        (Object [("role", Str "user"); ("content", Str "hi");
                 ("timestamp", Str "yesterday")]) 0) = true.
Proof.
  destruct (timestamp_never_rejects (rt := Samples.sample_runtime)
              lenient_options 1700000000000
              [("role", Str "user"); ("content", Str "hi");
               ("timestamp", Str "yesterday")] 0%nat eq_refl)
    as (msg & notes & Hparse & _).
  rewrite Hparse. reflexivity.
Defined.

End ParserTimestampExamples.

(* ================================================================== *)
(** * Further properties of the session query engine *)

Section QueryEngineCache.
Import JS SessionQueryEngine.
Context {rt : Runtime}.

Lemma Map_get_set key v m : Map_get key (Map_set key v m) = Some v.
Proof.
  induction m as [|[k w] rest IH]; cbn.
  - now rewrite String.eqb_refl.
  - destruct (String.eqb k key) eqn:E; cbn; rewrite E; [reflexivity | exact IH].
Qed.

(** A query that finds a cached statement runs it, whatever connection it
    is given. *)
Lemma cached_statement_runs files database e statement :
  Map_get "get_interactive_sessions" (preparedStatements e) = Some statement ->
  queryInteractiveSessionsRaw files database e
  = queryInteractiveSessionsRaw files (Sqlite.owner statement) e /\
  snd (queryInteractiveSessionsRaw files database e) = [Sqlite.owner statement] /\
  snd (fst (queryInteractiveSessionsRaw files database e)) = e.
Proof.
  intros Hc. unfold queryInteractiveSessionsRaw. rewrite Hc.
  destruct (Sqlite.statement_get files statement INTERACTIVE_SESSIONS_KEY)
    as [[[v|]|]|thrown]; cbn; auto.
  destruct (String.eqb v ""); cbn; auto.
  destruct (JSON_parse v) as [[]|]; cbn; auto.
Qed.

(** The prepared statement is cached under one fixed key and is looked up
    before the connection is used.  Once a query has prepared it on a
    connection [first], the cache holds that statement; every later query
    then runs on [first], whatever connection it is handed and whatever the
    files show by then, and leaves the cache as it is; after
    [clearStatementCache] a query prepares its statement on the connection
    it is given. *)
Theorem cached_statement_outlives_connection :
  forall files first e statement,
  Map_get "get_interactive_sessions" (preparedStatements e) = None ->
  Sqlite.prepare files first = inl statement ->
  let e1 := snd (fst (queryInteractiveSessionsRaw files first e)) in
  Map_get "get_interactive_sessions" (preparedStatements e1)
    = Some {| Sqlite.owner := first |} /\
  (forall files' other,
     queryInteractiveSessionsRaw files' other e1
     = queryInteractiveSessionsRaw files' first e1 /\
     snd (queryInteractiveSessionsRaw files' other e1) = [first] /\
     snd (fst (queryInteractiveSessionsRaw files' other e1)) = e1) /\
  (forall files' other statement',
     Sqlite.prepare files' other = inl statement' ->
     snd (queryInteractiveSessionsRaw files' other (clearStatementCache e1))
     = [other]).
Proof.
  intros files first e statement Hfresh Hprep. cbv zeta.
  assert (Hst : statement = {| Sqlite.owner := first |}).
  { revert Hprep. unfold Sqlite.prepare.
    destruct (negb _); [discriminate|].
    destruct (Sqlite.ItemTable _); [|discriminate]. now intros [= <-]. }
  subst statement.
  assert (He1 : Map_get "get_interactive_sessions"
                  (preparedStatements
                     (snd (fst (queryInteractiveSessionsRaw files first e))))
                = Some {| Sqlite.owner := first |}).
  { unfold queryInteractiveSessionsRaw. rewrite Hfresh, Hprep.
    destruct (Sqlite.statement_get files _ INTERACTIVE_SESSIONS_KEY)
      as [[[v|]|]|thrown]; cbn [fst snd preparedStatements];
      try apply Map_get_set.
    destruct (String.eqb v ""); cbn [fst snd preparedStatements];
      try apply Map_get_set.
    destruct (JSON_parse v) as [[]|]; cbn [fst snd preparedStatements];
      apply Map_get_set. }
  split; [exact He1 | split].
  - intros files' other.
    destruct (cached_statement_runs files' other _ _ He1) as (H1 & H2 & H3).
    destruct (cached_statement_runs files' first _ _ He1) as (H1' & _ & _).
    cbn [Sqlite.owner] in *. split; [congruence | split; assumption].
  - intros files' other statement' Hprep'.
    unfold queryInteractiveSessionsRaw, clearStatementCache.
    cbn [preparedStatements Map_get]. rewrite Hprep'.
    assert (Hst : statement' = {| Sqlite.owner := other |}).
    { revert Hprep'. unfold Sqlite.prepare.
      destruct (negb _); [discriminate|].
      destruct (Sqlite.ItemTable _); [|discriminate]. now intros [= <-]. }
    subst statement'.
    destruct (Sqlite.statement_get files' _ INTERACTIVE_SESSIONS_KEY)
      as [[[v|]|]|thrown]; cbn; auto.
    destruct (String.eqb v ""); cbn; auto.
    destruct (JSON_parse v) as [[]|]; cbn; auto.
Qed.

End QueryEngineCache.

Section QueryEngineCacheExamples.
Import JS SessionQueryEngine.
#[local] Existing Instance Samples.sample_runtime.

(** Two connections: handle 0 shows three sessions, handle 1 none. *)
Definition two_stores : Sqlite.Files :=
  fun database =>
    match database with
    | O => {| Sqlite.isOpen := true;
              Sqlite.ItemTable :=
                Some [("interactive.sessions", Some "[1,2,3]")] |}
    | _ => {| Sqlite.isOpen := true; Sqlite.ItemTable := Some [] |}
    end.

Lemma cached_statement_outlives_connection_witness :
  let e1 := snd (fst (queryInteractiveSessionsRaw two_stores 0%nat newEngine)) in
  raw_data (fst (fst (queryInteractiveSessionsRaw two_stores 1%nat e1)))
  = Some [Number 1; Number 2; Number 3] /\
  raw_data (fst (fst (queryInteractiveSessionsRaw two_stores 1%nat newEngine)))
  = Some [].
Proof.
  cbv zeta.
  destruct (cached_statement_outlives_connection (rt := Samples.sample_runtime)
              two_stores 0%nat newEngine {| Sqlite.owner := 0%nat |}
              eq_refl eq_refl) as (_ & Hlater & _).
  destruct (Hlater two_stores 1%nat) as (-> & _ & _).
  split; reflexivity.
Defined.

End QueryEngineCacheExamples.

Section QueryEngineLookups.
Import JS SessionQueryEngine.
Context {rt : Runtime}.

(** [null] or [undefined], the values whose properties cannot be read. *)
Definition nullish (v : Value) : bool :=
  match v with
  | Null | Undefined => true
  | _ => false
  end.

Lemma measureSessions_throws sessions : forall dates totalSize,
  existsb nullish sessions = true ->
  exists thrown, measureSessions sessions dates totalSize = inr thrown.
Proof.
  induction sessions as [|s rest IH]; intros dates totalSize; cbn [existsb].
  - discriminate.
  - destruct s; cbn [nullish orb measureSessions]; intros Hn;
      try (eexists; reflexivity); apply IH, Hn.
Qed.

Lemma measureSessions_returns sessions : forall dates totalSize,
  existsb nullish sessions = false ->
  exists dates' totalSize',
    measureSessions sessions dates totalSize = inl (dates', totalSize').
Proof.
  induction sessions as [|s rest IH]; intros dates totalSize; cbn [existsb].
  - intros _. cbn. eauto.
  - destruct s; cbn [nullish orb measureSessions]; intros Hn;
      try discriminate; apply IH, Hn.
Qed.

Lemma metadata_throws sessions :
  existsb nullish sessions = true ->
  exists thrown, calculateSessionMetadata sessions = inr thrown.
Proof.
  intros Hn. destruct (measureSessions_throws sessions [] 0 Hn) as [thrown Ht].
  exists thrown. unfold calculateSessionMetadata. rewrite Ht.
  destruct sessions; [discriminate Hn | reflexivity].
Qed.

Lemma metadata_returns sessions :
  existsb nullish sessions = false ->
  exists m, calculateSessionMetadata sessions = inl m /\
            totalSessions m = Z.of_nat (List.length sessions).
Proof.
  intros Hn. unfold calculateSessionMetadata.
  destruct (measureSessions_returns sessions [] 0 Hn) as (dates & size & ->).
  destruct sessions; eexists; split; reflexivity.
Qed.

(** The page of a call without options is the whole array. *)
Lemma paginate_no_options fetched : paginate no_options fetched = fetched.
Proof. reflexivity. Qed.

(** [calculateSessionMetadata] reads [createdAt] of every element, so it
    throws exactly when the array holds a [null] or [undefined].  A stored
    array with such an element is therefore returned by
    [getInteractiveSessions] as it is when no metadata is asked for, but
    with [includeMetadata] the call fails with "Query execution failed",
    and so does [getSessionMetadata]. *)
Theorem null_session_fails_metadata :
  forall files c database startTime now e fetched,
  connects c database ->
  fst (fst (queryInteractiveSessionsRaw files database e))
  = {| raw_success := true; raw_data := Some fetched; raw_error := None |} ->
  existsb nullish fetched = true ->
  let with_metadata :=
    {| limit := None; offset := None; includeMetadata := true |} in
  let plain := fst (fst (getInteractiveSessions files c startTime now
                           no_options e)) in
  let asked := fst (fst (getInteractiveSessions files c startTime now
                           with_metadata e)) in
  let meta := fst (fst (getSessionMetadata files c startTime now e)) in
  (forall sessions,
     (exists thrown, calculateSessionMetadata sessions = inr thrown)
     <-> existsb nullish sessions = true) /\
  (success plain = true /\
   exists d, data plain = Some d /\ sessions d = fetched) /\
  (success asked = false /\ data asked = None /\
   exists thrown,
     error asked = Some ("Query execution failed: " ++ thrown)%string) /\
  (meta_success meta = false /\ meta_data meta = None /\
   meta_error meta = error asked).
Proof.
  intros files c database startTime now e fetched [Hc1 Hc2] Hraw Hnull.
  cbv zeta. split.
  { intros sessions. split.
    - intros [thrown Ht]. destruct (existsb nullish sessions) eqn:E; [reflexivity|].
      destruct (metadata_returns sessions E) as (m & Hm & _). congruence.
    - apply metadata_throws. }
  destruct (metadata_throws fetched Hnull) as [thrown Ht].
  unfold getSessionMetadata, getInteractiveSessions. rewrite Hc1, Hc2.
  destruct (queryInteractiveSessionsRaw files database e) as [[r0 e0] rd].
  cbn [fst] in Hraw. subst r0.
  cbn [raw_success raw_data includeMetadata no_options]. rewrite Ht.
  cbn. split; [|split].
  - split; [reflexivity|]. eexists. split; reflexivity.
  - split; [reflexivity | split; [reflexivity|]]. exists thrown. reflexivity.
  - auto.
Qed.

(** [getSessionById] fetches the whole array with one call without
    options and returns the first element whose [id] is the string asked
    for; what follows that element is not looked at.  When the fetch fails
    its error is passed on, and when no element has the id the call fails
    with "Session with ID ... not found". *)
Theorem session_by_id_first_match :
  forall files c startTime now sessionId e,
  let fetch := getInteractiveSessions files c startTime now no_options e in
  let found := getSessionById files c startTime now sessionId e in
  let q := fst (fst fetch) in
  let r := fst (fst found) in
  snd (fst found) = snd (fst fetch) /\ snd found = snd fetch /\
  (success q = false ->
     found_success r = false /\ found_data r = None /\
     found_error r = error q) /\
  (forall d, success q = true -> data q = Some d ->
     (forall before s after,
        sessions d = before ++ s :: after ->
        existsb nullish before = false ->
        Forall (fun x => strict_equal (get x "id") sessionId = false) before ->
        strict_equal (get s "id") sessionId = true ->
        found_success r = true /\ found_data r = Some s /\
        found_error r = None) /\
     (existsb nullish (sessions d) = false ->
      Forall (fun x => strict_equal (get x "id") sessionId = false)
        (sessions d) ->
      found_success r = false /\ found_data r = None /\
      found_error r
      = Some ("Session with ID " ++ sessionId ++ " not found")%string)).
Proof.
  intros files c startTime now sessionId e. cbv zeta.
  unfold getSessionById.
  destruct (getInteractiveSessions files c startTime now no_options e)
    as [[q e'] reads].
  cbn [fst snd].
  assert (Hfirst : forall before s after,
            existsb nullish before = false ->
            Forall (fun x => strict_equal (get x "id") sessionId = false)
              before ->
            strict_equal (get s "id") sessionId = true ->
            find_by_id sessionId (before ++ s :: after) = inl (Some s)).
  { induction before as [|x before IH]; intros s after Hn Hb Hs.
    - cbn [app find_by_id]. rewrite Hs.
      destruct s; try reflexivity; discriminate Hs.
    - cbn [existsb] in Hn. apply orb_false_iff in Hn as [Hx Hn].
      inversion Hb as [|? ? Hx' Hb']; subst.
      cbn [app find_by_id]. rewrite Hx'.
      destruct x; try discriminate Hx; apply IH; assumption. }
  assert (Hnone : forall l,
            existsb nullish l = false ->
            Forall (fun x => strict_equal (get x "id") sessionId = false) l ->
            find_by_id sessionId l = inl None).
  { induction l as [|x l IH]; intros Hn Hb; [reflexivity|].
    cbn [existsb] in Hn. apply orb_false_iff in Hn as [Hx Hn].
    inversion Hb as [|? ? Hx' Hb']; subst.
    cbn [find_by_id]. rewrite Hx'.
    destruct x; try discriminate Hx; apply IH; assumption. }
  destruct (success q) eqn:Hq; cbn [negb].
  - destruct (find_by_id sessionId
                match data q with Some d => sessions d | None => [] end)
      as [[session|]|thrown] eqn:Hfind;
      [destruct (truthy session) eqn:Ht|..]; cbn [negb fst snd];
      (split; [reflexivity | split; [reflexivity | split; [discriminate|]]]);
      intros d _ Hd; rewrite Hd in Hfind; (split;
        [ intros before s after Hl Hn Hb Hs; rewrite Hl in Hfind;
          rewrite (Hfirst before s after Hn Hb Hs) in Hfind
        | intros Hn Hb; rewrite (Hnone _ Hn Hb) in Hfind ]);
      try discriminate Hfind; cbn; auto.
    + injection Hfind as <-. auto.
    + injection Hfind as <-.
      destruct s; try discriminate Hs; discriminate Ht.
  - cbn [fst snd]. split; [reflexivity | split; [reflexivity | split]].
    + intros _. cbn. auto.
    + intros d Hd. discriminate Hd.
Qed.

(** The callback of the filter holds of a session exactly when it has a
    truthy [createdAt] whose date is valid and not before [since]. *)
Lemma created_since_spec since s :
  created_since (Some since) s = true ->
  truthy (get s "createdAt") = true /\
  exists created, Date_time (get s "createdAt") = Some created /\
                  since <= created.
Proof.
  unfold created_since.
  destruct (truthy (get s "createdAt")); cbn [negb]; [|discriminate].
  destruct (Date_time (get s "createdAt")) as [created|]; [|discriminate].
  intros Hle. apply Z.leb_le in Hle. eauto.
Qed.

Lemma filter_since_returns sinceDate sessions :
  existsb nullish sessions = false ->
  filter_since sinceDate sessions
  = inl (filter (created_since sinceDate) sessions).
Proof.
  induction sessions as [|s rest IH]; [reflexivity|].
  cbn [existsb]. intros Hn. apply orb_false_iff in Hn as [Hs Hn].
  cbn [filter_since filter]. rewrite (IH Hn).
  destruct s; try discriminate Hs; reflexivity.
Qed.

Lemma filter_since_throws sinceDate sessions :
  existsb nullish sessions = true ->
  exists thrown, filter_since sinceDate sessions = inr thrown.
Proof.
  induction sessions as [|s rest IH]; cbn [existsb]; [discriminate|].
  intros Hn. destruct s; cbn [nullish orb] in Hn;
    cbn [filter_since]; try (eexists; reflexivity);
    destruct (IH Hn) as [thrown ->]; eexists; reflexivity.
Qed.

Lemma filter_keeps_objects (p : Value -> bool) sessions :
  existsb nullish sessions = false ->
  existsb nullish (filter p sessions) = false.
Proof.
  induction sessions as [|s rest IH]; [reflexivity|].
  cbn [existsb filter]. intros Hn. apply orb_false_iff in Hn as [Hs Hn].
  destruct (p s); cbn [existsb]; rewrite ?Hs; cbn [orb]; apply IH, Hn.
Qed.

(** [getSessionsSince] fetches the whole array and keeps, in order, the
    sessions whose [createdAt] is present and is a valid date not before
    [sinceDate]; sessions without [createdAt] are never returned.  Its
    counts are the lengths of the kept and of the fetched array, and the
    metadata counts the kept ones.  An invalid [sinceDate] makes the call
    fail, as does a [null] element of the array. *)
Theorem sessions_since_filters :
  forall files c startTime now sinceDate e,
  let q := fst (fst (getInteractiveSessions files c startTime now
                       no_options e)) in
  let r := fst (fst (getSessionsSince files c startTime now sinceDate e)) in
  (success q = false ->
     since_success r = false /\ since_data r = None /\
     since_error r = error q) /\
  (forall d, success q = true -> data q = Some d ->
     (existsb nullish (sessions d) = true ->
        since_success r = false /\ since_data r = None) /\
     (existsb nullish (sessions d) = false -> sinceDate = None ->
        since_success r = false /\
        since_error r
        = Some "Failed to filter sessions: Invalid time value") /\
     (forall since,
        existsb nullish (sessions d) = false -> sinceDate = Some since ->
        Z.abs since <= 8640000000000000 ->
        since_success r = true /\
        exists kept,
          since_data r = Some kept /\
          since_sessions kept
          = filter (created_since (Some since)) (sessions d) /\
          Forall (fun s =>
                    truthy (get s "createdAt") = true /\
                    exists created,
                      Date_time (get s "createdAt") = Some created /\
                      since <= created) (since_sessions kept) /\
          matchCount (since_filter kept)
          = Z.of_nat (List.length (since_sessions kept)) /\
          totalCount (since_filter kept)
          = Z.of_nat (List.length (sessions d)) /\
          matchCount (since_filter kept) <= totalCount (since_filter kept) /\
          totalSessions (since_metadata kept)
          = matchCount (since_filter kept))).
Proof.
  intros files c startTime now sinceDate e. cbv zeta.
  unfold getSessionsSince.
  destruct (getInteractiveSessions files c startTime now no_options e)
    as [[q e'] reads].
  cbn [fst snd].
  destruct (success q) eqn:Hq; cbn [negb].
  - split; [discriminate|]. intros d _ Hd. rewrite Hd. split; [|split].
    + intros Hn. destruct (filter_since_throws sinceDate _ Hn) as [thrown ->].
      cbn. auto.
    + intros Hn ->. rewrite (filter_since_returns None _ Hn).
      destruct (metadata_returns _ (filter_keeps_objects (created_since None)
                                      _ Hn)) as (m & -> & _).
      cbn. auto.
    + intros since Hn -> Hrange. rewrite (filter_since_returns _ _ Hn).
      destruct (metadata_returns _ (filter_keeps_objects
                                      (created_since (Some since)) _ Hn))
        as (m & -> & Htotal).
      unfold toISOString.
      destruct (Z.abs since <=? 8640000000000000) eqn:E;
        [| apply Z.leb_gt in E; lia].
      cbn [fst since_success since_data]. split; [reflexivity|].
      eexists. split; [reflexivity|].
      cbn [since_sessions since_filter since_metadata matchCount totalCount].
      split; [reflexivity | split; [| split; [reflexivity | split;
        [reflexivity | split; [| exact Htotal]]]]].
      * apply Forall_forall. intros s Hs. apply filter_In in Hs as [_ Hs].
        now apply created_since_spec.
      * pose proof (filter_length_le (created_since (Some since)) (sessions d)).
        lia.
  - cbn. split; [auto|]. intros d Hd. discriminate Hd.
Qed.

End QueryEngineLookups.

Section QueryEngineLookupExamples.
Import JS SessionQueryEngine.

(** The sample runtime, with [JSON.parse] also given on the text
    [[null]]. *)
Definition null_runtime : Runtime := {|
  JSON_parse := fun text =>
    if String.eqb text "[null]" then inl (Array [Null])
    else Samples.sample_JSON_parse text;
  JSON_stringify_length := @JSON_stringify_length Samples.sample_runtime;
  String_ := @String_ Samples.sample_runtime;
  Date_parse := @Date_parse Samples.sample_runtime;
  ISO_format := @ISO_format Samples.sample_runtime;
  Date_time := @Date_time Samples.sample_runtime;
  sort_dates := @sort_dates Samples.sample_runtime
|}.

Lemma null_session_fails_metadata_witness :
  let files := Samples.store [("interactive.sessions", Some "[null]")] in
  success (fst (fst (getInteractiveSessions (H := null_runtime) files
                       Samples.connected 0 5 no_options newEngine))) = true /\
  success (fst (fst (getInteractiveSessions (H := null_runtime) files
                       Samples.connected 0 5
                       {| limit := None; offset := None;
                          includeMetadata := true |} newEngine))) = false.
Proof.
  cbv zeta.
  destruct (null_session_fails_metadata (rt := null_runtime)
              (Samples.store [("interactive.sessions", Some "[null]")])
              Samples.connected 0%nat 0 5 newEngine [Null]
              (conj eq_refl eq_refl) eq_refl eq_refl)
    as (_ & (Hplain & _) & (Hasked & _) & _).
  split; assumption.
Defined.

End QueryEngineLookupExamples.

(* ================================================================== *)
(** * Further properties of the reader facade *)

Section ReaderHistory.
Import JS DatabaseReader.
Context {rt : Runtime}.

(** The three public reading methods. *)
Inductive Request : Set :=
| GetSessions
| GetSessionById (sessionId : string)
| GetSessionsSince (sinceDate : option Z).

Definition internal (w : Surroundings) (q : Request) (r : Reader)
    : DatabaseReaderResult * SessionQueryEngine.Engine * list Sqlite.Handle :=
  match q with
  | GetSessions => getSessionsInternal w r
  | GetSessionById sessionId => getSessionByIdInternal w sessionId r
  | GetSessionsSince sinceDate => getSessionsSinceInternal w sinceDate r
  end.

Definition serve (w : Surroundings) (q : Request) (r : Reader)
    : DatabaseReaderResult * Reader :=
  match q with
  | GetSessions => getSessions w r
  | GetSessionById sessionId => getSessionById w sessionId r
  | GetSessionsSince sinceDate => getSessionsSince w sinceDate r
  end.

Definition operation_name (q : Request) : string :=
  match q with
  | GetSessions => "get_sessions"
  | GetSessionById _ => "get_session_by_id"
  | GetSessionsSince _ => "get_sessions_since"
  end.

(** The reader after a series of calls, each in its own surroundings. *)
Fixpoint served (calls : list (Surroundings * Request)) (r : Reader) : Reader :=
  match calls with
  | [] => r
  | (w, q) :: rest => served rest (snd (serve w q r))
  end.

Lemma serve_guarded w q r :
  serve w q r = guarded w (operation_name q) (internal w q) r.
Proof. destruct q; reflexivity. Qed.

(** A success leaves a CLOSED breaker CLOSED and records no failure. *)
Lemma onSuccess_closed cfg now b :
  DatabaseCircuitBreaker.state b = DatabaseCircuitBreaker.CLOSED ->
  DatabaseCircuitBreaker.state (DatabaseCircuitBreaker.onSuccess cfg now b)
  = DatabaseCircuitBreaker.CLOSED /\
  DatabaseCircuitBreaker.totalFailures
    (DatabaseCircuitBreaker.onSuccess cfg now b)
  = DatabaseCircuitBreaker.totalFailures b /\
  DatabaseCircuitBreaker.totalCalls
    (DatabaseCircuitBreaker.onSuccess cfg now b)
  = DatabaseCircuitBreaker.totalCalls b.
Proof.
  intros Hs. destruct b. cbn in Hs. subst.
  unfold DatabaseCircuitBreaker.onSuccess,
    DatabaseCircuitBreaker.cleanupOldFailures,
    DatabaseCircuitBreaker.falsy_time. cbn.
  destruct lastFailureTime as [t|]; cbn; auto.
  destruct (t =? 0); cbn; auto.
  destruct (t <? now - DatabaseCircuitBreaker.monitoringWindow cfg); cbn; auto.
Qed.

(** One call through a breaker that is CLOSED. *)
Lemma guarded_closed w name f r :
  enableCircuitBreaker (config r) = true ->
  DatabaseCircuitBreaker.state (circuitBreaker r)
  = DatabaseCircuitBreaker.CLOSED ->
  let result := fst (guarded w name f r) in
  let r' := snd (guarded w name f r) in
  success result = true /\ error result = None /\
  sessions result = sessions (fst (fst (f r))) /\
  config r' = config r /\
  queryEngine r' = snd (fst (f r)) /\
  DatabaseCircuitBreaker.state (circuitBreaker r')
  = DatabaseCircuitBreaker.CLOSED /\
  DatabaseCircuitBreaker.totalFailures (circuitBreaker r')
  = DatabaseCircuitBreaker.totalFailures (circuitBreaker r) /\
  DatabaseCircuitBreaker.totalCalls (circuitBreaker r')
  = DatabaseCircuitBreaker.totalCalls (circuitBreaker r) + 1.
Proof.
  intros Hon Hclosed. cbv zeta. unfold guarded. rewrite Hon.
  rewrite (execute_resolves_at_once _ DatabaseCircuitBreaker.DEFAULT_CONFIG
             name (internal_call w (f r)) (circuitBreaker r)
             (fst (fst (f r))) ltac:(cbn; lia)
             ltac:(rewrite Hclosed; discriminate) eq_refl).
  cbn [fst snd DatabaseCircuitBreaker.success DatabaseCircuitBreaker.data
       DatabaseCircuitBreaker.error success sessions error config queryEngine
       circuitBreaker].
  destruct (onSuccess_closed DatabaseCircuitBreaker.DEFAULT_CONFIG
              (DatabaseCircuitBreaker.settledAt (internal_call w (f r)) 0)
              (DatabaseCircuitBreaker.set_totalCalls
                 (DatabaseCircuitBreaker.totalCalls (circuitBreaker r) + 1)
                 (circuitBreaker r)) Hclosed) as (H1 & H2 & H3).
  repeat apply conj; try reflexivity; assumption.
Qed.

Lemma served_snoc calls : forall r w q,
  served (calls ++ [(w, q)]) r = snd (serve w q (served calls r)).
Proof.
  induction calls as [|[w0 q0] rest IH]; intros r w q; [reflexivity|].
  cbn [app served]. apply IH.
Qed.

Lemma served_closed cfg now calls :
  enableCircuitBreaker cfg = true ->
  let r := served calls (newReader cfg now) in
  config r = cfg /\
  DatabaseCircuitBreaker.state (circuitBreaker r)
  = DatabaseCircuitBreaker.CLOSED /\
  DatabaseCircuitBreaker.totalFailures (circuitBreaker r) = 0 /\
  DatabaseCircuitBreaker.totalCalls (circuitBreaker r)
  = Z.of_nat (List.length calls).
Proof.
  intros Hon. cbv zeta.
  induction calls as [|[w q] rest IH] using rev_ind.
  - cbn. auto.
  - rewrite served_snoc, serve_guarded. destruct IH as (Hc & Hs & Hf & Hn).
    destruct (guarded_closed w (operation_name q) (internal w q)
                (served rest (newReader cfg now)))
      as (_ & _ & _ & Hc' & _ & Hs' & Hf' & Hn'); [congruence | exact Hs |].
    rewrite Hc', Hf', Hn', Hc, Hf, Hn, length_app. cbn [List.length].
    repeat apply conj; try reflexivity; try assumption. lia.
Qed.

(** Behind the breaker the three reading methods hand it an operation
    that never rejects, since each internal method catches every exception
    and returns a result object.  So on a reader built with the breaker
    enabled, after any series of calls the breaker is still CLOSED and has
    recorded no failure, and every call returns [success = true] without
    an [error], with the [sessions] of the internal result, also when the
    internal result is a failure. *)
Theorem guarded_reader_never_fails :
  forall cfg now calls w q,
  enableCircuitBreaker cfg = true ->
  let r := served calls (newReader cfg now) in
  let result := fst (serve w q r) in
  DatabaseCircuitBreaker.state (circuitBreaker r)
  = DatabaseCircuitBreaker.CLOSED /\
  DatabaseCircuitBreaker.totalFailures (circuitBreaker r) = 0 /\
  DatabaseCircuitBreaker.totalCalls (circuitBreaker r)
  = Z.of_nat (List.length calls) /\
  success result = true /\ error result = None /\
  sessions result = sessions (fst (fst (internal w q r))).
Proof.
  intros cfg now calls w q Hon. cbv zeta.
  destruct (served_closed cfg now calls Hon) as (Hc & Hs & Hf & Hn).
  rewrite serve_guarded.
  destruct (guarded_closed w (operation_name q) (internal w q)
              (served calls (newReader cfg now)))
    as (H1 & H2 & H3 & _); [congruence | exact Hs |].
  repeat apply conj; assumption.
Qed.

(** [testConnection] parses the empty array as its last step, which
    [parseSessionData] never accepts: whatever the platform, the
    workspace, the connection and the store are, [dataParsing] and
    [overall] are false and at least one error is reported; when the
    query step passes, the last error is that of the parser. *)
Theorem testConnection_never_passes :
  forall w platformResult workspaceResult connectionResult r,
  let t := testConnection w platformResult workspaceResult connectionResult
             r in
  overall t = false /\ dataParsing t = false /\ errors t <> [] /\
  (sessionQuery t = true ->
   List.last (errors t) ""
   = "Data parsing: No valid sessions could be parsed").
Proof.
  intros w platformResult workspaceResult connectionResult r. cbv zeta.
  assert (Hnonempty : forall (l : list string) x, l ++ [x] <> []).
  { intros l x Hl. apply app_eq_nil in Hl as [_ Hl]. discriminate. }
  unfold testConnection.
  destruct platformResult as [platform | thrown]; [|cbn; repeat split; discriminate].
  destruct workspaceResult as [workspace | thrown];
    [| cbn; repeat split; try discriminate; apply Hnonempty].
  destruct connectionResult as [opened | thrown];
    [| cbn; repeat split; try discriminate; apply Hnonempty].
  destruct (Sqlite.success opened); cbn [negb].
  - destruct (SessionQueryEngine.meta_success _); cbn [negb].
    + cbn. rewrite !andb_false_r. repeat split.
      * apply Hnonempty.
      * intros _. apply last_last.
    + cbn. rewrite !andb_false_r. repeat split; try discriminate.
      apply Hnonempty.
  - cbn. rewrite !andb_false_r. repeat split; try discriminate.
    apply Hnonempty.
Qed.

End ReaderHistory.

Section ReaderComposition.
Import JS DatabaseReader.
Context {rt : Runtime}.

(** What the engine's [getSessionById] returns on success is an element
    with the id asked for. *)
Lemma found_has_id files c startTime now sessionId e :
  let r := fst (fst (SessionQueryEngine.getSessionById files c startTime now
                       sessionId e)) in
  SessionQueryEngine.found_success r = true ->
  exists s, SessionQueryEngine.found_data r = Some s /\
            strict_equal (get s "id") sessionId = true.
Proof.
  cbv zeta. unfold SessionQueryEngine.getSessionById.
  destruct (SessionQueryEngine.getInteractiveSessions files c startTime now
              SessionQueryEngine.no_options e) as [[q e'] reads].
  destruct (negb (SessionQueryEngine.success q)); [discriminate|].
  set (l := match SessionQueryEngine.data q with
            | Some d => SessionQueryEngine.sessions d
            | None => []
            end).
  assert (Hfind : forall s, SessionQueryEngine.find_by_id sessionId l
                            = inl (Some s) ->
                            strict_equal (get s "id") sessionId = true).
  { induction l as [|x l IH]; intros s; [discriminate|].
    cbn [SessionQueryEngine.find_by_id].
    destruct x; try discriminate;
      destruct (strict_equal _ sessionId) eqn:E; try (apply IH);
      intros [= <-]; exact E. }
  destruct (SessionQueryEngine.find_by_id sessionId l) as [[s|]|thrown];
    try discriminate.
  destruct (negb (truthy s)); [discriminate|].
  intros _. exists s. split; [reflexivity | now apply Hfind].
Qed.

(** Read by id without the breaker, the facade returns on success exactly
    one session, which has messages; for a non-empty id it is a session
    with the id asked for. *)
Theorem reader_session_by_id :
  forall w sessionId r,
  let result := fst (fst (getSessionByIdInternal w sessionId r)) in
  success result = true ->
  exists session,
    sessions result = Some [session] /\
    SessionDataParser.messages session <> [] /\
    (sessionId <> "" -> SessionDataParser.id session = sessionId) /\
    exists m, metadata result = Some m /\ totalSessions m = 1.
Proof.
  intros w sessionId r. cbv zeta. unfold getSessionByIdInternal.
  pose proof (found_has_id (files w) (connection w) (startTime w) (endTime w)
                sessionId (queryEngine r)) as Hfound. cbv zeta in Hfound.
  destruct (SessionQueryEngine.getSessionById (files w) (connection w)
              (startTime w) (endTime w) sessionId (queryEngine r))
    as [[qr e] reads].
  cbn [fst] in Hfound.
  destruct (SessionQueryEngine.found_success qr); cbn [negb]; [|discriminate].
  destruct (Hfound eq_refl) as (s & -> & Hid).
  destruct (parseSessionData_array (dataParser (config r)) (endTime w)
              (endTime w) [s]) as (Hdata & Hsucc & _).
  rewrite Hdata.
  destruct (SessionDataParser.success _) eqn:Hs; cbn [negb orb];
    [| discriminate].
  cbn [parsed_sessions] in *.
  destruct (SessionDataParser.ok _) eqn:Hok;
    [destruct (SessionDataParser.value _) as [p|] eqn:Hval|];
    cbn [List.length Nat.eqb]; try discriminate.
  cbn [fst success sessions metadata]. intros _.
  exists p. split; [reflexivity|].
  destruct (session_success_shape (dataParser (config r)) (endTime w) s 0%nat
              p Hval) as (sid & parsed & _ & _ & _ & _ & Hne & _ & Hm & _).
  split; [rewrite Hm; now apply Hne | split].
  - intros Hsid.
    apply (session_keeps_own_id (dataParser (config r)) (endTime w) s 0%nat).
    { exact Hval. }
    unfold strict_equal in Hid. unfold SessionDataParser.text_of.
    destruct (get s "id"); try discriminate.
    apply String.eqb_eq in Hid. subst.
    apply String.eqb_neq in Hsid. now rewrite Hsid.
  - eexists. split; reflexivity.
Qed.

(** Without the breaker [getSessions] composes the query and the parser:
    for a stored array without [null] it returns the sessions that parse
    on their own, in order, and fails with "No valid sessions could be
    parsed" when none does.  A [null] in the array fails the whole call
    in the query step, which computes metadata the reader does not use,
    whatever the other sessions are and also with lenient parsing. *)
Theorem reader_returns_parsed_sessions :
  forall w r database fetched,
  connects (connection w) database ->
  fst (fst (SessionQueryEngine.queryInteractiveSessionsRaw (files w) database
              (queryEngine r)))
  = {| SessionQueryEngine.raw_success := true;
       SessionQueryEngine.raw_data := Some fetched;
       SessionQueryEngine.raw_error := None |} ->
  let result := fst (fst (getSessionsInternal w r)) in
  let parsed := parsed_sessions (dataParser (config r)) (endTime w) fetched 0 in
  (existsb nullish fetched = true ->
     success result = false /\ sessions result = None /\
     exists thrown,
       error result = Some ("Query execution failed: " ++ thrown)%string) /\
  (existsb nullish fetched = false -> parsed <> [] ->
     success result = true /\ sessions result = Some parsed /\
     error result = None /\
     exists m, metadata result = Some m /\
               totalSessions m = Z.of_nat (List.length parsed)) /\
  (existsb nullish fetched = false -> parsed = [] ->
     success result = false /\ sessions result = None /\
     error result = Some "No valid sessions could be parsed").
Proof.
  intros w r database fetched [Hc1 Hc2] Hraw. cbv zeta.
  unfold getSessionsInternal, SessionQueryEngine.getInteractiveSessions.
  rewrite Hc1, Hc2.
  destruct (SessionQueryEngine.queryInteractiveSessionsRaw (files w) database
              (queryEngine r)) as [[r0 e0] rd].
  cbn [fst] in Hraw. subst r0.
  cbn [SessionQueryEngine.raw_success SessionQueryEngine.raw_data
       SessionQueryEngine.includeMetadata].
  split; [|split].
  - intros Hn. destruct (metadata_throws fetched Hn) as [thrown ->].
    cbn. split; [reflexivity | split; [reflexivity|]]. exists thrown.
    reflexivity.
  - intros Hn Hparsed. destruct (metadata_returns fetched Hn) as (m & -> & _).
    cbn [SessionQueryEngine.success negb SessionQueryEngine.data
         SessionQueryEngine.sessions].
    change (SessionQueryEngine.paginate _ fetched) with fetched.
    destruct (parseSessionData_array (dataParser (config r)) (endTime w)
                (endTime w) fetched) as (Hdata & Hsucc & _).
    apply Hsucc in Hparsed. rewrite Hparsed, Hdata. cbn.
    repeat split. eexists. split; reflexivity.
  - intros Hn Hparsed. destruct (metadata_returns fetched Hn) as (m & -> & _).
    cbn [SessionQueryEngine.success negb SessionQueryEngine.data
         SessionQueryEngine.sessions].
    change (SessionQueryEngine.paginate _ fetched) with fetched.
    destruct (parseSessionData_array (dataParser (config r)) (endTime w)
                (endTime w) fetched) as (Hdata & Hsucc & Herr).
    destruct (SessionDataParser.success _) eqn:Hs.
    + exfalso. exact (proj1 Hsucc eq_refl Hparsed).
    + rewrite (Herr eq_refl). cbn. repeat split.
Qed.

End ReaderComposition.

Section ReaderFacadeExamples.
Import JS DatabaseReader.

(** A stored array of one session with one user message, as JSON text and
    as the value it parses to. *)
Definition quote : string := String "034"%char "".

Definition stored_session_text : string :=
  ("[{" ++ quote ++ "id" ++ quote ++ ":" ++ quote ++ "s1" ++ quote ++ ","
   ++ quote ++ "messages" ++ quote ++ ":[{"
   ++ quote ++ "role" ++ quote ++ ":" ++ quote ++ "user" ++ quote ++ ","
   ++ quote ++ "content" ++ quote ++ ":" ++ quote ++ "hi" ++ quote
   ++ "}]}]")%string.

Definition stored_session : Value :=
  Object [("id", Str "s1");
          ("messages",
           Array [Object [("role", Str "user"); ("content", Str "hi")]])].

(** The sample runtime, with [JSON.parse] also given on that text. *)
Definition session_runtime : Runtime := {|
  JSON_parse := fun text =>
    if String.eqb text stored_session_text then inl (Array [stored_session])
    else Samples.sample_JSON_parse text;
  JSON_stringify_length := @JSON_stringify_length Samples.sample_runtime;
  String_ := @String_ Samples.sample_runtime;
  Date_parse := @Date_parse Samples.sample_runtime;
  ISO_format := @ISO_format Samples.sample_runtime;
  Date_time := @Date_time Samples.sample_runtime;
  sort_dates := @sort_dates Samples.sample_runtime
|}.

Definition one_session_store : Surroundings :=
  Samples.surroundings [("interactive.sessions", Some stored_session_text)].

Definition unguarded_reader : Reader :=
  newReader {| enableCircuitBreaker := false; strictParsing := true;
               cacheConnections := true |} 1.

Lemma guarded_reader_never_fails_witness :
  let r := served (rt := Samples.sample_runtime)
             [(Samples.surroundings [], GetSessions)]
             (newReader default_config 1) in
  let result := fst (serve (rt := Samples.sample_runtime)
                       (Samples.surroundings []) (GetSessionById "s1") r) in
  DatabaseCircuitBreaker.state (circuitBreaker r)
  = DatabaseCircuitBreaker.CLOSED /\
  success result = true /\ error result = None.
Proof.
  cbv zeta.
  destruct (guarded_reader_never_fails (rt := Samples.sample_runtime)
              default_config 1 [(Samples.surroundings [], GetSessions)]
              (Samples.surroundings []) (GetSessionById "s1") eq_refl)
    as (Hstate & _ & _ & Hsuccess & Herror & _).
  split; [exact Hstate | split; [exact Hsuccess | exact Herror]].
Defined.

Lemma reader_session_by_id_witness :
  exists session,
    sessions (fst (fst (getSessionByIdInternal (H := session_runtime)
                          one_session_store "s1" unguarded_reader)))
    = Some [session] /\
    SessionDataParser.id session = "s1".
Proof.
  destruct (reader_session_by_id (rt := session_runtime) one_session_store
              "s1" unguarded_reader ltac:(vm_compute; reflexivity))
    as (session & Hsessions & _ & Hid & _).
  exists session. split; [exact Hsessions | apply Hid; discriminate].
Defined.

Lemma reader_returns_parsed_sessions_witness :
  success (fst (fst (getSessionsInternal (H := session_runtime)
                       one_session_store unguarded_reader))) = true.
Proof.
  refine (proj1 (proj1 (proj2
    (reader_returns_parsed_sessions (rt := session_runtime) one_session_store
       unguarded_reader 0%nat [stored_session] (conj eq_refl eq_refl)
       ltac:(vm_compute; reflexivity))) eq_refl _)).
  vm_compute. discriminate.
Defined.

End ReaderFacadeExamples.

(* ================================================================== *)
(** * Properties of the connection manager *)

Section ConnectionManagerProperties.
Import JSMap DatabaseConnectionManager.

Lemma connection_Map_get_set (V : Type) key (v : V) m :
  Map_get key (Map_set key v m) = Some v.
Proof.
  induction m as [|[k w] rest IH]; cbn.
  - now rewrite String.eqb_refl.
  - destruct (String.eqb k key) eqn:E; cbn; rewrite E; [reflexivity | exact IH].
Qed.

(** The answer of a call that is turned away. *)
Definition too_soon (databasePath : string) : Sqlite.ConnectionResult :=
  {| Sqlite.success := false; Sqlite.database := None;
     Sqlite.error := Some ("Too many recent connection attempts for "
                           ++ databasePath ++ ". Please wait.")%string |}.

(** The test "Check if we should retry". *)
Definition waiting (databasePath : string) (now : Z) (m : Manager) : bool :=
  match Map_get databasePath (lastConnectionAttempt m) with
  | Some lastAttempt =>
      negb (lastAttempt =? 0) && (now - lastAttempt <? RETRY_DELAY)
  | None => false
  end.

Definition is_Opened (e : Event) : bool :=
  match e with
  | Opened _ _ => true
  | _ => false
  end.

(** The four ways a call ends: turned away; answered from the pool; a
    failed attempt, which is recorded; a new connection, which is pooled. *)
Lemma getConnection_cases world databasePath now later m :
  let attempt := getConnection world databasePath now later m in
  let r := fst (fst attempt) in
  let m' := snd (fst attempt) in
  let events := snd attempt in
  (waiting databasePath now m = true /\
   r = too_soon databasePath /\ m' = m /\ events = []) \/
  (waiting databasePath now m = false /\
   exists existing,
     Map_get databasePath (activeConnections m) = Some existing /\
     isConnectionValid world existing = true /\
     r = {| Sqlite.success := true; Sqlite.database := Some existing;
            Sqlite.error := None |} /\
     m' = m /\ events = []) \/
  (waiting databasePath now m = false /\
   Sqlite.success r = false /\
   Map_get databasePath (lastConnectionAttempt m') = Some later /\
   (isAccessible (validateDatabaseFile world databasePath) = false ->
    existsb is_Opened events = false)) \/
  (waiting databasePath now m = false /\
   isAccessible (validateDatabaseFile world databasePath) = true /\
   exists database,
     construct world databasePath = inl database /\
     r = {| Sqlite.success := true; Sqlite.database := Some database;
            Sqlite.error := None |} /\
     Map_get databasePath (activeConnections m') = Some database /\
     lastConnectionAttempt m' = lastConnectionAttempt m).
Proof.
  cbv zeta. unfold getConnection. fold (waiting databasePath now m).
  destruct (waiting databasePath now m) eqn:Hwait.
  { left. auto. }
  right.
  assert (Hclosed : forall l, existsb is_Opened (l ++ [Validated databasePath])
                              = existsb is_Opened l).
  { intros l. rewrite existsb_app. cbn. now rewrite orb_false_r. }
  destruct (Map_get databasePath (activeConnections m)) as [c|] eqn:Hpool.
  - destruct (isConnectionValid world c) eqn:Hvalid.
    { left. split; [reflexivity|]. exists c. cbn. auto. }
    right. unfold closeConnection. rewrite Hpool.
    destruct (isAccessible (validateDatabaseFile world databasePath)) eqn:Hacc;
      cbn [negb].
    + destruct (construct world databasePath) as [d|thrown] eqn:Hnew.
      * destruct (connectionTest world d) as [thrown|].
        -- left. cbn. repeat split; try discriminate.
           apply connection_Map_get_set.
        -- right. split; [reflexivity | split; [reflexivity|]].
           exists d. cbn. repeat split. apply connection_Map_get_set.
      * left. cbn. repeat split; try discriminate.
        apply connection_Map_get_set.
    + left. cbn. repeat split. apply connection_Map_get_set.
  - right.
    destruct (isAccessible (validateDatabaseFile world databasePath)) eqn:Hacc;
      cbn [negb].
    + destruct (construct world databasePath) as [d|thrown] eqn:Hnew.
      * destruct (connectionTest world d) as [thrown|].
        -- left. cbn. repeat split; try discriminate.
           apply connection_Map_get_set.
        -- right. split; [reflexivity | split; [reflexivity|]].
           exists d. cbn. repeat split. apply connection_Map_get_set.
      * left. cbn. repeat split; try discriminate.
        apply connection_Map_get_set.
    + left. cbn. repeat split. apply connection_Map_get_set.
Qed.

(** After a call for a path has failed, the manager holds the time of a
    failed attempt for that path, and every call for the path that comes
    less than 30 seconds after that time is turned away with "Too many
    recent connection attempts" without looking at the file, opening or
    closing anything, and without changing the manager; so the calls that
    are turned away do not prolong the wait. *)
Theorem failed_attempt_cools_down :
  forall world databasePath now later m,
  let attempt := getConnection world databasePath now later m in
  Sqlite.success (fst (fst attempt)) = false ->
  later <> 0 ->
  exists lastAttempt,
    Map_get databasePath (lastConnectionAttempt (snd (fst attempt)))
    = Some lastAttempt /\
    (lastAttempt = later \/
     fst (fst attempt) = too_soon databasePath /\ snd (fst attempt) = m /\
     snd attempt = []) /\
    forall world' now' later',
      now' - lastAttempt < RETRY_DELAY ->
      getConnection world' databasePath now' later' (snd (fst attempt))
      = (too_soon databasePath, snd (fst attempt), []).
Proof.
  intros world databasePath now later m. cbv zeta. intros Hfail Hlater.
  assert (Hblocked : forall world' now' later' m' t,
            Map_get databasePath (lastConnectionAttempt m') = Some t ->
            t <> 0 -> now' - t < RETRY_DELAY ->
            getConnection world' databasePath now' later' m'
            = (too_soon databasePath, m', [])).
  { intros world' now' later' m' t Hget Ht Hsoon. unfold getConnection.
    rewrite Hget. apply Z.eqb_neq in Ht. rewrite Ht.
    apply Z.ltb_lt in Hsoon. rewrite Hsoon. reflexivity. }
  destruct (getConnection_cases world databasePath now later m)
    as [(Hwait & Hr & Hm & He) | [(_ & c & _ & _ & Hr & _) |
        [(_ & _ & Hlast & _) | (_ & _ & d & _ & Hr & _)]]].
  - unfold waiting in Hwait.
    destruct (Map_get databasePath (lastConnectionAttempt m)) as [t|] eqn:Hlast;
      [|discriminate].
    apply andb_true_iff in Hwait as [Ht _].
    apply negb_true_iff, Z.eqb_neq in Ht.
    exists t. rewrite Hm. split; [exact Hlast | split; [right; auto|]].
    intros world' now' later' Hsoon. now apply Hblocked with (t := t).
  - rewrite Hr in Hfail. discriminate.
  - exists later. split; [exact Hlast | split; [left; reflexivity|]].
    intros world' now' later' Hsoon. now apply Hblocked with (t := later).
  - rewrite Hr in Hfail. discriminate.
Qed.

(** A call that succeeds leaves the connection it returns in the pool
    under the path and records no failed attempt.  Every later call for
    the path is then answered with that same connection for as long as it
    is valid, without looking at the file or opening anything. *)
Theorem connection_is_pooled :
  forall world databasePath now later m,
  let attempt := getConnection world databasePath now later m in
  Sqlite.success (fst (fst attempt)) = true ->
  exists database,
    Sqlite.database (fst (fst attempt)) = Some database /\
    Map_get databasePath (activeConnections (snd (fst attempt)))
    = Some database /\
    lastConnectionAttempt (snd (fst attempt)) = lastConnectionAttempt m /\
    forall world' now' later',
      now <= now' -> isConnectionValid world' database = true ->
      getConnection world' databasePath now' later' (snd (fst attempt))
      = ({| Sqlite.success := true; Sqlite.database := Some database;
            Sqlite.error := None |}, snd (fst attempt), []).
Proof.
  intros world databasePath now later m. cbv zeta. intros Hok.
  assert (Hagain : forall world' now' later' m' database,
            waiting databasePath now m = false -> now <= now' ->
            lastConnectionAttempt m' = lastConnectionAttempt m ->
            Map_get databasePath (activeConnections m') = Some database ->
            isConnectionValid world' database = true ->
            getConnection world' databasePath now' later' m'
            = ({| Sqlite.success := true; Sqlite.database := Some database;
                  Sqlite.error := None |}, m', [])).
  { intros world' now' later' m' database Hwait Hnow Hsame Hpool Hvalid.
    assert (Hwait' : waiting databasePath now' m' = false).
    { unfold waiting in *. rewrite Hsame.
      destruct (Map_get databasePath (lastConnectionAttempt m)) as [t|];
        [|reflexivity].
      destruct (t =? 0); [reflexivity|]. cbn [negb andb] in *.
      apply Z.ltb_ge in Hwait. apply Z.ltb_ge. lia. }
    unfold getConnection. fold (waiting databasePath now' m').
    rewrite Hwait', Hpool, Hvalid. reflexivity. }
  destruct (getConnection_cases world databasePath now later m)
    as [(_ & Hr & _) | [(Hwait & c & Hpool & _ & Hr & Hm & _) |
        [(_ & Hfail & _) | (Hwait & _ & d & _ & Hr & Hpool & Hlast)]]].
  - rewrite Hr in Hok. discriminate.
  - exists c. rewrite Hr, Hm. cbn [Sqlite.database].
    split; [reflexivity | split; [exact Hpool | split; [reflexivity|]]].
    intros world' now' later' Hnow Hvalid. now apply Hagain.
  - congruence.
  - exists d. rewrite Hr. cbn [Sqlite.database].
    split; [reflexivity | split; [exact Hpool | split; [exact Hlast|]]].
    intros world' now' later' Hnow Hvalid. now apply Hagain.
Qed.

(** The file is validated before a connection is created: [getConnection]
    never opens a path that is missing, is not a regular file, cannot be
    read, or does not begin with the text "SQLite format 3"; unless a
    valid pooled connection answers the call, it fails. *)
Theorem only_sqlite_files_are_opened :
  forall world databasePath now later m,
  let file := fs world databasePath in
  let attempt := getConnection world databasePath now later m in
  (isAccessible (validateDatabaseFile world databasePath) = true <->
   existsSync file = true /\ readable file = true /\
   header file = inl "SQLite format 3" /\
   exists stats, stat file = inl stats /\ isFile stats = true) /\
  (isAccessible (validateDatabaseFile world databasePath) = false ->
   existsb is_Opened (snd attempt) = false /\
   (Sqlite.success (fst (fst attempt)) = true ->
    exists existing,
      Map_get databasePath (activeConnections m) = Some existing /\
      isConnectionValid world existing = true /\
      Sqlite.database (fst (fst attempt)) = Some existing)).
Proof.
  intros world databasePath now later m. cbv zeta. split.
  - unfold validateDatabaseFile.
    destruct (existsSync (fs world databasePath)); cbn [negb];
      [| cbn; split; [discriminate | intros (H & _); discriminate]].
    destruct (stat (fs world databasePath)) as [stats|thrown];
      [| cbn; split; [discriminate | intros (_ & _ & _ & x & H & _);
                                      discriminate]].
    destruct (isFile stats) eqn:Hfile; cbn [negb];
      [| cbn; split; [discriminate | intros (_ & _ & _ & x & H & H');
                                      congruence]].
    destruct (readable (fs world databasePath)); cbn [negb];
      [| cbn; split; [discriminate | intros (_ & H & _); discriminate]].
    destruct (header (fs world databasePath)) as [text|thrown];
      [| cbn; split; [discriminate | intros (_ & _ & H & _); discriminate]].
    cbn [isAccessible]. split.
    + intros Heq. apply String.eqb_eq in Heq. subst.
      repeat split. exists stats. auto.
    + intros (_ & _ & [= ->] & _). reflexivity.
  - intros Hacc.
    destruct (getConnection_cases world databasePath now later m)
      as [(_ & Hr & _ & He) | [(_ & c & Hpool & Hvalid & Hr & _ & He) |
          [(_ & Hfail & _ & Hnone) | (_ & Hacc' & _)]]].
    + rewrite He, Hr. split; [reflexivity | discriminate].
    + rewrite He, Hr. split; [reflexivity|]. intros _. exists c. auto.
    + split; [now apply Hnone | congruence].
    + congruence.
Qed.

Lemma deletes_all (V : Type) (paths : list string) : forall m : list (string * V),
  (forall k v, In (k, v) m -> In k paths) ->
  fold_left (fun a k => Map_delete k a) paths m = [].
Proof.
  induction paths as [|p rest IH]; intros m Hkeys; cbn [fold_left].
  - destruct m as [|[k v] m]; [reflexivity|].
    destruct (Hkeys k v (or_introl eq_refl)).
  - apply IH. intros k v Hin.
    assert (Hdel : In (k, v) (Map_delete p m) ->
                   In (k, v) m /\ String.eqb k p = false).
    { clear. induction m as [|[k0 v0] m IHm]; cbn; [tauto|].
      destruct (String.eqb k0 p) eqn:E.
      - intros Hin. destruct (IHm Hin). auto.
      - cbn. intros [[= -> ->] | Hin]; [auto|].
        destruct (IHm Hin). auto. }
    destruct (Hdel Hin) as [Hm Hne].
    destruct (Hkeys k v Hm) as [-> | Hrest]; [|exact Hrest].
    rewrite String.eqb_refl in Hne. discriminate.
Qed.

Lemma closeConnections_pool paths : forall m,
  activeConnections (fst (closeConnections paths m))
  = fold_left (fun a k => Map_delete k a) paths (activeConnections m) /\
  lastConnectionAttempt (fst (closeConnections paths m))
  = lastConnectionAttempt m /\
  Forall (fun e => exists database, e = Closed database)
    (snd (closeConnections paths m)).
Proof.
  induction paths as [|p rest IH]; intros m; cbn [closeConnections fold_left].
  - cbn. auto.
  - assert (Hdel : forall l : list (string * Sqlite.Handle),
              Map_get p l = None -> Map_delete p l = l).
    { induction l as [|[k v] l IHl]; cbn; [reflexivity|].
      destruct (String.eqb k p); [discriminate|]. intros Hn. now rewrite IHl. }
    unfold closeConnection.
    destruct (Map_get p (activeConnections m)) as [c|] eqn:Hc.
    + match goal with
      | |- context [closeConnections rest ?m1] =>
          destruct (IH m1) as (H1 & H2 & H3);
          destruct (closeConnections rest m1) as [m2 more]
      end.
      cbn [fst snd activeConnections lastConnectionAttempt] in *.
      split; [exact H1 | split; [exact H2|]].
      constructor; [eauto | exact H3].
    + destruct (IH m) as (H1 & H2 & H3).
      destruct (closeConnections rest m) as [m2 more].
      cbn [fst snd app] in *. rewrite (Hdel _ Hc).
      split; [exact H1 | split; [exact H2 | exact H3]].
Qed.

(** [dispose] returns the manager to its initial state, with an empty
    pool and no recorded attempt, and does nothing to the outside but
    close connections. *)
Theorem dispose_empties_manager :
  forall m,
  fst (dispose m) = newManager /\
  Forall (fun e => exists database, e = Closed database) (snd (dispose m)).
Proof.
  intros m. unfold dispose, closeAllConnections.
  destruct (closeConnections_pool (map fst (activeConnections m)) m)
    as (Hpool & _ & Hevents).
  destruct (closeConnections (map fst (activeConnections m)) m) as [m' closed].
  cbn [fst snd] in *. split; [|exact Hevents].
  rewrite Hpool. unfold newManager. f_equal.
  apply deletes_all. intros k v Hin.
  apply in_map_iff. exists (k, v). auto.
Qed.

End ConnectionManagerProperties.

Section ConnectionManagerExamples.
Import JSMap DatabaseConnectionManager.

(** A world without files, in which nothing can be opened. *)
Definition empty_disk : World := {|
  fs := fun _ => {| existsSync := false; stat := inr "ENOENT";
                    readable := false; header := inr "ENOENT" |};
  construct := fun _ => inr "unable to open database file";
  connectionTest := fun _ => None;
  isConnectionValid := fun _ => true
|}.

(** A world in which every path is a readable SQLite file, opened as
    connection 7. *)
Definition sqlite_disk : World := {|
  fs := fun _ => {| existsSync := true;
                    stat := inl {| isFile := true; size := 4096;
                                   mtime := 1700000000000 |};
                    readable := true; header := inl "SQLite format 3" |};
  construct := fun _ => inl 7%nat;
  connectionTest := fun _ => None;
  isConnectionValid := fun _ => true
|}.

Lemma failed_attempt_cools_down_witness :
  let m := snd (fst (getConnection empty_disk "state.vscdb" 1000 1001
                       newManager)) in
  getConnection sqlite_disk "state.vscdb" 31000 31001 m
  = (too_soon "state.vscdb", m, []).
Proof.
  cbv zeta.
  destruct (failed_attempt_cools_down empty_disk "state.vscdb" 1000 1001
              newManager eq_refl ltac:(discriminate))
    as (lastAttempt & Hlast & _ & Hblocked).
  injection Hlast as <-.
  apply Hblocked. reflexivity.
Defined.

Lemma connection_is_pooled_witness :
  let m := snd (fst (getConnection sqlite_disk "state.vscdb" 1000 1001
                       newManager)) in
  fst (fst (getConnection empty_disk "state.vscdb" 2000 2001 m))
  = {| Sqlite.success := true; Sqlite.database := Some 7%nat;
       Sqlite.error := None |}.
Proof.
  cbv zeta.
  destruct (connection_is_pooled sqlite_disk "state.vscdb" 1000 1001
              newManager eq_refl) as (database & Hdb & _ & _ & Hagain).
  injection Hdb as <-.
  rewrite (Hagain empty_disk 2000 2001 ltac:(discriminate) eq_refl).
  reflexivity.
Defined.

End ConnectionManagerExamples.

(* ================================================================== *)
(** * Further properties of the workspace resolver *)

Section WorkspaceInfoProperties.
Import JSMap Node WorkspaceResolver.

Fixpoint no_slash (s : string) : bool :=
  match s with
  | EmptyString => true
  | String c rest => negb (Ascii.eqb c "/") && no_slash rest
  end.

(** A segment of a normalized path. *)
Definition clean (segment : string) : bool :=
  no_slash segment
  && negb (String.eqb segment "" || String.eqb segment ".")
  && negb (String.eqb segment "..").

Lemma split_slash_no_slash s :
  Forall (fun segment => no_slash segment = true) (split_slash s).
Proof.
  induction s as [|c rest IH]; cbn [split_slash].
  - repeat constructor.
  - destruct (Ascii.eqb c "/") eqn:E.
    + constructor; [reflexivity | exact IH].
    + destruct (split_slash rest) as [|segment others].
      * repeat constructor. cbn. now rewrite E.
      * inversion IH as [|? ? Hs Ho]; subst.
        constructor; [cbn; now rewrite E | exact Ho].
Qed.

Lemma normalize_step_clean stack segment :
  Forall (fun x => clean x = true) stack -> no_slash segment = true ->
  Forall (fun x => clean x = true) (normalize_step stack segment).
Proof.
  intros Hstack Hseg. unfold normalize_step.
  destruct (String.eqb segment "" || String.eqb segment ".") eqn:E1;
    [exact Hstack|].
  destruct (String.eqb segment "..") eqn:E2.
  - destruct stack; [constructor | now inversion Hstack].
  - constructor; [| exact Hstack]. unfold clean. now rewrite Hseg, E1, E2.
Qed.

Lemma normalize_clean segments :
  Forall (fun segment => no_slash segment = true) segments ->
  Forall (fun x => clean x = true) (normalize segments).
Proof.
  intros Hsegs. unfold normalize. apply Forall_rev.
  assert (Hfold : forall stack,
            Forall (fun x => clean x = true) stack ->
            Forall (fun x => clean x = true)
              (fold_left normalize_step segments stack)).
  { induction Hsegs as [|segment rest Hs Hrest IH]; intros stack Hstack;
      [exact Hstack|].
    cbn [fold_left]. apply IH. now apply normalize_step_clean. }
  apply Hfold. constructor.
Qed.

Lemma split_slash_segment s : no_slash s = true -> split_slash s = [s].
Proof.
  induction s as [|c rest IH]; [reflexivity|].
  cbn [no_slash split_slash]. intros H.
  apply andb_true_iff in H as [Hc Hrest]. apply negb_true_iff in Hc.
  rewrite Hc, (IH Hrest). reflexivity.
Qed.

Lemma split_slash_app segment rest :
  no_slash segment = true ->
  split_slash (segment ++ "/" ++ rest) = segment :: split_slash rest.
Proof.
  induction segment as [|c segment IH]; [reflexivity|].
  cbn [no_slash]. intros H.
  apply andb_true_iff in H as [Hc Hrest]. apply negb_true_iff in Hc.
  change (String c segment ++ "/" ++ rest)%string
    with (String c (segment ++ "/" ++ rest)).
  cbn [split_slash]. rewrite Hc, (IH Hrest). reflexivity.
Qed.

Lemma split_slash_join segments :
  Forall (fun segment => no_slash segment = true) segments ->
  segments <> [] -> split_slash (join segments) = segments.
Proof.
  induction 1 as [|segment others Hs Ho IH]; [congruence|]. intros _.
  destruct others as [|next others].
  - cbn [join]. now apply split_slash_segment.
  - change (join (segment :: next :: others))
      with (segment ++ "/" ++ join (next :: others))%string.
    rewrite (split_slash_app _ _ Hs), IH; [reflexivity | discriminate].
Qed.

Lemma normalize_step_push segments : forall stack,
  Forall (fun x => clean x = true) segments ->
  fold_left normalize_step segments stack = rev segments ++ stack.
Proof.
  induction segments as [|segment rest IH]; intros stack Hclean; [reflexivity|].
  inversion Hclean as [|? ? Hs Hrest]; subst.
  cbn [fold_left rev]. rewrite <- app_assoc. cbn [app].
  rewrite <- (IH (segment :: stack) Hrest). f_equal.
  unfold clean in Hs. unfold normalize_step.
  apply andb_true_iff in Hs as [Hs H2]. apply andb_true_iff in Hs as [_ H1].
  apply negb_true_iff in H1, H2. now rewrite H1, H2.
Qed.

Lemma clean_no_slash segments :
  Forall (fun x => clean x = true) segments ->
  Forall (fun segment => no_slash segment = true) segments.
Proof.
  apply Forall_impl. intros x Hx. unfold clean in Hx.
  apply andb_true_iff in Hx as [Hx _]. now apply andb_true_iff in Hx as [Hx _].
Qed.

(** [path.resolve] returns a normalized absolute path, which it leaves as
    it is. *)
Lemma resolve_idempotent cwd p : resolve cwd (resolve cwd p) = resolve cwd p.
Proof.
  assert (Hshape : exists segments,
            Forall (fun x => clean x = true) segments /\
            resolve cwd p = ("/" ++ join segments)%string).
  { eexists. split; [| reflexivity].
    apply normalize_clean, split_slash_no_slash. }
  destruct Hshape as (segments & Hclean & ->).
  unfold resolve.
  change (isAbsolute ("/" ++ join segments)) with true. cbv iota.
  change (split_slash ("/" ++ join segments))
    with ("" :: split_slash (join segments)).
  f_equal. f_equal.
  destruct segments as [|segment others]; [reflexivity|].
  rewrite split_slash_join;
    [| now apply clean_no_slash | discriminate].
  unfold normalize.
  change (fold_left normalize_step ("" :: segment :: others) [])
    with (fold_left normalize_step (segment :: others) []).
  rewrite (normalize_step_push _ [] Hclean), app_nil_r. apply rev_involutive.
Qed.

(** A first answer of [getWorkspaceInfo] for a path, when the storage
    directory is known: the workspace path is the resolved path, the id is
    the one [generateWorkspaceId] gives for the path as it was asked for
    (resolving twice changes nothing), the database path is the storage
    path joined with the id and [state.vscdb], and the answer is valid
    exactly when that file passes [validateDatabasePath], in which case it
    carries no error.  The answer is cached under the path as asked for:
    as long as the database path exists, every later call returns the
    same answer, whatever the file has become and whatever the platform
    resolver says by then. *)
Theorem workspace_info_is_cached :
  forall cwd path_join fs storageResult storage asked r,
  storage_of storageResult = Some storage ->
  JSMap.Map_get asked (workspaceCache r) = None ->
  let answer := getWorkspaceInfo cwd path_join fs storageResult asked r in
  let info := fst answer in
  workspacePath info = resolve cwd asked /\
  workspaceId info = generateWorkspaceId cwd asked /\
  databasePath info = path_join [storage; workspaceId info; "state.vscdb"] /\
  isValid info = validateDatabasePath fs (databasePath info) /\
  (isValid info = true <-> error info = None) /\
  JSMap.Map_get asked (workspaceCache (snd answer)) = Some info /\
  forall fs' storageResult',
    DatabaseConnectionManager.existsSync (fs' (databasePath info)) = true ->
    getWorkspaceInfo cwd path_join fs' storageResult' asked (snd answer)
    = (info, snd answer).
Proof.
  intros cwd path_join fs storageResult storage asked r Hstorage Hfresh.
  cbv zeta.
  assert (Hid : generateWorkspaceId cwd (resolve cwd asked)
                = generateWorkspaceId cwd asked).
  { unfold generateWorkspaceId. now rewrite resolve_idempotent. }
  assert (Hanswer : exists info,
            getWorkspaceInfo cwd path_join fs storageResult asked r
            = (info, {| workspaceCache :=
                          JSMap.Map_set asked info (workspaceCache r) |}) /\
            workspacePath info = resolve cwd asked /\
            workspaceId info = generateWorkspaceId cwd asked /\
            databasePath info
            = path_join [storage; workspaceId info; "state.vscdb"] /\
            isValid info = validateDatabasePath fs (databasePath info) /\
            (isValid info = true <-> error info = None)).
  { unfold getWorkspaceInfo. rewrite Hfresh, Hstorage, Hid.
    generalize (generateWorkspaceId cwd asked). intros hashed.
    eexists. split; [reflexivity|].
    cbn [workspacePath workspaceId databasePath isValid error].
    repeat (split; [reflexivity|]).
    destruct (validateDatabasePath fs _); split; intros; congruence. }
  destruct Hanswer as (info & -> & H1 & H2 & H3 & H4 & H5).
  cbn [fst snd].
  split; [exact H1 | split; [exact H2 | split; [exact H3 |
    split; [exact H4 | split; [exact H5 | split]]]]].
  - apply connection_Map_get_set.
  - intros fs' storageResult' Hexists. unfold getWorkspaceInfo.
    cbn [workspaceCache]. rewrite connection_Map_get_set, Hexists. reflexivity.
Qed.

(** The resolver and the connection manager test a database file in the
    same way, so the manager never answers "Database file is not
    accessible" for a path the resolver has validated, as long as the file
    is unchanged; and what [findWorkspaceById] returns is always valid,
    without a workspace path, with the id asked for. *)
Theorem resolver_and_manager_agree :
  forall world path_join storageResult databasePath now later m workspaceId,
  let fs := DatabaseConnectionManager.fs world in
  validateDatabasePath fs databasePath
  = DatabaseConnectionManager.isAccessible
      (DatabaseConnectionManager.validateDatabaseFile world databasePath) /\
  (validateDatabasePath fs databasePath = true ->
   Sqlite.error
     (fst (fst (DatabaseConnectionManager.getConnection world databasePath
                  now later m)))
   <> Some ("Database file is not accessible: " ++ databasePath)%string) /\
  (forall info,
     findWorkspaceById path_join fs storageResult workspaceId = Some info ->
     isValid info = true /\ WorkspaceResolver.workspaceId info = workspaceId /\
     workspacePath info = "" /\ error info = None /\
     validateDatabasePath fs (WorkspaceResolver.databasePath info) = true).
Proof.
  intros world path_join storageResult databasePath now later m workspaceId.
  cbv zeta.
  assert (Hsame : forall p,
            validateDatabasePath (DatabaseConnectionManager.fs world) p
            = DatabaseConnectionManager.isAccessible
                (DatabaseConnectionManager.validateDatabaseFile world p)).
  { intros p. unfold validateDatabasePath,
      DatabaseConnectionManager.validateDatabaseFile.
    destruct (DatabaseConnectionManager.existsSync _); cbn [negb];
      [|reflexivity].
    destruct (DatabaseConnectionManager.stat _) as [stats|]; [|reflexivity].
    destruct (DatabaseConnectionManager.isFile stats); cbn [negb];
      [|reflexivity].
    destruct (DatabaseConnectionManager.readable _); cbn [negb];
      [|reflexivity].
    destruct (DatabaseConnectionManager.header _); reflexivity. }
  split; [apply Hsame | split].
  - rewrite Hsame. intros Hacc.
    unfold DatabaseConnectionManager.getConnection.
    rewrite Hacc. cbn [negb].
    repeat match goal with
    | |- context [match ?x with _ => _ end] => destruct x
    | |- context [if ?x then _ else _] => destruct x
    end; cbn; discriminate.
  - intros info. unfold findWorkspaceById.
    destruct (storage_of storageResult) as [storage|]; [|discriminate].
    destruct (validateDatabasePath _ _) eqn:Hvalid; cbn [negb];
      [|discriminate].
    intros [= <-]. cbn. auto.
Qed.

End WorkspaceInfoProperties.

Section WorkspaceInfoExamples.
Import Node WorkspaceResolver.

(** A disk on which every path is a readable SQLite file. *)
Definition full_disk : string -> DatabaseConnectionManager.File :=
  DatabaseConnectionManager.fs sqlite_disk.

Definition known_storage : PathValidationResult :=
  {| storage_isValid := true;
     storage_path := Some "/home/user/.config/Code/User/workspaceStorage";
     storage_error := None |}.

Lemma workspace_info_is_cached_witness :
  let answer := getWorkspaceInfo "/work" join full_disk known_storage
                  "/home/user/project/" newResolver in
  workspacePath (fst answer) = "/home/user/project" /\
  isValid (fst answer) = true /\
  getWorkspaceInfo "/work" join full_disk
    {| storage_isValid := false; storage_path := None;
       storage_error := None |}
    "/home/user/project/" (snd answer)
  = answer.
Proof.
  cbv zeta.
  destruct (workspace_info_is_cached "/work" join full_disk known_storage
              "/home/user/.config/Code/User/workspaceStorage"
              "/home/user/project/" newResolver eq_refl eq_refl)
    as (Hpath & _ & _ & Hvalid & _ & _ & Hcached).
  split; [exact Hpath | split; [rewrite Hvalid; reflexivity |]].
  rewrite (Hcached full_disk _ eq_refl). apply surjective_pairing.
Defined.

End WorkspaceInfoExamples.
